(** * amz::deferred_reclamation_allocator: a shallow embedding

    The allocator adaptor of [deferred_reclamation_allocator.hpp] keeps every
    deallocated range in a fixed-size _delay buffer_; a full buffer is
    time-stamped and appended to the _delay list_, and buffers leave the
    list (oldest first) once the _timeout time_ has elapsed.

    The embedding follows the class member by member.  One allocator object
    is a record with the data members of the class; the member functions
    are programs of a state-and-failure monad over the object and the
    world it runs in.  The world holds what the class reaches through its
    collaborators: the steady clock, the underlying allocator's memory
    resource, the value type's destructor, and a trace of the calls made
    to them. *)

From Stdlib Require Import ZArith List Bool Lia Sorted.
From stdpp Require Import base tactics option list sorting.

Local Open Scope Z_scope.

(** ** Values *)

(** Pointers into the value storage are addresses counted in objects of
    [value_type], so that [p + i] is the i-th object of a range. *)
Definition pointer := nat.

(** [TimeoutClock::time_point] and [TimeoutClock::duration], in ticks of the
    steady clock. *)
Definition TimePoint := Z.
Definition Duration := Z.

(** The clock counts its ticks in a signed 64-bit integer, and so do its
    time points and durations.  The sum of two counts that does not fit
    wraps around (in C++ the overflow is undefined; two's complement is
    what the targets of the library do). *)
Definition int64_min : Z := - 2 ^ 63.
Definition int64_max : Z := 2 ^ 63 - 1.

Definition fits (z : Z) : Prop := int64_min <= z <= int64_max.

Definition int64_wrap (z : Z) : Z := (z + 2 ^ 63) mod 2 ^ 64 - 2 ^ 63.

(** [t + timeout] on a time point and a duration. *)
Definition deadline (t : TimePoint) (timeout : Duration) : TimePoint :=
  int64_wrap (t + timeout).

(** [struct DelayBufferElement { pointer p; std::size_t n; }].  The third
    field is ghost: the instant at which [deallocate(p, n)] was entered.
    No member function reads it; it is copied into the trace when the
    element is destroyed. *)
Record DelayBufferElement := mkElement {
  elem_p : pointer;
  elem_n : nat;
  elem_since : TimePoint
}.

(** [struct DelayBuffer { TimePoint timestamp; DelayBufferElement elements[]; }].
    [address] is where the byte allocator placed the buffer.  The trailing
    array has [buffer_capacity_] slots; a slot that was never written is
    [None]. *)
Record DelayBuffer := mkBuffer {
  address : nat;
  timestamp : TimePoint;
  elements : list (option DelayBufferElement)
}.

Definition set_timestamp (t : TimePoint) (b : DelayBuffer) : DelayBuffer :=
  mkBuffer (address b) t (elements b).

Definition set_elements (es : list (option DelayBufferElement)) (b : DelayBuffer)
  : DelayBuffer :=
  mkBuffer (address b) (timestamp b) es.

(** The interface this adaptor needs from the [Allocator] template
    parameter beyond its memory operations: [operator==].  Nothing is
    assumed of it: it need not be reflexive, and an allocator built from
    another (see [convert] in the copy constructor) need not compare
    equal to it, as with allocators compared by identity. *)
Class UnderlyingAllocator (Allocator : Type) := {
  alloc_eqb : Allocator -> Allocator -> bool
}.

(** The data members of [deferred_reclamation_allocator<Allocator>].
    [current_buffer_] and the members of [delay_list_] own their buffers
    exclusively, so a buffer is held by value together with its address. *)
Record deferred_reclamation_allocator (Allocator : Type) := mkAllocator {
  allocator_ : Allocator;
  timeout_ : Duration;
  now_ : TimePoint;
  buffer_allocator_ : Allocator;
  buffer_capacity_ : nat;
  current_buffer_size_ : nat;
  current_buffer_ : option DelayBuffer;
  delay_list_ : list DelayBuffer
}.

Arguments mkAllocator {Allocator}.
Arguments allocator_ {Allocator}.
Arguments timeout_ {Allocator}.
Arguments now_ {Allocator}.
Arguments buffer_allocator_ {Allocator}.
Arguments buffer_capacity_ {Allocator}.
Arguments current_buffer_size_ {Allocator}.
Arguments current_buffer_ {Allocator}.
Arguments delay_list_ {Allocator}.

Section Setters.
Context {Allocator : Type}.
Implicit Type a : deferred_reclamation_allocator Allocator.

Definition with_now_ (t : TimePoint) a :=
  mkAllocator (allocator_ a) (timeout_ a) t (buffer_allocator_ a)
    (buffer_capacity_ a) (current_buffer_size_ a) (current_buffer_ a)
    (delay_list_ a).

Definition with_current_buffer_size_ (k : nat) a :=
  mkAllocator (allocator_ a) (timeout_ a) (now_ a) (buffer_allocator_ a)
    (buffer_capacity_ a) k (current_buffer_ a) (delay_list_ a).

Definition with_current_buffer_ (b : option DelayBuffer) a :=
  mkAllocator (allocator_ a) (timeout_ a) (now_ a) (buffer_allocator_ a)
    (buffer_capacity_ a) (current_buffer_size_ a) b (delay_list_ a).

Definition with_delay_list_ (l : list DelayBuffer) a :=
  mkAllocator (allocator_ a) (timeout_ a) (now_ a) (buffer_allocator_ a)
    (buffer_capacity_ a) (current_buffer_size_ a) (current_buffer_ a) l.
End Setters.

(** ** The world *)

(** Calls that leave the adaptor, most recent first in the trace. *)
Inductive event :=
| Destroyed (obj : pointer) (since at_ : TimePoint)
    (* ~value_type() on [obj]; [since] is the ghost field of its element *)
| Deallocated (p : pointer) (n : nat)        (* allocator_.deallocate(p, n) *)
| Allocated (p : pointer) (n : nat)          (* allocator_.allocate(n) *)
| Constructed (p : pointer)                  (* allocator_.construct(p, ...) *)
| BytesAllocated (bytes : nat) (count : Z)   (* buffer_allocator_.allocate(count) *)
| BytesDeallocated (bytes : nat) (count : Z) (* buffer_allocator_.deallocate(bytes, count) *)
| BufferDestroyed (bytes : nat)              (* buffer->~DelayBuffer() *)
| SleptUntil (deadline : TimePoint).         (* std::this_thread::sleep_until *)

(** What the next call into the underlying allocator that can throw does:
    an [allocate] on the memory resource, or a [construct], which runs a
    constructor of the value type. *)
Inductive alloc_behaviour :=
| alloc_succeeds
| alloc_throws_bad_alloc
| alloc_throws_other.

(** The environment is scripted: each observation of the clock is preceded
    by the next advance of [clock_script], each [allocate] and each
    [construct] behaves as the next item of [alloc_script] (they are
    calls of one allocator, made one after the other), each run of a
    value destructor throws iff
    the next item of [dtor_script] is [true].  An exhausted script means no
    advance, success, no throw. *)
Record World := mkWorld {
  steady_clock : TimePoint;
  clock_script : list nat;
  alloc_script : list alloc_behaviour;
  dtor_script : list bool;
  next_address : nat;
  trace : list event
}.

(** What the translation unit fixes: the two [sizeof]s used by
    [buffer_new], whether [assert] is compiled out, and whether
    [value_type] is nothrow destructible (the [noexcept] condition of
    [deallocate], [purge] and the destructor). *)
Record Platform := mkPlatform {
  sizeof_DelayBuffer : Z;
  sizeof_DelayBufferElement : Z;
  NDEBUG : bool;
  nothrow_destructible : bool
}.

(** ** The monad of member functions *)

Inductive exn :=
| std_bad_alloc
| allocator_error      (* anything else thrown by the underlying allocator,
                          by [allocate] or, from the value constructor, by
                          [construct] *)
| destructor_error.    (* thrown by ~value_type() *)

Inductive failure :=
| Throw (e : exn)
| AssertionFailed
| UndefinedBehaviour
| Terminated.

Inductive outcome (R : Type) :=
| Ret (r : R)
| Fail (f : failure).

Arguments Ret {R}.
Arguments Fail {R}.

Definition M (St R : Type) : Type := St -> outcome R * St.

Definition ret {St R} (r : R) : M St R := fun s => (Ret r, s).

Definition bind {St R R'} (m : M St R) (k : R -> M St R') : M St R' :=
  fun s =>
    match m s with
    | (Ret r, s') => k r s'
    | (Fail f, s') => (Fail f, s')
    end.

Definition fail {St R} (f : failure) : M St R := fun s => (Fail f, s).

Declare Scope member_scope.
Delimit Scope member_scope with member.
Notation "'let*' x ':=' m 'in' k" := (bind m (fun x => k))
  (at level 10, x name, m at level 100, k at level 200) : member_scope.
Notation "m '>>' k" := (bind m (fun _ => k))
  (at level 100, k at level 200, right associativity) : member_scope.
Local Open Scope member_scope.

(** [try { body } catch (std::bad_alloc const&) { handler }] *)
Definition try_catch_bad_alloc {St R} (body handler : M St R) : M St R :=
  fun s =>
    match body s with
    | (Fail (Throw std_bad_alloc), s') => handler s'
    | r => r
    end.

(** A function declared [noexcept(cond)]: an exception that would leave
    it calls [std::terminate] when [cond] holds. *)
Definition noexcept {St R} (cond : bool) (body : M St R) : M St R :=
  fun s =>
    match body s with
    | (Fail (Throw e), s') =>
        if cond then (Fail Terminated, s') else (Fail (Throw e), s')
    | r => r
    end.

(** ** Collaborators: clock, sleeping, memory resource, value destructor *)

Definition emit (e : event) (w : World) : World :=
  mkWorld (steady_clock w) (clock_script w) (alloc_script w) (dtor_script w)
    (next_address w) (e :: trace w).

(** The clock moves by the next scripted advance and is then read. *)
Definition observe_clock (w : World) : TimePoint * World :=
  let t := steady_clock w + Z.of_nat (hd 0%nat (clock_script w)) in
  (t, mkWorld t (tl (clock_script w)) (alloc_script w) (dtor_script w)
        (next_address w) (trace w)).

(** [sleep_until] returns once the clock has reached [deadline]; how far
    past it is the next scripted advance. *)
Definition sleep_world (deadline : TimePoint) (w : World) : World :=
  let t := Z.max (steady_clock w) deadline
           + Z.of_nat (hd 0%nat (clock_script w)) in
  mkWorld t (tl (clock_script w)) (alloc_script w) (dtor_script w)
    (next_address w) (SleptUntil deadline :: trace w).

(** Time passing in the caller, between two calls into the allocator. *)
Definition elapse (d : nat) (w : World) : World :=
  mkWorld (steady_clock w + Z.of_nat d) (clock_script w) (alloc_script w)
    (dtor_script w) (next_address w) (trace w).

(** One [allocate] on the memory resource: the scripted behaviour, and on
    success an address never handed out before. *)
Definition resource_allocate (w : World) : outcome nat * World :=
  let w' := mkWorld (steady_clock w) (clock_script w) (tl (alloc_script w))
              (dtor_script w) in
  match hd alloc_succeeds (alloc_script w) with
  | alloc_succeeds =>
      (Ret (next_address w), w' (S (next_address w)) (trace w))
  | alloc_throws_bad_alloc =>
      (Fail (Throw std_bad_alloc), w' (next_address w) (trace w))
  | alloc_throws_other =>
      (Fail (Throw allocator_error), w' (next_address w) (trace w))
  end.

(** One run of [~value_type()]. *)
Definition run_value_dtor (obj : pointer) (since : TimePoint) (w : World)
  : outcome unit * World :=
  let w' := mkWorld (steady_clock w) (clock_script w) (alloc_script w)
              (tl (dtor_script w)) (next_address w) in
  if hd false (dtor_script w)
  then (Fail (Throw destructor_error), w' (trace w))
  else (Ret tt, w' (Destroyed obj since (steady_clock w) :: trace w)).

(** One [construct] on the underlying allocator. *)
Definition resource_construct (p : pointer) (w : World)
  : outcome unit * World :=
  let w' := mkWorld (steady_clock w) (clock_script w) (tl (alloc_script w))
              (dtor_script w) (next_address w) in
  match hd alloc_succeeds (alloc_script w) with
  | alloc_succeeds => (Ret tt, w' (Constructed p :: trace w))
  | alloc_throws_bad_alloc => (Fail (Throw std_bad_alloc), w' (trace w))
  | alloc_throws_other => (Fail (Throw allocator_error), w' (trace w))
  end.

(** [std::size_t] arithmetic. *)
Definition size_t_max : Z := 2 ^ 64.
Definition size_t_wrap (z : Z) : Z := z mod size_t_max.

(** [std::chrono::duration_cast<Duration>] of a user duration of [count]
    periods, one period being [num/den] clock ticks (in lowest terms):
    the product by [num] is formed in 64 bits, then divided by [den],
    truncating towards zero. *)
Record user_duration := mkDuration {
  count : Z;
  period_num : Z;
  period_den : Z
}.

Definition duration_cast (d : user_duration) : Duration :=
  Z.quot (int64_wrap (count d * period_num d)) (period_den d).

Inductive Flavor := opportunistic | exhaustive.

(** ** Member functions *)

Section Members.
Context {Allocator : Type}.
Variable pf : Platform.

(** The object a member function runs on ([*this]) and its world. *)
Definition Obj : Type := deferred_reclamation_allocator Allocator * World.
Definition Member (R : Type) : Type := M Obj R.

Definition this : Member (deferred_reclamation_allocator Allocator) :=
  fun s => (Ret (fst s), s).
Definition assign (f : deferred_reclamation_allocator Allocator ->
                       deferred_reclamation_allocator Allocator)
  : Member unit :=
  fun s => (Ret tt, (f (fst s), snd s)).
Definition in_world (f : World -> World) : Member unit :=
  fun s => (Ret tt, (fst s, f (snd s))).
Definition from_world {R} (f : World -> outcome R * World) : Member R :=
  fun s => let (r, w) := f (snd s) in (r, (fst s, w)).

(** [assert(c)]: compiled out under [NDEBUG], otherwise aborts when [c]
    is false. *)
Definition assert (c : bool) : Member unit :=
  if NDEBUG pf then ret tt
  else if c then ret tt else fail AssertionFailed.

Definition TimeoutClock_now : Member TimePoint :=
  from_world (fun w => let (t, w') := observe_clock w in (Ret t, w')).

Definition sleep_until (deadline : TimePoint) : Member unit :=
  in_world (sleep_world deadline).

(** Ghost: the instant a call is entered (the clock is not advanced). *)
Definition instant : Member TimePoint :=
  fun s => (Ret (steady_clock (snd s)), s).

(** [detail::destroy_n(first, n)] *)
Fixpoint destroy_n (first : pointer) (n : nat) (since : TimePoint)
  : Member unit :=
  match n with
  | O => ret tt
  | S n' =>
      from_world (run_value_dtor first since) >>
      destroy_n (S first) n' since
  end.

(** [reclaim_buffer_elements(elem, last)] over the slots of the range. *)
Fixpoint reclaim_buffer_elements (range : list (option DelayBufferElement))
  : Member unit :=
  match range with
  | [] => ret tt
  | None :: _ => fail UndefinedBehaviour (* reads an indeterminate element *)
  | Some elem :: rest =>
      destroy_n (elem_p elem) (elem_n elem) (elem_since elem) >>
      in_world (emit (Deallocated (elem_p elem) (elem_n elem))) >>
      reclaim_buffer_elements rest
  end.

(** The range [[buffer->elements, buffer->elements + k)]; it must lie
    within the array. *)
Definition elements_upto (buffer : DelayBuffer) (k : nat)
  : Member (list (option DelayBufferElement)) :=
  if (k <=? length (elements buffer))%nat
  then ret (take k (elements buffer))
  else fail UndefinedBehaviour.

Definition current_buffer_full : Member bool :=
  let* a := this in
  ret (current_buffer_size_ a =? buffer_capacity_ a)%nat.

Definition current_buffer_empty : Member bool :=
  let* a := this in
  ret (current_buffer_size_ a =? 0)%nat.

Definition was_moved_from : Member bool :=
  let* a := this in
  ret (match current_buffer_ a with None => true | Some _ => false end).

(** [*current_buffer_]: dereferencing a null pointer is undefined. *)
Definition deref_current_buffer : Member DelayBuffer :=
  let* a := this in
  match current_buffer_ a with
  | Some b => ret b
  | None => fail UndefinedBehaviour
  end.

Definition current_buffer_push_back (elem : DelayBufferElement)
  : Member unit :=
  let* full := current_buffer_full in
  assert (negb full) >>
  let* b := deref_current_buffer in
  let* a := this in
  if (current_buffer_size_ a <? length (elements b))%nat then
    assign (with_current_buffer_
              (Some (set_elements
                       (<[current_buffer_size_ a := Some elem]> (elements b))
                       b))) >>
    assign (with_current_buffer_size_ (S (current_buffer_size_ a)))
  else fail UndefinedBehaviour (* writes past the trailing array *).

Definition buffer_bytes (capacity : nat) : Z :=
  let buffer_element_bytes :=
    size_t_wrap (Z.of_nat capacity * sizeof_DelayBufferElement pf) in
  size_t_wrap (sizeof_DelayBuffer pf + buffer_element_bytes).

Definition buffer_new : Member DelayBuffer :=
  let* a := this in
  let* bytes := from_world resource_allocate in
  in_world (emit (BytesAllocated bytes (buffer_bytes (buffer_capacity_ a)))) >>
  ret (mkBuffer bytes 0 (replicate (buffer_capacity_ a) None)).

Definition buffer_delete (buffer : option DelayBuffer) : Member unit :=
  assert (match buffer with None => false | Some _ => true end) >>
  match buffer with
  | None => fail UndefinedBehaviour
  | Some b =>
      let* a := this in
      in_world (emit (BufferDestroyed (address b))) >>
      in_world (emit (BytesDeallocated (address b)
                        (Z.of_nat (buffer_capacity_ a))))
  end.

(** The loop of [purge_delay_list_and_reuse_existing_buffer]; [l] is
    [delay_list_] at the loop head. *)
Fixpoint reuse_loop (l : list DelayBuffer) (reuse : option DelayBuffer)
  : Member (option DelayBuffer) :=
  match l with
  | [] => ret reuse
  | oldest :: rest =>
      let* a := this in
      if now_ a <=? deadline (timestamp oldest) (timeout_ a) then ret reuse
      else
        let* range := elements_upto oldest (buffer_capacity_ a) in
        reclaim_buffer_elements range >>
        assign (with_delay_list_ rest) >>
        match reuse with
        | None => reuse_loop rest (Some oldest)
        | Some _ => buffer_delete (Some oldest) >> reuse_loop rest reuse
        end
  end.

Definition purge_delay_list_and_reuse_existing_buffer
  : Member (option DelayBuffer) :=
  let* a := this in
  reuse_loop (delay_list_ a) None.

Definition reclaim_full_buffer (buffer : DelayBuffer) : Member unit :=
  let* a := this in
  let* range := elements_upto buffer (buffer_capacity_ a) in
  reclaim_buffer_elements range >>
  buffer_delete (Some buffer).

(** The loop of [purge]; [l] is [delay_list_] at the loop head, and
    [pop_front_and_dispose] unlinks the head before it runs the
    disposer. *)
Fixpoint purge_loop (flavor : Flavor) (l : list DelayBuffer) : Member unit :=
  match l with
  | [] => ret tt
  | oldest :: rest =>
      let* a := this in
      let ready_to_delete := deadline (timestamp oldest) (timeout_ a) in
      if now_ a >? ready_to_delete then
        assign (with_delay_list_ rest) >>
        reclaim_full_buffer oldest >>
        purge_loop flavor rest
      else
        match flavor with
        | opportunistic => ret tt
        | exhaustive =>
            sleep_until ready_to_delete >>
            assign (with_delay_list_ rest) >>
            reclaim_full_buffer oldest >>
            assign (with_now_ ready_to_delete) >>
            purge_loop flavor rest
        end
  end.

Definition purge (flavor : Flavor) : Member unit :=
  noexcept (nothrow_destructible pf)
    (let* moved := was_moved_from in
     assert (negb moved) >>
     let* t := TimeoutClock_now in
     assign (with_now_ t) >>
     let* a := this in
     purge_loop flavor (delay_list_ a)).

Definition allocate (n : nat) : Member pointer :=
  let* moved := was_moved_from in
  assert (negb moved) >>
  let* p := from_world resource_allocate in
  in_world (emit (Allocated p n)) >>
  ret p.

Definition construct (p : pointer) : Member unit :=
  let* moved := was_moved_from in
  assert (negb moved) >>
  from_world (resource_construct p).

Definition destroy (p : pointer) : Member unit :=
  let* moved := was_moved_from in
  assert (negb moved).

(** The [catch (std::bad_alloc const&)] block of [deallocate]. *)
Definition deallocate_recover : Member unit :=
  let* a := this in
  assert (match delay_list_ a with [] => false | _ => true end) >>
  match delay_list_ a with
  | [] => fail UndefinedBehaviour (* front() of an empty list *)
  | oldest :: _ =>
      sleep_until (deadline (timestamp oldest) (timeout_ a)) >>
      let* t := TimeoutClock_now in
      assign (with_now_ t) >>
      let* reuse := purge_delay_list_and_reuse_existing_buffer in
      assign (with_current_buffer_ reuse)
  end.

Definition deallocate (p : pointer) (n : nat) : Member unit :=
  noexcept (nothrow_destructible pf)
    (let* moved := was_moved_from in
     assert (negb moved) >>
     let* full := current_buffer_full in
     assert (negb full) >>
     let* since := instant in
     current_buffer_push_back (mkElement p n since) >>
     let* full := current_buffer_full in
     if full then
       (* 1. Timestamp and offload the current buffer. *)
       let* t := TimeoutClock_now in
       let* b := deref_current_buffer in
       assign (with_current_buffer_ (Some (set_timestamp t b))) >>
       assign (with_now_ t) >>
       let* sealed := deref_current_buffer in
       assign (with_current_buffer_ None) >>
       let* a := this in
       assign (with_delay_list_ (delay_list_ a ++ [sealed])) >>
       (* 2. Try to reuse an existing buffer by purging the delay list. *)
       let* reuse := purge_delay_list_and_reuse_existing_buffer in
       assign (with_current_buffer_ reuse) >>
       (* 3. Otherwise allocate a new one and handle error conditions. *)
       (match reuse with
        | Some _ => ret tt
        | None =>
            try_catch_bad_alloc
              (let* fresh := buffer_new in
               assign (with_current_buffer_ (Some fresh)))
              deallocate_recover
        end) >>
       let* moved := was_moved_from in
       assert (negb moved) >>
       assign (with_current_buffer_size_ 0)
     else ret tt).

(** [~deferred_reclamation_allocator()] *)
Definition destructor : Member unit :=
  noexcept (nothrow_destructible pf)
    (let* moved := was_moved_from in
     if moved then ret tt
     else
       let* now := TimeoutClock_now in
       let* b := deref_current_buffer in
       assign (with_current_buffer_ (Some (set_timestamp now b))) >>
       purge exhaustive >>
       let* a := this in
       assert (match delay_list_ a with [] => true | _ => false end) >>
       let* empty := current_buffer_empty in
       (if negb empty then
          let* b := deref_current_buffer in
          let* a := this in
          let ready_to_delete := deadline (timestamp b) (timeout_ a) in
          (if now <=? ready_to_delete then sleep_until ready_to_delete
           else ret tt) >>
          let* range := elements_upto b (current_buffer_size_ a) in
          reclaim_buffer_elements range
        else ret tt) >>
       let* a := this in
       buffer_delete (current_buffer_ a)).

(** ** Constructors

    A constructor runs its member initialisers, then its body on the
    new object; [current_buffer_] has no initialiser and is assigned in
    the body.  An exception leaving the body leaves no object. *)
Definition construct_object {R}
    (init : deferred_reclamation_allocator Allocator) (body : Member R)
  : M World (deferred_reclamation_allocator Allocator) :=
  fun w =>
    match body (init, w) with
    | (Ret _, (a, w')) => (Ret a, w')
    | (Fail f, (_, w')) => (Fail f, w')
    end.

Definition constructor_body : Member unit :=
  let* fresh := buffer_new in
  assign (with_current_buffer_ (Some fresh)).

(** [deferred_reclamation_allocator(allocator, timeout, delay_buffer_size)].
    The members [allocator_] and [buffer_allocator_] are built from the
    argument and recorded as that argument; how they compare to it under
    [operator==] is not modelled, and no statement below relies on it. *)
Definition constructor (allocator : Allocator) (timeout : user_duration)
    (delay_buffer_size : nat)
  : M World (deferred_reclamation_allocator Allocator) :=
  fun w =>
    let (t, w1) := observe_clock w in
    construct_object
      (mkAllocator allocator (duration_cast timeout) t allocator
         delay_buffer_size 0%nat None [])
      (assert (1 <=? delay_buffer_size)%nat >> constructor_body) w1.

(** The converting copy constructor, from an allocator over
    [OtherAllocator]; [convert] is [Allocator]'s constructor from
    [OtherAllocator const&].  [other] is only read. *)
Definition copy_constructor {OtherAllocator : Type}
    (convert : OtherAllocator -> Allocator)
    (other : deferred_reclamation_allocator OtherAllocator)
  : M World (deferred_reclamation_allocator Allocator) :=
  fun w =>
    let (t, w1) := observe_clock w in
    construct_object
      (mkAllocator (convert (allocator_ other)) (timeout_ other) t
         (convert (buffer_allocator_ other)) (buffer_capacity_ other)
         0%nat None [])
      constructor_body w1.

(** The move constructor: the new object, and what is left of [other]
    ([std::exchange(other.current_buffer_, nullptr)], moved-from list).
    The underlying allocators are recorded as those they are moved from;
    how they compare to them under [operator==] is not modelled. *)
Definition move_constructor
    (other : deferred_reclamation_allocator Allocator)
  : M World (deferred_reclamation_allocator Allocator *
             deferred_reclamation_allocator Allocator) :=
  fun w =>
    let (t, w1) := observe_clock w in
    (Ret (mkAllocator (allocator_ other) (timeout_ other) t
            (buffer_allocator_ other) (buffer_capacity_ other)
            (current_buffer_size_ other) (current_buffer_ other)
            (delay_list_ other),
          with_delay_list_ [] (with_current_buffer_ None other)),
     w1).

(** [operator==] and [operator!=] *)
Definition op_eq `{UnderlyingAllocator Allocator}
    (a b : deferred_reclamation_allocator Allocator) : bool :=
  (timeout_ a =? timeout_ b) && alloc_eqb (allocator_ a) (allocator_ b).

Definition op_ne `{UnderlyingAllocator Allocator}
    (a b : deferred_reclamation_allocator Allocator) : bool :=
  negb (op_eq a b).
End Members.

Arguments Obj : clear implicits.
Arguments Member : clear implicits.

(** ** Reading the trace *)

(** The calls of one kind, oldest first. *)
Definition calls {X} (sel : event -> option X) (tr : list event) : list X :=
  omap sel (rev tr).

Definition freed_buffer (e : event) : option nat :=
  match e with BytesDeallocated bytes _ => Some bytes | _ => None end.

Definition slept (e : event) : option TimePoint :=
  match e with SleptUntil deadline => Some deadline | _ => None end.

Definition destroyed (e : event) : option pointer :=
  match e with Destroyed obj _ _ => Some obj | _ => None end.

Definition returned (e : event) : option (pointer * nat) :=
  match e with Deallocated p n => Some (p, n) | _ => None end.

(** The buffers an allocator object owns. *)
Definition owned_buffers {Allocator} (a : deferred_reclamation_allocator Allocator)
  : list DelayBuffer :=
  match current_buffer_ a with
  | Some b => b :: delay_list_ a
  | None => delay_list_ a
  end.

(** ** Weakest preconditions

    [wp m Q E s]: run from [s], the member function [m] either returns
    [r] in a state satisfying [Q r] or fails in a state satisfying [E]. *)

Definition wp {St R} (m : M St R) (Q : R -> St -> Prop) (E : St -> Prop)
    (s : St) : Prop :=
  match m s with
  | (Ret r, s') => Q r s'
  | (Fail _, s') => E s'
  end.

(** ** Calls made by the owner of an allocator object *)

Inductive call :=
| call_allocate (n : nat)
| call_construct (p : pointer)
| call_destroy (p : pointer)
| call_deallocate (p : pointer) (n : nat)
| call_purge (flavor : Flavor)
| call_move          (* the pipeline moves to a move-constructed object *)
| call_elapse (d : nat).   (* the caller lets time pass *)

Section Calls.
Context {Allocator : Type}.
Variable pf : Platform.

Definition perform (c : call) : Member Allocator unit :=
  match c with
  | call_allocate n => allocate pf n >> ret tt
  | call_construct p => construct pf p
  | call_destroy p => destroy pf p
  | call_deallocate p n => deallocate pf p n
  | call_purge flavor => purge pf flavor
  | call_move =>
      fun s =>
        match move_constructor (fst s) (snd s) with
        | (Ret (moved_to, _), w) => (Ret tt, (moved_to, w))
        | (Fail f, w) => (Fail f, (fst s, w))
        end
  | call_elapse d => in_world (elapse d)
  end.

(** The calls in order, up to the first one that does not return. *)
Fixpoint perform_all (cs : list call) : Member Allocator unit :=
  match cs with
  | [] => ret tt
  | c :: cs' => perform c >> perform_all cs'
  end.

(** A whole life of one allocator object: construction, calls, and the
    destructor when [destroyed] is set.  The result is the final world. *)
Definition lifetime (allocator : Allocator) (timeout : user_duration)
    (delay_buffer_size : nat) (cs : list call) (destroyed : bool)
  : M World unit :=
  fun w =>
    match constructor pf allocator timeout delay_buffer_size w with
    | (Ret a, w1) =>
        let (r, s) :=
          (perform_all cs >> if destroyed then destructor pf else ret tt)
            (a, w1) in
        (r, snd s)
    | (Fail f, w1) => (Fail f, w1)
    end.
End Calls.

(** ** Minimum live time *)






(** A step that leaves the object and the clock alone. *)
Definition same_object_and_clock {Allocator} (s s' : Obj Allocator) : Prop :=
  fst s' = fst s /\ steady_clock (snd s') = steady_clock (snd s).




(** What [purge] leaves alone. *)
Definition same_current_buffer {Allocator} (s s' : Obj Allocator) : Prop :=
  current_buffer_ (fst s') = current_buffer_ (fst s) /\
  current_buffer_size_ (fst s') = current_buffer_size_ (fst s).

(** A call that never waits for a deadline. *)
Definition never_waits (c : call) : Prop := c <> call_purge exhaustive.

(** ** What [purge] may touch *)

(** [e] is a call made while reclaiming an element held by one of the
    buffers of [l]: the destructor of one of its objects, or the
    deallocation of its range, or the release of the buffer itself. *)
Definition reclaims_from (l : list DelayBuffer) (e : event) : Prop :=
  match e with
  | Destroyed obj since _ =>
      exists b elem, In b l /\ In (Some elem) (elements b) /\
        (elem_p elem <= obj < elem_p elem + elem_n elem)%nat /\
        since = elem_since elem
  | Deallocated p n =>
      exists b elem, In b l /\ In (Some elem) (elements b) /\
        p = elem_p elem /\ n = elem_n elem
  | BufferDestroyed bytes | BytesDeallocated bytes _ =>
      exists b, In b l /\ bytes = address b
  | SleptUntil _ => True
  | _ => False
  end.

(** From [s] to [s'] the current buffer and its fill level are the same,
    and the calls made in between all reclaim from [l]. *)
Definition purged_only {Allocator} (l : list DelayBuffer)
    (s s' : Obj Allocator) : Prop :=
  same_current_buffer s s' /\
  buffer_capacity_ (fst s') = buffer_capacity_ (fst s) /\
  exists new, trace (snd s') = new ++ trace (snd s) /\
              Forall (reclaims_from l) new.

(** ** The state invariant of the pipeline *)

(** A sealed buffer is full: each of its [capacity] slots holds an
    element. *)
Definition full (capacity : nat) (b : DelayBuffer) : Prop :=
  length (elements b) = capacity /\ Forall is_Some (elements b).

Definition pipeline_invariant {Allocator}
    (a : deferred_reclamation_allocator Allocator) : Prop :=
  current_buffer_ a <> None /\
  (current_buffer_size_ a < buffer_capacity_ a)%nat /\
  Forall (full (buffer_capacity_ a)) (delay_list_ a) /\
  StronglySorted Z.le (map timestamp (delay_list_ a)).

(** ** Concrete platforms, worlds and allocators used in examples *)

(** 16-byte buffer header and element, as on a 64-bit target. *)
Definition debug_build : Platform := mkPlatform 16 16 false true.
Definition release_build : Platform := mkPlatform 16 16 true true.

(** A duration given in clock ticks. *)
Definition ticks (c : Z) : user_duration := mkDuration c 1 1.

(** A world at time [t] whose environment never interferes. *)
Definition calm (t : TimePoint) : World := mkWorld t [] [] [] 1%nat [].

(** Underlying allocators named by a number, equal when the numbers are. *)
#[export] Instance numbered_allocator : UnderlyingAllocator nat :=
  {| alloc_eqb := Nat.eqb |}.



(** ** Accounting for the calls of a run *)

Definition grabbed_buffer (e : event) : option nat :=
  match e with BytesAllocated bytes _ => Some bytes | _ => None end.

(** What a stretch of trace amounts to: the buffers handed back to the
    byte allocator, the deadlines slept until, the ranges returned to
    the underlying allocator, the objects destroyed, and the buffers
    obtained from the byte allocator, each oldest first. *)
Record summary := mkSummary {
  freed : list nat;
  naps : list TimePoint;
  gone : list (pointer * nat);
  razed : list pointer;
  grabbed : list nat
}.

Definition summarize (new : list event) : summary :=
  mkSummary (calls freed_buffer new) (calls slept new) (calls returned new)
    (calls destroyed new) (calls grabbed_buffer new).

Definition nothing : summary := mkSummary [] [] [] [] [].

Definition and_then (x y : summary) : summary :=
  mkSummary (freed x ++ freed y) (naps x ++ naps y) (gone x ++ gone y)
    (razed x ++ razed y) (grabbed x ++ grabbed y).

(** The environment of a world: no value destructor will throw; no call
    into the underlying allocator ([allocate], or [construct] and with
    it the value constructor) will throw. *)
Definition quiet (w : World) : Prop := Forall (fun b => b = false) (dtor_script w).
Definition plentiful (w : World) : Prop :=
  Forall (fun b => b = alloc_succeeds) (alloc_script w).

(** From [w] to [w'] time has not gone back and the environment has not
    become worse. *)
Definition onward (w w' : World) : Prop :=
  steady_clock w <= steady_clock w' /\
  (quiet w -> quiet w') /\
  (plentiful w -> plentiful w').

(** From [s] to [s'] the calls made amount to [sigma]. *)
Definition did {Allocator} (sigma : summary) (s s' : Obj Allocator) : Prop :=
  onward (snd s) (snd s') /\
  exists new, trace (snd s') = new ++ trace (snd s) /\ summarize new = sigma.

(** A proof is run in one of two modes.  In the calm mode the destructors
    never throw and a member function must return; otherwise it may fail,
    and nothing is said of the failure. *)
Definition may_fail {Allocator} (calm : bool) : Obj Allocator -> Prop :=
  fun _ => calm = false.

(** ** The elements a pipeline holds *)

(** The ranges recorded in a run of slots, and their objects. *)
Definition ranges (slots : list (option DelayBufferElement))
  : list (pointer * nat) :=
  omap (fun slot => match slot with
                    | Some e => Some (elem_p e, elem_n e)
                    | None => None
                    end) slots.

Definition objects (slots : list (option DelayBufferElement)) : list pointer :=
  flat_map (fun slot => match slot with
                        | Some e => seq (elem_p e) (elem_n e)
                        | None => []
                        end) slots.

(** The ranges and the objects held by a list of full buffers. *)
Definition ranges_of (l : list DelayBuffer) : list (pointer * nat) :=
  flat_map (fun b => ranges (elements b)) l.

Definition objects_of (l : list DelayBuffer) : list pointer :=
  flat_map (fun b => objects (elements b)) l.

(** The ranges awaiting reclamation, oldest first: those of the sealed
    buffers, then the live prefix of the current buffer. *)
Definition pending {Allocator} (a : deferred_reclamation_allocator Allocator)
  : list (pointer * nat) :=
  ranges_of (delay_list_ a)
  ++ match current_buffer_ a with
     | Some b => ranges (take (current_buffer_size_ a) (elements b))
     | None => []
     end.

(** Everything ever deallocated through the object: what has been
    returned to the underlying allocator, then what is pending. *)
Definition ledger {Allocator} (s : Obj Allocator) : list (pointer * nat) :=
  calls returned (trace (snd s)) ++ pending (fst s).

(** The ranges handed to [deallocate] by a sequence of calls. *)
Fixpoint deallocations (cs : list call) : list (pointer * nat) :=
  match cs with
  | [] => []
  | call_deallocate p n :: cs' => (p, n) :: deallocations cs'
  | _ :: cs' => deallocations cs'
  end.

(** ** The purge test *)

(** The head [b] may be reclaimed at the cached time [now]. *)
Definition ripe (now : TimePoint) (timeout : Duration) (b : DelayBuffer)
  : bool :=
  now >? deadline (timestamp b) timeout.

Fixpoint ripe_prefix (now : TimePoint) (timeout : Duration)
    (l : list DelayBuffer) : list DelayBuffer :=
  match l with
  | b :: rest =>
      if ripe now timeout b then b :: ripe_prefix now timeout rest else []
  | [] => []
  end.

Fixpoint unripe_suffix (now : TimePoint) (timeout : Duration)
    (l : list DelayBuffer) : list DelayBuffer :=
  match l with
  | b :: rest =>
      if ripe now timeout b then unripe_suffix now timeout rest else l
  | [] => []
  end.

(** The deadlines an exhaustive purge sleeps until, and the cached time
    it ends with, when it starts on the list [l] with the cached time
    [now]: a head that is not ripe is waited for and its deadline
    becomes the cached time. *)
Fixpoint waits (now : TimePoint) (timeout : Duration) (l : list DelayBuffer)
  : list TimePoint :=
  match l with
  | [] => []
  | b :: rest =>
      if ripe now timeout b then waits now timeout rest
      else deadline (timestamp b) timeout
             :: waits (deadline (timestamp b) timeout) timeout rest
  end.

Fixpoint now_after_waits (now : TimePoint) (timeout : Duration)
    (l : list DelayBuffer) : TimePoint :=
  match l with
  | [] => now
  | b :: rest =>
      if ripe now timeout b then now_after_waits now timeout rest
      else now_after_waits (deadline (timestamp b) timeout) timeout rest
  end.

(** ** Well-formed pipelines *)

(** The structure every member function relies on: a current buffer of
    [buffer_capacity_] slots whose first [current_buffer_size_] slots are
    written, with room for one more element; full sealed buffers, in
    order of their timestamps, none stamped in the future. *)
Definition well_formed {Allocator} (s : Obj Allocator) : Prop :=
  (exists cb, current_buffer_ (fst s) = Some cb /\
              length (elements cb) = buffer_capacity_ (fst s) /\
              Forall is_Some (take (current_buffer_size_ (fst s)) (elements cb))) /\
  (current_buffer_size_ (fst s) < buffer_capacity_ (fst s))%nat /\
  Forall (full (buffer_capacity_ (fst s))) (delay_list_ (fst s)) /\
  StronglySorted Z.le (map timestamp (delay_list_ (fst s))) /\
  Forall (fun b => timestamp b <= steady_clock (snd s)) (delay_list_ (fst s)).

(** The mode of a proof and the environment agree. *)
Definition env_ok {Allocator} (calm : bool) (pf : Platform)
    (s : Obj Allocator) : Prop :=
  if calm then quiet (snd s) /\ plentiful (snd s) else NDEBUG pf = false.

(** The calls [sigma] made from [s] to [s'] account for the pipeline.
    With [extra] the ranges newly handed to [deallocate]: what was
    pending, then [extra], is what has been returned, then what is
    pending now.  The buffers obtained and those owned before are the
    buffers freed and those owned now. *)
Definition balanced {Allocator} (extra : list (pointer * nat))
    (sigma : summary) (s s' : Obj Allocator) : Prop :=
  gone sigma ++ pending (fst s') = pending (fst s) ++ extra /\
  Permutation (grabbed sigma ++ map address (owned_buffers (fst s)))
    (freed sigma ++ map address (owned_buffers (fst s'))).

(** The settings of an allocator, fixed at construction. *)
Definition same_settings {Allocator}
    (a a' : deferred_reclamation_allocator Allocator) : Prop :=
  timeout_ a' = timeout_ a /\ buffer_capacity_ a' = buffer_capacity_ a.

(** What a call that returns leaves behind, started in a well-formed
    state: a well-formed state with the same settings, an environment
    that still fits the mode, and calls that account for the pipeline
    and satisfy [P]. *)
Definition kept_up {Allocator} (calm : bool) (pf : Platform)
    (extra : list (pointer * nat)) (P : summary -> Prop)
    (s s' : Obj Allocator) : Prop :=
  well_formed s' /\ env_ok calm pf s' /\ same_settings (fst s) (fst s') /\
  exists sigma, did sigma s s' /\ balanced extra sigma s s' /\ P sigma.

(** ** Weakest preconditions that tell failures apart

    [wpf m Q E s]: as [wp], with the failure handed to [E]. *)
Definition wpf {St R} (m : M St R) (Q : R -> St -> Prop)
    (E : failure -> St -> Prop) (s : St) : Prop :=
  match m s with
  | (Ret r, s') => Q r s'
  | (Fail f, s') => E f s'
  end.

(** What a failure of its body becomes when it leaves a function
    declared [noexcept(cond)]. *)
Definition escaped (cond : bool) (f : failure) : failure :=
  match f with
  | Throw e => if cond then Terminated else Throw e
  | _ => f
  end.

(** ** The moment a [deallocate] fills the current buffer *)

(** The time the next reading of the clock gives. *)
Definition next_reading (w : World) : TimePoint := fst (observe_clock w).

(** The deadline of the oldest sealed buffer once the current buffer has
    been sealed at [t], as an exact sum: that of the head of the delay
    list, or of the buffer just sealed when the list was empty. *)
Definition first_deadline {Allocator}
    (a : deferred_reclamation_allocator Allocator) (t : TimePoint) : TimePoint :=
  match delay_list_ a with
  | oldest :: _ => timestamp oldest + timeout_ a
  | [] => t + timeout_ a
  end.

(** An allocator of capacity 1 with one sealed buffer, stamped 100, and
    an empty current buffer. *)
Definition example_allocator : deferred_reclamation_allocator nat :=
  mkAllocator 7%nat 5 100 7%nat 1%nat 0%nat (Some (mkBuffer 2 0 [None]))
    [mkBuffer 1 100 [Some (mkElement 40%nat 1%nat 100)]].

(** A world at time 103 with the given clock advances and allocation
    behaviours, in which no destructor throws. *)
Definition example_world (advances : list nat) (allocs : list alloc_behaviour)
  : World :=
  mkWorld 103 advances allocs [] 3%nat [].

(** A world at time 100 in which the first two allocations succeed and
    the third throws [std::bad_alloc], and in which the clock never
    moves of itself: after [sleep_until] it reads exactly the deadline. *)
Definition third_allocation_fails : World :=
  mkWorld 100 [] [alloc_succeeds; alloc_succeeds; alloc_throws_bad_alloc] []
    1%nat [].

(** The calls that are member functions of the allocator. *)
Definition member_call (c : call) : Prop :=
  match c with
  | call_move | call_elapse _ => False
  | _ => True
  end.


(** ** Destructor runs and returned ranges *)

(** The objects of a range. *)
Definition range_objects (r : pointer * nat) : list pointer :=
  seq (fst r) (snd r).

(** From [w] to [w'] the value destructors run are those of the objects
    of the ranges returned to the underlying allocator, range by range
    and in the same order. *)
Definition in_step (w w' : World) : Prop :=
  exists rs,
    calls destroyed (trace w') = calls destroyed (trace w)
                                 ++ flat_map range_objects rs /\
    calls returned (trace w') = calls returned (trace w) ++ rs.

(** That allocator in a world where the next allocation fails and the
    clock moves only after the next sleep. *)
Definition example_pipeline : Obj nat :=
  (example_allocator, example_world [0; 0; 1]%nat [alloc_throws_bad_alloc]).

(** * Proof rules *)

Section WpRules.
Context {St : Type}.
Implicit Type s : St.
Implicit Type E : St -> Prop.

Lemma wp_bind {R R'} (m : M St R) (k : R -> M St R') Q E s :
  wp (bind m k) Q E s = wp m (fun r s' => wp (k r) Q E s') E s.
Proof. unfold wp, bind. destruct (m s) as [[r|f] s']; reflexivity. Qed.

Lemma wp_ret {R} (r : R) Q E s : wp (ret r) Q E s = Q r s.
Proof. reflexivity. Qed.

Lemma wp_fail {R} f (Q : R -> St -> Prop) E s : wp (fail f) Q E s = E s.
Proof. reflexivity. Qed.

Lemma wp_noexcept {R} c (m : M St R) Q E s :
  wp (noexcept c m) Q E s = wp m Q E s.
Proof.
  unfold wp, noexcept.
  destruct (m s) as [[r|[e| | |]] s']; destruct c; reflexivity.
Qed.

Lemma wp_mono {R} (m : M St R) (Q Q' : R -> St -> Prop) E E' s :
  wp m Q' E' s ->
  (forall r s', Q' r s' -> Q r s') ->
  (forall s', E' s' -> E s') ->
  wp m Q E s.
Proof.
  unfold wp. destruct (m s) as [[r|f] s']; auto.
Qed.

Lemma wp_try_catch {R} (body handler : M St R) Q E s :
  wp body Q (fun s' => E s' /\ wp handler Q E s') s ->
  wp (try_catch_bad_alloc body handler) Q E s.
Proof.
  unfold wp at 1. unfold try_catch_bad_alloc.
  destruct (body s) as [[r|f] s'] eqn:Hb.
  - unfold wp. rewrite Hb. auto.
  - intros [HE Hh]. destruct f as [[]| | |]; unfold wp; try rewrite Hb; auto.
Qed.


End WpRules.

Section WpMembers.
Context {Allocator : Type}.
Variable pf : Platform.
Implicit Type s : Obj Allocator.
Implicit Type E : Obj Allocator -> Prop.

Lemma wp_this Q E s : wp this Q E s = Q (fst s) s.
Proof. reflexivity. Qed.

Lemma wp_assign f (Q : unit -> Obj Allocator -> Prop) E s :
  wp (assign f) Q E s = Q tt (f (fst s), snd s).
Proof. reflexivity. Qed.

Lemma wp_in_world f (Q : unit -> Obj Allocator -> Prop) E s :
  wp (in_world f) Q E s = Q tt (fst s, f (snd s)).
Proof. reflexivity. Qed.

Lemma wp_instant (Q : TimePoint -> Obj Allocator -> Prop) E s :
  wp instant Q E s = Q (steady_clock (snd s)) s.
Proof. reflexivity. Qed.

Lemma wp_sleep_until d (Q : unit -> Obj Allocator -> Prop) E s :
  wp (sleep_until d) Q E s = Q tt (fst s, sleep_world d (snd s)).
Proof. reflexivity. Qed.

Lemma wp_now (Q : TimePoint -> Obj Allocator -> Prop) E s :
  wp TimeoutClock_now Q E s
  = Q (fst (observe_clock (snd s))) (fst s, snd (observe_clock (snd s))).
Proof. reflexivity. Qed.

Lemma wp_assert c (Q : unit -> Obj Allocator -> Prop) E s :
  wp (assert pf c) Q E s
  = if NDEBUG pf then Q tt s else if c then Q tt s else E s.
Proof. unfold assert. destruct (NDEBUG pf), c; reflexivity. Qed.

Lemma wp_current_buffer_full (Q : bool -> Obj Allocator -> Prop) E s :
  wp current_buffer_full Q E s
  = Q (current_buffer_size_ (fst s) =? buffer_capacity_ (fst s))%nat s.
Proof. reflexivity. Qed.

Lemma wp_current_buffer_empty (Q : bool -> Obj Allocator -> Prop) E s :
  wp current_buffer_empty Q E s = Q (current_buffer_size_ (fst s) =? 0)%nat s.
Proof. reflexivity. Qed.

Lemma wp_was_moved_from (Q : bool -> Obj Allocator -> Prop) E s :
  wp was_moved_from Q E s
  = Q (match current_buffer_ (fst s) with None => true | Some _ => false end) s.
Proof. reflexivity. Qed.

Lemma wp_deref_current_buffer (Q : DelayBuffer -> Obj Allocator -> Prop) E s :
  wp deref_current_buffer Q E s
  = match current_buffer_ (fst s) with Some b => Q b s | None => E s end.
Proof.
  unfold deref_current_buffer. rewrite wp_bind, wp_this.
  destruct (current_buffer_ (fst s)); reflexivity.
Qed.

Lemma wp_elements_upto b k (Q : _ -> Obj Allocator -> Prop) E s :
  wp (elements_upto b k) Q E s
  = if (k <=? length (elements b))%nat then Q (take k (elements b)) s
    else E s.
Proof. unfold elements_upto. destruct (_ <=? _)%nat; reflexivity. Qed.
End WpMembers.

Create Rewrite HintDb wp.
#[local] Hint Rewrite @wp_bind @wp_ret @wp_fail @wp_noexcept
  @wp_this @wp_assign @wp_in_world @wp_instant @wp_sleep_until @wp_now
  @wp_assert @wp_current_buffer_full @wp_current_buffer_empty
  @wp_was_moved_from @wp_deref_current_buffer @wp_elements_upto : wp.

Ltac fields :=
  cbn [fst snd allocator_ timeout_ now_ buffer_allocator_ buffer_capacity_
       current_buffer_size_ current_buffer_ delay_list_
       with_now_ with_current_buffer_size_ with_current_buffer_
       with_delay_list_ address timestamp elements set_timestamp
       set_elements steady_clock clock_script alloc_script dtor_script
       next_address trace emit observe_clock sleep_world elapse] in *.

Ltac wp_simpl :=
  repeat (autorewrite with wp; fields;
          repeat match goal with
                 | H : NDEBUG _ = _ |- context [NDEBUG _] => rewrite H
                 end).

Lemma calls_cons {X} (sel : event -> option X) e tr :
  calls sel (e :: tr)
  = calls sel tr ++ match sel e with Some x => [x] | None => [] end.
Proof.
  unfold calls. cbn [rev]. rewrite omap_app. cbn. destruct (sel e); reflexivity.
Qed.

Lemma calls_app {X} (sel : event -> option X) new tr :
  calls sel (new ++ tr) = calls sel tr ++ calls sel new.
Proof. unfold calls. rewrite rev_app_distr. apply omap_app. Qed.

Lemma wp_total {St R} (m : M St R) (Q : R -> St -> Prop) s :
  wp m Q (fun _ => False) s -> exists r s', m s = (Ret r, s') /\ Q r s'.
Proof.
  unfold wp. destruct (m s) as [[r|f] s']; [eauto | tauto].
Qed.

Section EmptyAllocator.
Context {Allocator : Type}.
Variable pf : Platform.
Implicit Type a : deferred_reclamation_allocator Allocator.

(** [purge_loop] on an empty list does nothing. *)
Lemma wp_purge_empty flavor (Q : unit -> Obj Allocator -> Prop) E a w :
  delay_list_ a = [] ->
  current_buffer_ a <> None ->
  Q tt (with_now_ (fst (observe_clock w)) a, snd (observe_clock w)) ->
  wp (purge pf flavor) Q E (a, w).
Proof.
  intros Hl Hc HQ. unfold purge. destruct (NDEBUG pf) eqn:Hnd; wp_simpl.
  all: destruct (current_buffer_ a) as [cb|] eqn:Hcb; [|congruence].
  all: cbn; wp_simpl; rewrite Hl; exact HQ.
Qed.

Lemma destructor_empty a w cb :
  current_buffer_ a = Some cb ->
  delay_list_ a = [] ->
  current_buffer_size_ a = 0%nat ->
  wp (destructor pf)
    (fun _ s' =>
       trace (snd s')
       = [BytesDeallocated (address cb) (Z.of_nat (buffer_capacity_ a));
          BufferDestroyed (address cb)] ++ trace w)
    (fun _ => False) (a, w).
Proof.
  intros Hcb Hl Hsz. unfold destructor.
  destruct (NDEBUG pf) eqn:Hnd; wp_simpl; rewrite Hcb; wp_simpl.
  all: rewrite Hcb; wp_simpl.
  all: apply wp_purge_empty; [exact Hl | discriminate |].
  all: wp_simpl; rewrite ?Hl, ?Hsz; cbn; unfold buffer_delete.
  all: wp_simpl; reflexivity.
Qed.
End EmptyAllocator.

(** * Minimum live time: the invariant [timely] *)

Section Timely.
Context {Allocator : Type}.
Variable pf : Platform.
Variable base : list event.
Variable strict : bool.
Variable timeout : Duration.
Implicit Type a : deferred_reclamation_allocator Allocator.
Implicit Type s : Obj Allocator.










End Timely.

Section TimelyMembers.
Context {Allocator : Type}.
Variable pf : Platform.
Variable base : list event.
Variable strict : bool.
Variable timeout : Duration.
Implicit Type a : deferred_reclamation_allocator Allocator.
Implicit Type s : Obj Allocator.












End TimelyMembers.

Section TimelyDeallocate.
Context {Allocator : Type}.
Variable pf : Platform.
Variable base : list event.
Variable strict : bool.
Variable timeout : Duration.
Implicit Type a : deferred_reclamation_allocator Allocator.
Implicit Type s : Obj Allocator.



End TimelyDeallocate.


Section TimelyPublic.
Context {Allocator : Type}.
Variable pf : Platform.
Variable base : list event.
Variable strict : bool.
Variable timeout : Duration.
Implicit Type a : deferred_reclamation_allocator Allocator.
Implicit Type s : Obj Allocator.









End TimelyPublic.

Section TimelyLifetime.
Context {Allocator : Type}.
Variable pf : Platform.
Variable base : list event.
Variable timeout : Duration.
Implicit Type a : deferred_reclamation_allocator Allocator.
Implicit Type s : Obj Allocator.

End TimelyLifetime.

Section TimelyCalls.
Context {Allocator : Type}.
Variable pf : Platform.
Variable base : list event.
Variable strict : bool.
Variable timeout : Duration.
Implicit Type a : deferred_reclamation_allocator Allocator.
Implicit Type s : Obj Allocator.








End TimelyCalls.



Section MinimumLiveTime.
Context {Allocator : Type}.
Variable pf : Platform.




End MinimumLiveTime.

(** A sum that fits is the sum the code computes. *)
Lemma int64_wrap_fits z : fits z -> int64_wrap z = z.
Proof.
  unfold fits, int64_min, int64_max, int64_wrap. intros H.
  rewrite Z.mod_small; lia.
Qed.

Lemma deadline_fits t timeout :
  fits (t + timeout) -> deadline t timeout = t + timeout.
Proof. apply int64_wrap_fits. Qed.

(** Decides that a number fits, and that the deadlines of a list do. *)
Ltac fits_now := vm_compute; split; discriminate.
Ltac fits_all := repeat (constructor; [fits_now|]); try constructor.




(** * [purge] reclaims from the delay list only *)

Section PurgeFrame.
Context {Allocator : Type}.
Variable pf : Platform.
Implicit Type a : deferred_reclamation_allocator Allocator.
Implicit Type s : Obj Allocator.

Lemma purged_only_refl l s : purged_only l s s.
Proof.
  split; [split; reflexivity|]. split; [reflexivity|].
  exists []. split; [reflexivity | constructor].
Qed.

Lemma purged_only_trans l s1 s2 s3 :
  purged_only l s1 s2 -> purged_only l s2 s3 -> purged_only l s1 s3.
Proof.
  intros ([H1 H2] & Hk & n1 & Hn1 & Hf1) ([H3 H4] & Hk' & n2 & Hn2 & Hf2).
  split; [split; congruence|]. split; [congruence|].
  exists (n2 ++ n1). split.
  - rewrite Hn2, Hn1. apply app_assoc.
  - apply Forall_app. split; assumption.
Qed.

(** A step on the world alone that emits [new]. *)
Lemma purged_only_emit l a w w' new :
  trace w' = new ++ trace w ->
  Forall (reclaims_from l) new ->
  purged_only l (a, w) (a, w').
Proof.
  intros Ht Hf. split; [split; reflexivity|]. split; [reflexivity|].
  exists new. split; assumption.
Qed.

Lemma frame_destroy_n l b elem n : forall first s,
  In b l -> In (Some elem) (elements b) ->
  (elem_p elem <= first)%nat ->
  (first + n <= elem_p elem + elem_n elem)%nat ->
  wp (destroy_n first n (elem_since elem))
    (fun _ => purged_only l s) (purged_only l s) s.
Proof.
  induction n as [|n IH]; intros first [a w] Hb He Hlo Hhi; cbn [destroy_n].
  - wp_simpl. apply purged_only_refl.
  - rewrite wp_bind. unfold wp at 1, from_world, run_value_dtor.
    cbn [fst snd]. destruct (hd false (dtor_script w)).
    + apply (purged_only_emit _ _ _ _ []); [reflexivity | constructor].
    + eapply wp_mono; [apply (IH (S first)); [exact Hb|exact He|lia|lia] | |].
      all: cbn; intros; eapply purged_only_trans; [|eassumption].
      all: apply (purged_only_emit _ _ _ _
                    [Destroyed first (elem_since elem) (steady_clock w)]);
        [reflexivity|].
      all: constructor; [|constructor].
      all: exists b, elem; repeat split; try assumption; lia.
Qed.

Lemma frame_reclaim l b range : forall s,
  In b l -> (forall slot, In slot range -> In slot (elements b)) ->
  wp (reclaim_buffer_elements range)
    (fun _ => purged_only l s) (purged_only l s) s.
Proof.
  induction range as [|[elem|] rest IH]; intros [a w] Hb Hin;
    cbn [reclaim_buffer_elements].
  - wp_simpl. apply purged_only_refl.
  - assert (He : In (Some elem) (elements b)) by (apply Hin; left; reflexivity).
    rewrite wp_bind. eapply wp_mono.
    + apply (frame_destroy_n l b elem); [exact Hb | exact He | lia | lia].
    + cbn. intros _ [a1 w1] H1. wp_simpl. eapply wp_mono.
      * apply IH; [exact Hb|]. intros slot Hs. apply Hin. right. exact Hs.
      * cbn. intros _ s2 H2. eapply purged_only_trans; [exact H1|].
        eapply purged_only_trans; [|exact H2].
        apply (purged_only_emit _ _ _ _ [Deallocated (elem_p elem) (elem_n elem)]);
          [reflexivity|].
        constructor; [|constructor]. exists b, elem. auto.
      * cbn. intros s2 H2. eapply purged_only_trans; [exact H1|].
        eapply purged_only_trans; [|exact H2].
        apply (purged_only_emit _ _ _ _ [Deallocated (elem_p elem) (elem_n elem)]);
          [reflexivity|].
        constructor; [|constructor]. exists b, elem. auto.
    + auto.
  - wp_simpl. apply purged_only_refl.
Qed.

Lemma frame_buffer_delete l b s :
  In b l ->
  wp (buffer_delete pf (Some b))
    (fun _ => purged_only l s) (purged_only l s) s.
Proof.
  intros Hb. destruct s as [a w]. unfold buffer_delete.
  destruct (NDEBUG pf) eqn:Hnd; wp_simpl.
  all: apply (purged_only_emit _ _ _ _
                [BytesDeallocated (address b) (Z.of_nat (buffer_capacity_ a));
                 BufferDestroyed (address b)]); [reflexivity|].
  all: repeat constructor; exists b; auto.
Qed.

Lemma frame_reclaim_full_buffer l b s :
  In b l ->
  wp (reclaim_full_buffer pf b)
    (fun _ => purged_only l s) (purged_only l s) s.
Proof.
  intros Hb. destruct s as [a w]. unfold reclaim_full_buffer. wp_simpl.
  destruct (_ <=? _)%nat; [|apply purged_only_refl].
  eapply wp_mono.
  - apply (frame_reclaim l b); [exact Hb|].
    intros slot Hs. apply list_elem_of_In in Hs. apply list_elem_of_In.
    exact (subseteq_take _ _ _ Hs).
  - cbn. intros _ s1 H1. eapply wp_mono.
    + apply (frame_buffer_delete l b), Hb.
    + cbn. intros _ s2 H2. eapply purged_only_trans; eassumption.
    + cbn. intros s2 H2. eapply purged_only_trans; eassumption.
  - auto.
Qed.

(** A change of the object that [purge] is allowed to make. *)
Lemma purged_only_object l a a' w :
  current_buffer_ a' = current_buffer_ a ->
  current_buffer_size_ a' = current_buffer_size_ a ->
  buffer_capacity_ a' = buffer_capacity_ a ->
  purged_only l (a, w) (a', w).
Proof.
  intros H1 H2 H3. split; [split; assumption|]. split; [assumption|].
  exists []. split; [reflexivity | constructor].
Qed.

Lemma frame_purge_loop flavor l0 l : forall s,
  (forall b, In b l -> In b l0) ->
  wp (purge_loop pf flavor l)
    (fun _ => purged_only l0 s) (purged_only l0 s) s.
Proof.
  induction l as [|oldest rest IH]; intros [a w] Hin; cbn [purge_loop].
  - wp_simpl. apply purged_only_refl.
  - assert (Hold : In oldest l0) by (apply Hin; left; reflexivity).
    assert (Hrest : forall b, In b rest -> In b l0)
      by (intros b Hb; apply Hin; right; exact Hb).
    wp_simpl. destruct (now_ a >? _).
    + wp_simpl. eapply wp_mono.
      * apply (frame_reclaim_full_buffer l0 oldest), Hold.
      * cbn. intros _ s1 H1. eapply wp_mono; [apply IH, Hrest | |].
        all: cbn; intros; eapply purged_only_trans; [|eassumption].
        all: eapply purged_only_trans; [|exact H1].
        all: apply purged_only_object; reflexivity.
      * cbn. intros s1 H1. eapply purged_only_trans; [|exact H1].
        apply purged_only_object; reflexivity.
    + destruct flavor; wp_simpl; [apply purged_only_refl|].
      assert (Hsleep : purged_only l0 (a, w)
                (with_delay_list_ rest a,
                 sleep_world (deadline (timestamp oldest) (timeout_ a)) w)).
      { eapply purged_only_trans.
        - apply (purged_only_emit _ _ _ (sleep_world (deadline (timestamp oldest) (timeout_ a)) w)
                   [SleptUntil (deadline (timestamp oldest) (timeout_ a))]);
            [reflexivity | repeat constructor].
        - apply purged_only_object; reflexivity. }
      eapply wp_mono.
      * apply (frame_reclaim_full_buffer l0 oldest), Hold.
      * cbn. intros _ [a1 w1] H1. wp_simpl.
        eapply wp_mono; [apply IH, Hrest | |].
        all: cbn; intros; eapply purged_only_trans; [|eassumption].
        all: eapply purged_only_trans; [exact Hsleep|].
        all: eapply purged_only_trans; [exact H1|].
        all: apply purged_only_object; reflexivity.
      * cbn. intros s1 H1. eapply purged_only_trans; [exact Hsleep | exact H1].
Qed.

Lemma frame_purge flavor s :
  wp (purge pf flavor)
    (fun _ => purged_only (delay_list_ (fst s)) s)
    (purged_only (delay_list_ (fst s)) s) s.
Proof.
  destruct s as [a w]. unfold purge. rewrite wp_noexcept.
  assert (Hobs : purged_only (delay_list_ a) (a, w)
            (with_now_ (fst (observe_clock w)) a, snd (observe_clock w))).
  { eapply purged_only_trans.
    - apply (purged_only_emit _ _ _ (snd (observe_clock w)) []);
        [reflexivity | constructor].
    - apply purged_only_object; reflexivity. }
  destruct (NDEBUG pf) eqn:Hnd; wp_simpl.
  2: destruct (negb _); [|apply purged_only_refl].
  all: eapply wp_mono; [apply (frame_purge_loop _ (delay_list_ a)); auto | |].
  all: cbn; intros; eapply purged_only_trans; [exact Hobs | eassumption].
Qed.
End PurgeFrame.

(** * The claims *)




(** C8.  [a == b] holds exactly when the underlying allocators compare
    equal and the timeouts are equal; the capacity of the delay buffer
    (like every other member) plays no part; [a != b] is the negation of
    [a == b]. *)
Theorem equality_is_allocator_and_timeout {Allocator}
    `{UnderlyingAllocator Allocator}
    (a b : deferred_reclamation_allocator Allocator) :
  (op_eq a b = true <->
   alloc_eqb (allocator_ a) (allocator_ b) = true /\ timeout_ a = timeout_ b) /\
  (forall k1 k2,
     op_eq (mkAllocator (allocator_ a) (timeout_ a) (now_ a)
              (buffer_allocator_ a) k1 (current_buffer_size_ a)
              (current_buffer_ a) (delay_list_ a))
           (mkAllocator (allocator_ b) (timeout_ b) (now_ b)
              (buffer_allocator_ b) k2 (current_buffer_size_ b)
              (current_buffer_ b) (delay_list_ b))
     = op_eq a b) /\
  op_ne a b = negb (op_eq a b).
Proof.
  split; [|split].
  - unfold op_eq. rewrite andb_true_iff, Z.eqb_eq. tauto.
  - reflexivity.
  - reflexivity.
Qed.

Lemma equality_is_allocator_and_timeout_witness :
  op_eq (mkAllocator 7%nat 5 100 7%nat 1%nat 0%nat None [])
        (mkAllocator 7%nat 5 300 7%nat 64%nat 0%nat None []) = true <->
  alloc_eqb 7%nat 7%nat = true /\ 5 = 5.
Proof.
  apply (equality_is_allocator_and_timeout
           (mkAllocator 7%nat 5 100 7%nat 1%nat 0%nat None [])
           (mkAllocator 7%nat 5 300 7%nat 64%nat 0%nat None [])).
Defined.

(** C9.  The destructor of an allocator that is not moved-from, with an
    empty delay list and an empty current buffer, returns after two
    calls only: it destroys the header of the current buffer and hands
    its storage back to the byte allocator.  It runs no value
    destructor, deallocates no element and does not sleep. *)
Theorem destructor_of_an_empty_allocator {Allocator} (pf : Platform)
    (a : deferred_reclamation_allocator Allocator) (w : World)
    (cb : DelayBuffer) :
  current_buffer_ a = Some cb ->
  delay_list_ a = [] ->
  current_buffer_size_ a = 0%nat ->
  exists s',
    destructor pf (a, w) = (Ret tt, s') /\
    trace (snd s')
    = [BytesDeallocated (address cb) (Z.of_nat (buffer_capacity_ a));
       BufferDestroyed (address cb)] ++ trace w.
Proof.
  intros Hcb Hl Hsz.
  destruct (wp_total _ _ _ (destructor_empty pf a w cb Hcb Hl Hsz))
    as ([] & s' & Hrun & Htr).
  exists s'. split; assumption.
Qed.

Lemma destructor_of_an_empty_allocator_witness :
  exists s',
    destructor debug_build
      (mkAllocator 7%nat 5 100 7%nat 2%nat 0%nat
         (Some (mkBuffer 1 0 [None; None])) [], calm 100)
    = (Ret tt, s') /\
    trace (snd s') = [BytesDeallocated 1 2; BufferDestroyed 1] ++ [].
Proof.
  apply (destructor_of_an_empty_allocator debug_build
           (mkAllocator 7%nat 5 100 7%nat 2%nat 0%nat
              (Some (mkBuffer 1 0 [None; None])) [])
           (calm 100) (mkBuffer 1 0 [None; None]));
    reflexivity.
Defined.

(** C4 (the code departs from the claim).  [buffer_new] asks the byte
    allocator for [sizeof(DelayBuffer) + capacity * sizeof(DelayBufferElement)]
    bytes; [buffer_delete] hands the same pointer back with the count
    [buffer_capacity_], which is a different number whenever both sizes
    are positive and the byte count fits [std::size_t]. *)
Theorem buffer_delete_passes_the_capacity {Allocator} (pf : Platform)
    (a : deferred_reclamation_allocator Allocator) (w : World) :
  1 <= sizeof_DelayBuffer pf ->
  1 <= sizeof_DelayBufferElement pf ->
  sizeof_DelayBuffer pf
    + Z.of_nat (buffer_capacity_ a) * sizeof_DelayBufferElement pf < size_t_max ->
  hd alloc_succeeds (alloc_script w) = alloc_succeeds ->
  exists b s1 s2,
    buffer_new pf (a, w) = (Ret b, s1) /\
    buffer_delete pf (Some b) s1 = (Ret tt, s2) /\
    trace (snd s2)
    = [BytesDeallocated (address b) (Z.of_nat (buffer_capacity_ a));
       BufferDestroyed (address b);
       BytesAllocated (address b)
         (sizeof_DelayBuffer pf
          + Z.of_nat (buffer_capacity_ a) * sizeof_DelayBufferElement pf)]
      ++ trace w /\
    Z.of_nat (buffer_capacity_ a)
    <> sizeof_DelayBuffer pf
       + Z.of_nat (buffer_capacity_ a) * sizeof_DelayBufferElement pf.
Proof.
  intros Hh He Hfit Halloc.
  assert (Hbytes : buffer_bytes pf (buffer_capacity_ a)
                   = sizeof_DelayBuffer pf
                     + Z.of_nat (buffer_capacity_ a)
                       * sizeof_DelayBufferElement pf).
  { unfold buffer_bytes, size_t_wrap.
    rewrite (Z.mod_small (Z.of_nat _ * _)) by nia.
    apply Z.mod_small. nia. }
  unfold buffer_new, buffer_delete, bind, this, from_world, in_world, ret,
    resource_allocate.
  cbn [fst snd]. rewrite Halloc. cbn [fst snd].
  eexists _, _, _. split; [reflexivity|].
  unfold assert. split.
  - destruct (NDEBUG pf); cbn; reflexivity.
  - cbn. rewrite Hbytes. split; [reflexivity | nia].
Qed.

Lemma buffer_delete_passes_the_capacity_witness :
  exists b s1 s2,
    buffer_new debug_build
      (mkAllocator 7%nat 5 100 7%nat 1%nat 0%nat None [], calm 100)
    = (Ret b, s1) /\
    buffer_delete debug_build (Some b) s1 = (Ret tt, s2) /\
    trace (snd s2)
    = [BytesDeallocated (address b) 1; BufferDestroyed (address b);
       BytesAllocated (address b) (16 + 1 * 16)] ++ [] /\
    1 <> 16 + 1 * 16.
Proof.
  apply (buffer_delete_passes_the_capacity debug_build
           (mkAllocator 7%nat 5 100 7%nat 1%nat 0%nat None []) (calm 100));
    cbn; try reflexivity; lia.
Defined.

(** C6.  Whatever its flavor and however it ends, [purge] leaves the
    current buffer pointer and its fill level as they were, and every
    call it makes reclaims from a buffer that was on the delay list: the
    elements of the current buffer are not touched.  In particular with
    an empty delay list it runs no value destructor. *)
Theorem purge_spares_the_current_buffer {Allocator} (pf : Platform)
    (flavor : Flavor) (s : Obj Allocator) :
  let s' := snd (purge pf flavor s) in
  current_buffer_ (fst s') = current_buffer_ (fst s) /\
  current_buffer_size_ (fst s') = current_buffer_size_ (fst s) /\
  (exists new, trace (snd s') = new ++ trace (snd s) /\
               Forall (reclaims_from (delay_list_ (fst s))) new) /\
  (delay_list_ (fst s) = [] ->
   calls destroyed (trace (snd s')) = calls destroyed (trace (snd s))).
Proof.
  cbn zeta. pose proof (frame_purge pf flavor s) as H. unfold wp in H.
  assert (Hp : purged_only (delay_list_ (fst s)) s (snd (purge pf flavor s))).
  { destruct (purge pf flavor s) as [[r|f] s']; exact H. }
  clear H. destruct Hp as ([H1 H2] & _ & new & Hnew & Hall).
  repeat split; try assumption.
  - exists new. split; assumption.
  - intros Hl. rewrite Hl in Hall. rewrite Hnew. unfold calls.
    rewrite rev_app_distr, omap_app.
    assert (Hnone : omap destroyed (rev new) = []).
    { clear -Hall. induction new as [|e new IH]; [reflexivity|].
      inversion Hall as [|? ? He Hrest]; subst. cbn [rev].
      rewrite omap_app, (IH Hrest). destruct e; cbn in *; try reflexivity.
      destruct He as (b & elem & [] & _). }
    rewrite Hnone. apply app_nil_r.
Qed.

Lemma purge_spares_the_current_buffer_witness :
  calls destroyed
    (trace (snd (snd (purge debug_build opportunistic
       (mkAllocator 7%nat 2 100 7%nat 2%nat 1%nat
          (Some (mkBuffer 1 0 [Some (mkElement 40%nat 1%nat 100); None])) [],
        calm 102)))))
  = calls destroyed (trace (calm 102)).
Proof.
  apply (purge_spares_the_current_buffer debug_build opportunistic
           (mkAllocator 7%nat 2 100 7%nat 2%nat 1%nat
              (Some (mkBuffer 1 0 [Some (mkElement 40%nat 1%nat 100); None])) [],
            calm 102)).
  reflexivity.
Defined.

(** C7.  When the byte allocator succeeds, the (converting) copy
    constructor returns an object with an empty delay list and a freshly
    allocated current buffer with fill 0 and no element, at an address
    that none of the source's buffers has; it copies the underlying
    allocator, the timeout and the capacity; its only call is that
    allocation; and destroying the copy right away runs no value
    destructor and deallocates no element.  The source is read only: it
    is an argument of the constructor, not part of what it returns. *)
Theorem copy_shares_nothing {Allocator OtherAllocator} (pf : Platform)
    (convert : OtherAllocator -> Allocator)
    (other : deferred_reclamation_allocator OtherAllocator) (w : World) :
  hd alloc_succeeds (alloc_script w) = alloc_succeeds ->
  Forall (fun b => (address b < next_address w)%nat) (owned_buffers other) ->
  exists copy w' fresh,
    copy_constructor pf convert other w = (Ret copy, w') /\
    delay_list_ copy = [] /\
    current_buffer_size_ copy = 0%nat /\
    current_buffer_ copy = Some fresh /\
    elements fresh = replicate (buffer_capacity_ other) None /\
    Forall (fun b => address b <> address fresh) (owned_buffers other) /\
    allocator_ copy = convert (allocator_ other) /\
    timeout_ copy = timeout_ other /\
    buffer_capacity_ copy = buffer_capacity_ other /\
    trace w'
    = BytesAllocated (address fresh) (buffer_bytes pf (buffer_capacity_ other))
        :: trace w /\
    exists s'',
      destructor pf (copy, w') = (Ret tt, s'') /\
      calls destroyed (trace (snd s'')) = calls destroyed (trace w) /\
      calls returned (trace (snd s'')) = calls returned (trace w).
Proof.
  intros Halloc Hold.
  unfold copy_constructor, construct_object, constructor_body, buffer_new,
    bind, this, from_world, in_world, assign, ret, resource_allocate.
  fields. rewrite Halloc. fields.
  eexists _, _, _. split; [reflexivity|]. fields.
  repeat (split; [reflexivity|]).
  split.
  { eapply Forall_impl; [exact Hold|]. cbn. intros b Hb. lia. }
  repeat (split; [reflexivity|]).
  match goal with
  | |- context [destructor pf (?a, ?w1)] =>
      destruct (wp_total _ _ _
                  (destructor_empty pf a w1 (mkBuffer (next_address w) 0
                     (replicate (buffer_capacity_ other) None))
                     eq_refl eq_refl eq_refl))
        as ([] & s'' & Hrun & Htr)
  end.
  exists s''. split; [exact Hrun|]. rewrite Htr. cbn [app trace emit].
  rewrite !calls_cons. cbn. rewrite !app_nil_r. split; reflexivity.
Qed.

Lemma copy_shares_nothing_witness :
  exists copy w' fresh,
    copy_constructor debug_build (fun x : nat => x)
      (mkAllocator 7%nat 5 100 7%nat 1%nat 0%nat
         (Some (mkBuffer 2 0 [None]))
         [mkBuffer 1 100 [Some (mkElement 40%nat 1%nat 100)]])
      (mkWorld 101 [] [] [] 3%nat []) = (Ret copy, w') /\
    delay_list_ copy = [] /\
    current_buffer_size_ copy = 0%nat /\
    current_buffer_ copy = Some fresh /\
    elements fresh = replicate 1 None /\
    Forall (fun b => address b <> address fresh)
      [mkBuffer 2 0 [None]; mkBuffer 1 100 [Some (mkElement 40%nat 1%nat 100)]] /\
    allocator_ copy = 7%nat /\
    timeout_ copy = 5 /\
    buffer_capacity_ copy = 1%nat /\
    trace w' = BytesAllocated (address fresh) (buffer_bytes debug_build 1) :: [] /\
    exists s'',
      destructor debug_build (copy, w') = (Ret tt, s'') /\
      calls destroyed (trace (snd s'')) = calls destroyed [] /\
      calls returned (trace (snd s'')) = calls returned [].
Proof.
  apply (copy_shares_nothing debug_build (fun x : nat => x)
           (mkAllocator 7%nat 5 100 7%nat 1%nat 0%nat
              (Some (mkBuffer 2 0 [None]))
              [mkBuffer 1 100 [Some (mkElement 40%nat 1%nat 100)]])
           (mkWorld 101 [] [] [] 3%nat [])).
  - reflexivity.
  - repeat constructor.
Defined.

(** * Accounting *)

Lemma and_then_nothing_l x : and_then nothing x = x.
Proof. destruct x. reflexivity. Qed.

Lemma and_then_nothing_r x : and_then x nothing = x.
Proof. destruct x. unfold and_then. cbn. rewrite !app_nil_r. reflexivity. Qed.

Lemma and_then_assoc x y z :
  and_then (and_then x y) z = and_then x (and_then y z).
Proof. unfold and_then. cbn. rewrite <- !app_assoc. reflexivity. Qed.

Lemma summarize_app new old :
  summarize (new ++ old) = and_then (summarize old) (summarize new).
Proof. unfold summarize, and_then. cbn. rewrite !calls_app. reflexivity. Qed.

Lemma onward_refl w : onward w w.
Proof. unfold onward. split; [lia | tauto]. Qed.

Lemma onward_trans w1 w2 w3 : onward w1 w2 -> onward w2 w3 -> onward w1 w3.
Proof. unfold onward. intros (H1 & H2 & H3) (H4 & H5 & H6). split; [lia | tauto]. Qed.

Lemma quiet_tail w :
  quiet w -> hd false (dtor_script w) = false /\
             Forall (fun b => b = false) (tl (dtor_script w)).
Proof.
  unfold quiet. destruct (dtor_script w) as [|b l]; cbn.
  - split; [reflexivity | constructor].
  - intros H. inversion H; subst. split; [reflexivity | assumption].
Qed.

Lemma plentiful_tail w :
  plentiful w -> hd alloc_succeeds (alloc_script w) = alloc_succeeds /\
                 Forall (fun b => b = alloc_succeeds) (tl (alloc_script w)).
Proof.
  unfold plentiful. destruct (alloc_script w) as [|b l]; cbn.
  - split; [reflexivity | constructor].
  - intros H. inversion H; subst. split; [reflexivity | assumption].
Qed.

Section Did.
Context {Allocator : Type}.
Implicit Type s : Obj Allocator.

Lemma did_refl s : did nothing s s.
Proof.
  split; [apply onward_refl|]. exists []. split; reflexivity.
Qed.

Lemma did_trans x y s1 s2 s3 :
  did x s1 s2 -> did y s2 s3 -> did (and_then x y) s1 s3.
Proof.
  intros [H1 (n1 & Hn1 & Hs1)] [H2 (n2 & Hn2 & Hs2)].
  split; [eapply onward_trans; eassumption|].
  exists (n2 ++ n1). split.
  - rewrite Hn2, Hn1. apply app_assoc.
  - rewrite summarize_app. congruence.
Qed.

Lemma did_eq x y s s' : did x s s' -> x = y -> did y s s'.
Proof. intros H <-. exact H. Qed.

(** A change of the object alone. *)
Lemma did_object (a a' : deferred_reclamation_allocator Allocator) w :
  did nothing (a, w) (a', w).
Proof.
  split; [apply onward_refl|]. exists []. split; reflexivity.
Qed.

(** A step of the world that emits [new]. *)
Lemma did_world (a : deferred_reclamation_allocator Allocator) w w' new :
  onward w w' -> trace w' = new ++ trace w ->
  did (summarize new) (a, w) (a, w').
Proof. intros H Ht. split; [exact H|]. exists new. split; [exact Ht|reflexivity]. Qed.

Lemma onward_emit e w : onward w (emit e w).
Proof. unfold onward, quiet, plentiful. cbn. split; [lia | tauto]. Qed.

Lemma onward_observe w : onward w (snd (observe_clock w)).
Proof.
  unfold onward, quiet, plentiful. cbn. split; [lia|].
  split; intros H.
  - exact H.
  - exact H.
Qed.

Lemma onward_sleep d w : onward w (sleep_world d w).
Proof. unfold onward, quiet, plentiful. cbn. split; [lia | tauto]. Qed.

Lemma onward_elapse d w : onward w (elapse d w).
Proof. unfold onward, quiet, plentiful. cbn. split; [lia | tauto]. Qed.
End Did.

Section DidReclaim.
Context {Allocator : Type}.
Variable pf : Platform.
Variable calm : bool.
Implicit Type a : deferred_reclamation_allocator Allocator.
Implicit Type s : Obj Allocator.

Lemma did_destroy_n n : forall first since s,
  (calm = true -> quiet (snd s)) ->
  wp (destroy_n first n since)
    (fun _ s' => same_object_and_clock s s' /\
                 did (mkSummary [] [] [] (seq first n) []) s s')
    (may_fail calm) s.
Proof.
  induction n as [|n IH]; intros first since [a w] Hq; cbn [destroy_n].
  - wp_simpl. split; [split; reflexivity | apply did_refl].
  - rewrite wp_bind. unfold wp at 1, from_world, run_value_dtor.
    cbn [fst snd].
    destruct (hd false (dtor_script w)) eqn:Hd.
    + unfold may_fail. destruct calm; [|reflexivity].
      destruct (quiet_tail w (Hq eq_refl)) as [Hh _]. congruence.
    + set (w1 := mkWorld _ _ _ _ _ _).
      assert (Hon : onward w w1).
      { unfold onward, quiet, plentiful. cbn. split; [lia|]. split; [|tauto].
        intros H. apply (quiet_tail w H). }
      eapply wp_mono; [apply (IH (S first) since (a, w1)) | | auto].
      * intros Hc. apply Hon, Hq, Hc.
      * cbn. intros _ s' [[Ha Hc] Hdid]. split; [split; [exact Ha | exact Hc]|].
        eapply did_eq.
        -- eapply did_trans; [|exact Hdid].
           apply (did_world a w w1 [Destroyed first since (steady_clock w)]);
             [exact Hon | reflexivity].
        -- reflexivity.
Qed.

Lemma ranges_cons_some e rest :
  ranges (Some e :: rest) = (elem_p e, elem_n e) :: ranges rest.
Proof. reflexivity. Qed.

Lemma did_reclaim range : forall s,
  (calm = true -> quiet (snd s) /\ Forall is_Some range) ->
  wp (reclaim_buffer_elements range)
    (fun _ s' => same_object_and_clock s s' /\
                 did (mkSummary [] [] (ranges range) (objects range) []) s s')
    (may_fail calm) s.
Proof.
  induction range as [|[elem|] rest IH]; intros [a w] Hq;
    cbn [reclaim_buffer_elements].
  - wp_simpl. split; [split; reflexivity | apply did_refl].
  - rewrite wp_bind. eapply wp_mono.
    + apply did_destroy_n. intros Hc. apply Hq, Hc.
    + cbn. intros _ [a1 w1] [[Ha Hc] Hdid]. cbn in Ha, Hc. subst a1.
      wp_simpl. eapply wp_mono; [apply IH | | auto].
      * intros Hcalm. destruct (Hq Hcalm) as [Hquiet Hsome].
        split; [|inversion Hsome; assumption].
        cbn. destruct Hdid as [(_ & Hk & _) _]. apply (Hk Hquiet).
      * cbn. intros _ s2 [[Ha2 Hc2] Hdid2].
        split; [split; [exact Ha2 | cbn in *; lia]|].
        eapply did_eq.
        -- eapply did_trans; [exact Hdid|].
           eapply did_trans; [|exact Hdid2].
           apply (did_world a w1 (emit (Deallocated (elem_p elem) (elem_n elem)) w1)
                    [Deallocated (elem_p elem) (elem_n elem)]);
             [apply onward_emit | reflexivity].
        -- unfold and_then, summarize. cbn. rewrite ?app_nil_r. reflexivity.
    + auto.
  - wp_simpl. unfold may_fail. destruct calm; [|reflexivity].
    destruct (Hq eq_refl) as [_ Hsome]. inversion Hsome as [|? ? [x Hx]]; discriminate.
Qed.

Lemma did_buffer_delete b s :
  wp (buffer_delete pf (Some b))
    (fun _ s' => same_object_and_clock s s' /\
                 did (mkSummary [address b] [] [] [] []) s s')
    (may_fail calm) s.
Proof.
  destruct s as [a w]. unfold buffer_delete.
  destruct (NDEBUG pf) eqn:Hnd; wp_simpl.
  all: split; [split; reflexivity|].
  all: apply (did_world a w _
                [BytesDeallocated (address b) (Z.of_nat (buffer_capacity_ a));
                 BufferDestroyed (address b)]); [|reflexivity].
  all: eapply onward_trans; apply onward_emit.
Qed.

Lemma take_full {A} (l : list A) k : length l = k -> take k l = l.
Proof. intros <-. apply firstn_all. Qed.

Lemma did_reclaim_full_buffer b s :
  full (buffer_capacity_ (fst s)) b ->
  (calm = true -> quiet (snd s)) ->
  wp (reclaim_full_buffer pf b)
    (fun _ s' => same_object_and_clock s s' /\
                 did (mkSummary [address b] [] (ranges (elements b))
                        (objects (elements b)) []) s s')
    (may_fail calm) s.
Proof.
  intros [Hlen Hsome] Hq. destruct s as [a w]. cbn [fst snd] in *.
  unfold reclaim_full_buffer. wp_simpl.
  rewrite Hlen, Nat.leb_refl, (take_full _ _ Hlen).
  eapply wp_mono; [apply did_reclaim | | auto].
  - intros Hc. split; [apply Hq, Hc | exact Hsome].
  - cbn. intros _ [a1 w1] [[Ha Hc] Hdid]. cbn in Ha, Hc. subst a1.
    eapply wp_mono; [apply did_buffer_delete | | auto].
    cbn. intros _ s2 [[Ha2 Hc2] Hdid2].
    split; [split; [exact Ha2 | cbn in *; lia]|].
    eapply did_eq; [eapply did_trans; eassumption|].
    unfold and_then. cbn. rewrite ?app_nil_r. reflexivity.
Qed.
End DidReclaim.

Section DidPurge.
Context {Allocator : Type}.
Variable pf : Platform.
Variable calm : bool.
Implicit Type a : deferred_reclamation_allocator Allocator.
Implicit Type s : Obj Allocator.

Lemma did_purge_loop_opportunistic l : forall s,
  delay_list_ (fst s) = l ->
  Forall (full (buffer_capacity_ (fst s))) l ->
  (calm = true -> quiet (snd s)) ->
  wp (purge_loop pf opportunistic l)
    (fun _ s' =>
       let taken := ripe_prefix (now_ (fst s)) (timeout_ (fst s)) l in
       fst s' = with_delay_list_
                  (unripe_suffix (now_ (fst s)) (timeout_ (fst s)) l) (fst s) /\
       steady_clock (snd s') = steady_clock (snd s) /\
       did (mkSummary (map address taken) [] (ranges_of taken)
              (objects_of taken) []) s s')
    (may_fail calm) s.
Proof.
  induction l as [|oldest rest IH]; intros [a w] Hl Hfull Hq;
    cbn [purge_loop fst snd] in *.
  - wp_simpl. cbn. split; [|split; [reflexivity | apply did_refl]].
    destruct a; cbn in *; subst; reflexivity.
  - inversion Hfull as [|? ? Hold Hrest]; subst.
    wp_simpl. cbn [ripe_prefix unripe_suffix]. unfold ripe at 1 2 3 4.
    destruct (now_ a >? deadline (timestamp oldest) (timeout_ a)) eqn:Hripe.
    + wp_simpl. eapply wp_mono;
        [apply (did_reclaim_full_buffer pf calm oldest);
           [exact Hold | exact Hq] | | auto].
      cbn. intros _ [a1 w1] [[Ha Hc] Hdid]. cbn in Ha, Hc. subst a1.
      eapply wp_mono; [apply IH; [reflexivity | exact Hrest |] | | auto].
      * intros Hcalm. destruct Hdid as [(_ & Hk & _) _]. apply Hk, Hq, Hcalm.
      * cbn. intros _ s2 (Ha2 & Hc2 & Hdid2).
        split; [exact Ha2|]. split; [lia|].
        eapply did_eq.
        -- eapply did_trans; [|exact Hdid2].
           eapply did_trans; [apply (did_object a (with_delay_list_ rest a) w)|].
           exact Hdid.
        -- unfold and_then. cbn. rewrite ?app_nil_r. reflexivity.
    + wp_simpl. split; [|split; [reflexivity | apply did_refl]].
      destruct a; cbn in *; subst; reflexivity.
Qed.

Lemma did_purge_loop_exhaustive l : forall s,
  delay_list_ (fst s) = l ->
  Forall (full (buffer_capacity_ (fst s))) l ->
  (calm = true -> quiet (snd s)) ->
  wp (purge_loop pf exhaustive l)
    (fun _ s' =>
       fst s' = with_now_ (now_after_waits (now_ (fst s)) (timeout_ (fst s)) l)
                  (with_delay_list_ [] (fst s)) /\
       did (mkSummary (map address l)
              (waits (now_ (fst s)) (timeout_ (fst s)) l)
              (ranges_of l) (objects_of l) []) s s')
    (may_fail calm) s.
Proof.
  induction l as [|oldest rest IH]; intros [a w] Hl Hfull Hq;
    cbn [purge_loop fst snd] in *.
  - wp_simpl. cbn. split; [|apply did_refl].
    destruct a; cbn in *; subst; reflexivity.
  - inversion Hfull as [|? ? Hold Hrest]; subst.
    wp_simpl. cbn [waits now_after_waits]. unfold ripe at 1 2.
    destruct (now_ a >? deadline (timestamp oldest) (timeout_ a)) eqn:Hripe.
    + wp_simpl. eapply wp_mono;
        [apply (did_reclaim_full_buffer pf calm oldest);
           [exact Hold | exact Hq] | | auto].
      cbn. intros _ [a1 w1] [[Ha Hc] Hdid]. cbn in Ha, Hc. subst a1.
      eapply wp_mono; [apply IH; [reflexivity | exact Hrest |] | | auto].
      * intros Hcalm. destruct Hdid as [(_ & Hk & _) _]. apply Hk, Hq, Hcalm.
      * cbn. intros _ s2 (Ha2 & Hdid2).
        split; [exact Ha2|].
        eapply did_eq.
        -- eapply did_trans; [|exact Hdid2].
           eapply did_trans; [apply (did_object a (with_delay_list_ rest a) w)|].
           exact Hdid.
        -- unfold and_then. cbn. rewrite ?app_nil_r. reflexivity.
    + wp_simpl.
      set (ready := deadline (timestamp oldest) (timeout_ a)).
      assert (Hsleep : did (mkSummary [] [ready] [] [] []) (a, w)
                         (with_delay_list_ rest a, sleep_world ready w)).
      { eapply did_eq.
        - eapply did_trans; [apply (did_object a (with_delay_list_ rest a) w)|].
          apply (did_world _ w (sleep_world ready w) [SleptUntil ready]);
            [apply onward_sleep | reflexivity].
        - reflexivity. }
      eapply wp_mono;
        [apply (did_reclaim_full_buffer pf calm oldest); [exact Hold|] | | auto].
      * intros Hcalm. destruct Hsleep as [(_ & Hk & _) _]. apply Hk, Hq, Hcalm.
      * cbn. intros _ [a1 w1] [[Ha Hc] Hdid]. cbn in Ha, Hc. subst a1.
        wp_simpl.
        eapply wp_mono; [apply IH; [reflexivity | exact Hrest |] | | auto].
        -- intros Hcalm. destruct Hdid as [(_ & Hk & _) _].
           destruct Hsleep as [(_ & Hk' & _) _]. apply Hk, Hk', Hq, Hcalm.
        -- cbn. intros _ s2 (Ha2 & Hdid2).
           split; [exact Ha2|].
           eapply did_eq.
           ++ eapply did_trans; [|exact Hdid2].
              eapply did_trans; [exact Hsleep|].
              eapply did_trans; [exact Hdid|].
              apply (did_object (with_delay_list_ rest a)
                       (with_now_ ready (with_delay_list_ rest a)) w1).
           ++ unfold and_then. cbn. rewrite ?app_nil_r. reflexivity.
Qed.
End DidPurge.

Lemma ripe_split now timeout l :
  ripe_prefix now timeout l ++ unripe_suffix now timeout l = l.
Proof.
  induction l as [|b rest IH]; [reflexivity|]. cbn.
  destruct (ripe now timeout b); cbn; [rewrite IH|]; reflexivity.
Qed.

Lemma ripe_prefix_ripe now timeout l :
  Forall (fun b => deadline (timestamp b) timeout < now) (ripe_prefix now timeout l).
Proof.
  induction l as [|b rest IH]; [constructor|]. cbn.
  destruct (ripe now timeout b) eqn:Hr; [|constructor].
  constructor; [|exact IH]. unfold ripe in Hr. lia.
Qed.

Lemma unripe_suffix_head now timeout l :
  match unripe_suffix now timeout l with
  | [] => True
  | b :: _ => now <= deadline (timestamp b) timeout
  end.
Proof.
  induction l as [|b rest IH]; [exact I|]. cbn.
  destruct (ripe now timeout b) eqn:Hr; [exact IH|].
  unfold ripe in Hr. lia.
Qed.

(** On a list sorted by timestamp whose deadlines fit, once a head has
    been waited for every later head is waited for too. *)
Lemma waits_all_after_deadline timeout b rest :
  fits (timestamp b + timeout) ->
  Forall (fun b' => fits (timestamp b' + timeout)) rest ->
  Forall (fun b' => timestamp b <= timestamp b') rest ->
  StronglySorted Z.le (map timestamp rest) ->
  waits (deadline (timestamp b) timeout) timeout rest
  = map (fun b' => deadline (timestamp b') timeout) rest.
Proof.
  revert b. induction rest as [|b' rest IH]; intros b Hb Hfit Hle Hs;
    [reflexivity|].
  inversion Hle as [|? ? Hb' Hrest]; subst.
  inversion Hfit as [|? ? Hf' Hfrest]; subst.
  cbn in Hs. inversion Hs as [|? ? Hs' Hall]; subst.
  cbn. unfold ripe. destruct (_ >? _) eqn:Hr.
  { rewrite !deadline_fits in Hr by assumption. lia. }
  f_equal. apply IH; [exact Hf' | exact Hfrest | | exact Hs'].
  rewrite Forall_map in Hall. exact Hall.
Qed.

Lemma waits_sorted now timeout l :
  Forall (fun b => fits (timestamp b + timeout)) l ->
  StronglySorted Z.le (map timestamp l) ->
  waits now timeout l
  = map (fun b => deadline (timestamp b) timeout) (unripe_suffix now timeout l).
Proof.
  induction l as [|b rest IH]; intros Hfit Hs; [reflexivity|].
  inversion Hfit as [|? ? Hb Hrest]; subst.
  cbn in Hs. inversion Hs as [|? ? Hs' Hall]; subst. cbn.
  destruct (ripe now timeout b); [apply IH; assumption|].
  cbn. f_equal. apply waits_all_after_deadline; [exact Hb | exact Hrest | | exact Hs'].
  rewrite Forall_map in Hall. exact Hall.
Qed.

(** Deadlines that fit are exact sums. *)
Lemma map_deadline_fits timeout l :
  Forall (fun b => fits (timestamp b + timeout)) l ->
  map (fun b => deadline (timestamp b) timeout) l
  = map (fun b => timestamp b + timeout) l.
Proof.
  induction 1 as [|b l Hb _ IH]; [reflexivity|].
  cbn. rewrite IH, (deadline_fits _ _ Hb). reflexivity.
Qed.

Section DidPurgeMember.
Context {Allocator : Type}.
Variable pf : Platform.
Variable calm : bool.
Implicit Type a : deferred_reclamation_allocator Allocator.
Implicit Type s : Obj Allocator.

Lemma did_purge_opportunistic a w :
  current_buffer_ a <> None ->
  Forall (full (buffer_capacity_ a)) (delay_list_ a) ->
  (calm = true -> quiet w) ->
  wp (purge pf opportunistic)
    (fun _ s' =>
       let t := fst (observe_clock w) in
       let taken := ripe_prefix t (timeout_ a) (delay_list_ a) in
       fst s' = with_delay_list_
                  (unripe_suffix t (timeout_ a) (delay_list_ a))
                  (with_now_ t a) /\
       steady_clock (snd s') = t /\
       did (mkSummary (map address taken) [] (ranges_of taken)
              (objects_of taken) []) (a, w) s')
    (may_fail calm) (a, w).
Proof.
  intros Hcb Hfull Hq. unfold purge. rewrite wp_noexcept.
  destruct (current_buffer_ a) as [cb|] eqn:Hcur; [|congruence].
  destruct (NDEBUG pf) eqn:Hnd; wp_simpl; rewrite ?Hcur; cbn [negb].
  all: eapply wp_mono;
    [apply did_purge_loop_opportunistic; [reflexivity | exact Hfull | exact Hq]
    | | auto].
  all: cbn; intros _ s' (Ha & Hc & Hdid); split; [exact Ha|]; split; [exact Hc|].
  all: eapply did_eq; [eapply did_trans; [|exact Hdid] | apply and_then_nothing_l].
  all: eapply did_eq;
    [eapply did_trans;
       [apply (did_world a w (snd (observe_clock w)) []);
          [apply onward_observe | reflexivity]
       | apply did_object]
    | reflexivity].
Qed.

Lemma did_purge_exhaustive a w :
  current_buffer_ a <> None ->
  Forall (full (buffer_capacity_ a)) (delay_list_ a) ->
  (calm = true -> quiet w) ->
  wp (purge pf exhaustive)
    (fun _ s' =>
       let t := fst (observe_clock w) in
       fst s' = with_now_ (now_after_waits t (timeout_ a) (delay_list_ a))
                  (with_delay_list_ [] a) /\
       did (mkSummary (map address (delay_list_ a))
              (waits t (timeout_ a) (delay_list_ a))
              (ranges_of (delay_list_ a)) (objects_of (delay_list_ a)) [])
         (a, w) s')
    (may_fail calm) (a, w).
Proof.
  intros Hcb Hfull Hq. unfold purge. rewrite wp_noexcept.
  destruct (current_buffer_ a) as [cb|] eqn:Hcur; [|congruence].
  destruct (NDEBUG pf) eqn:Hnd; wp_simpl; rewrite ?Hcur; cbn [negb].
  all: eapply wp_mono;
    [apply did_purge_loop_exhaustive; [reflexivity | exact Hfull | exact Hq]
    | | auto].
  all: cbn; intros _ s' (Ha & Hdid); split; [exact Ha|].
  all: eapply did_eq; [eapply did_trans; [|exact Hdid] | apply and_then_nothing_l].
  all: eapply did_eq;
    [eapply did_trans;
       [apply (did_world a w (snd (observe_clock w)) []);
          [apply onward_observe | reflexivity]
       | apply did_object]
    | reflexivity].
Qed.
End DidPurgeMember.

Lemma did_calls {Allocator} sigma (s s' : Obj Allocator) :
  did sigma s s' ->
  calls freed_buffer (trace (snd s'))
  = calls freed_buffer (trace (snd s)) ++ freed sigma /\
  calls slept (trace (snd s')) = calls slept (trace (snd s)) ++ naps sigma /\
  calls returned (trace (snd s')) = calls returned (trace (snd s)) ++ gone sigma /\
  calls destroyed (trace (snd s')) = calls destroyed (trace (snd s)) ++ razed sigma /\
  calls grabbed_buffer (trace (snd s'))
  = calls grabbed_buffer (trace (snd s)) ++ grabbed sigma.
Proof.
  intros [_ (new & Hnew & <-)]. rewrite Hnew, !calls_app. cbn. auto.
Qed.

(** * Further properties of the member functions *)

(** X1.  Opportunistic [purge] on a live allocator with full sealed
    buffers whose deadlines [timestamp + timeout] fit the 64-bit count of
    the clock, when no value destructor throws: it returns; it caches the
    clock reading [t]; it removes from the head of the delay list exactly
    the buffers whose deadline is strictly before [t], stopping at the
    first other one; it reclaims the elements of the removed buffers in
    order and frees their storage; it never sleeps and never
    allocates. *)
Theorem opportunistic_purge_takes_the_ripe_prefix {Allocator}
    (pf : Platform) (a : deferred_reclamation_allocator Allocator)
    (w : World) :
  current_buffer_ a <> None ->
  Forall (full (buffer_capacity_ a)) (delay_list_ a) ->
  Forall (fun b => fits (timestamp b + timeout_ a)) (delay_list_ a) ->
  quiet w ->
  let t := steady_clock w + Z.of_nat (hd 0%nat (clock_script w)) in
  let taken := ripe_prefix t (timeout_ a) (delay_list_ a) in
  let kept := unripe_suffix t (timeout_ a) (delay_list_ a) in
  exists w',
    purge pf opportunistic (a, w)
    = (Ret tt, (with_delay_list_ kept (with_now_ t a), w')) /\
    steady_clock w' = t /\
    taken ++ kept = delay_list_ a /\
    Forall (fun b => timestamp b + timeout_ a < t) taken /\
    match kept with [] => True | b :: _ => t <= timestamp b + timeout_ a end /\
    calls freed_buffer (trace w') = calls freed_buffer (trace w) ++ map address taken /\
    calls returned (trace w') = calls returned (trace w) ++ ranges_of taken /\
    calls destroyed (trace w') = calls destroyed (trace w) ++ objects_of taken /\
    calls slept (trace w') = calls slept (trace w) /\
    calls grabbed_buffer (trace w') = calls grabbed_buffer (trace w).
Proof.
  intros Hcb Hfull Hfit Hq t taken kept.
  pose proof (did_purge_opportunistic pf true a w Hcb Hfull (fun _ => Hq)) as H.
  unfold wp, may_fail in H.
  destruct (purge pf opportunistic (a, w)) as [[[]|f] [a' w']];
    [|discriminate].
  cbn [fst snd observe_clock] in H. destruct H as (Ha & Hc & Hdid).
  subst a'. exists w'. split; [reflexivity|]. split; [exact Hc|].
  split; [apply ripe_split|].
  rewrite <- (ripe_split t (timeout_ a) (delay_list_ a)) in Hfit.
  apply Forall_app in Hfit. destruct Hfit as [Hft Hfk].
  fold taken in Hft. fold kept in Hfk.
  split.
  { pose proof (ripe_prefix_ripe t (timeout_ a) (delay_list_ a)) as Hripe.
    fold taken in Hripe. clear - Hft Hripe.
    induction Hft as [|b l Hb _ IH]; [constructor|].
    inversion Hripe as [|? ? Hd Hrest]; subst.
    rewrite (deadline_fits _ _ Hb) in Hd. constructor; auto. }
  split.
  { pose proof (unripe_suffix_head t (timeout_ a) (delay_list_ a)) as Hhead.
    fold kept in Hhead. destruct kept as [|b rest]; [exact I|].
    inversion Hfk as [|? ? Hb _]; subst.
    rewrite (deadline_fits _ _ Hb) in Hhead. exact Hhead. }
  destruct (did_calls _ _ _ Hdid) as (H1 & H2 & H3 & H4 & H5).
  cbn in H1, H2, H3, H4, H5. rewrite app_nil_r in H2, H5. auto.
Qed.

Lemma opportunistic_purge_takes_the_ripe_prefix_witness :
  exists w',
    purge debug_build opportunistic
      (mkAllocator 7%nat 5 100 7%nat 1%nat 0%nat (Some (mkBuffer 3 0 [None]))
         [mkBuffer 1 100 [Some (mkElement 40%nat 1%nat 100)];
          mkBuffer 2 104 [Some (mkElement 41%nat 2%nat 103)]],
       calm 106)
    = (Ret tt,
       (mkAllocator 7%nat 5 106 7%nat 1%nat 0%nat (Some (mkBuffer 3 0 [None]))
          [mkBuffer 2 104 [Some (mkElement 41%nat 2%nat 103)]], w')) /\
    calls freed_buffer (trace w') = [1%nat] /\
    calls returned (trace w') = [(40%nat, 1%nat)] /\
    calls destroyed (trace w') = [40%nat].
Proof.
  destruct (opportunistic_purge_takes_the_ripe_prefix debug_build
              (mkAllocator 7%nat 5 100 7%nat 1%nat 0%nat
                 (Some (mkBuffer 3 0 [None]))
                 [mkBuffer 1 100 [Some (mkElement 40%nat 1%nat 100)];
                  mkBuffer 2 104 [Some (mkElement 41%nat 2%nat 103)]])
              (calm 106))
    as (w' & Hrun & _ & _ & _ & _ & Hf & Hr & Hd & _).
  - discriminate.
  - repeat constructor; eexists; reflexivity.
  - fits_all.
  - constructor.
  - exists w'. split; [exact Hrun|]. split; [exact Hf|]. split; [exact Hr | exact Hd].
Defined.

(** X2.  Exhaustive [purge] on a live allocator with full sealed buffers
    sorted by timestamp, whose deadlines [timestamp + timeout] fit the
    64-bit count of the clock, when no value destructor throws: it
    returns with an empty delay list; every sealed buffer has been
    reclaimed and freed, oldest first; and it has slept until the
    deadline of the first buffer that was not ripe at the clock reading
    [t] and of every buffer after it; it allocates nothing. *)
Theorem exhaustive_purge_drains_the_delay_list {Allocator}
    (pf : Platform) (a : deferred_reclamation_allocator Allocator)
    (w : World) :
  current_buffer_ a <> None ->
  Forall (full (buffer_capacity_ a)) (delay_list_ a) ->
  StronglySorted Z.le (map timestamp (delay_list_ a)) ->
  Forall (fun b => fits (timestamp b + timeout_ a)) (delay_list_ a) ->
  quiet w ->
  let t := steady_clock w + Z.of_nat (hd 0%nat (clock_script w)) in
  exists now' w',
    purge pf exhaustive (a, w)
    = (Ret tt, (with_now_ now' (with_delay_list_ [] a), w')) /\
    calls freed_buffer (trace w')
    = calls freed_buffer (trace w) ++ map address (delay_list_ a) /\
    calls returned (trace w')
    = calls returned (trace w) ++ ranges_of (delay_list_ a) /\
    calls destroyed (trace w')
    = calls destroyed (trace w) ++ objects_of (delay_list_ a) /\
    calls slept (trace w')
    = calls slept (trace w)
      ++ map (fun b => timestamp b + timeout_ a)
           (unripe_suffix t (timeout_ a) (delay_list_ a)) /\
    calls grabbed_buffer (trace w') = calls grabbed_buffer (trace w).
Proof.
  intros Hcb Hfull Hsorted Hfit Hq t.
  pose proof (did_purge_exhaustive pf true a w Hcb Hfull (fun _ => Hq)) as H.
  unfold wp, may_fail in H.
  destruct (purge pf exhaustive (a, w)) as [[[]|f] [a' w']]; [|discriminate].
  cbn [fst snd observe_clock] in H. destruct H as (Ha & Hdid).
  subst a'. eexists _, w'. split; [reflexivity|].
  destruct (did_calls _ _ _ Hdid) as (H1 & H2 & H3 & H4 & H5).
  cbn in H1, H2, H3, H4, H5. rewrite app_nil_r in H5.
  rewrite (waits_sorted _ _ _ Hfit Hsorted) in H2.
  rewrite map_deadline_fits in H2; [auto|].
  rewrite <- (ripe_split t (timeout_ a) (delay_list_ a)) in Hfit.
  apply Forall_app in Hfit. apply Hfit.
Qed.

Lemma exhaustive_purge_drains_the_delay_list_witness :
  exists now' w',
    purge debug_build exhaustive
      (mkAllocator 7%nat 5 100 7%nat 1%nat 0%nat (Some (mkBuffer 3 0 [None]))
         [mkBuffer 1 100 [Some (mkElement 40%nat 1%nat 100)];
          mkBuffer 2 104 [Some (mkElement 41%nat 2%nat 103)]],
       calm 106)
    = (Ret tt,
       (mkAllocator 7%nat 5 now' 7%nat 1%nat 0%nat (Some (mkBuffer 3 0 [None]))
          [], w')) /\
    calls freed_buffer (trace w') = [1%nat; 2%nat] /\
    calls returned (trace w') = [(40%nat, 1%nat); (41%nat, 2%nat)] /\
    calls slept (trace w') = [109].
Proof.
  destruct (exhaustive_purge_drains_the_delay_list debug_build
              (mkAllocator 7%nat 5 100 7%nat 1%nat 0%nat
                 (Some (mkBuffer 3 0 [None]))
                 [mkBuffer 1 100 [Some (mkElement 40%nat 1%nat 100)];
                  mkBuffer 2 104 [Some (mkElement 41%nat 2%nat 103)]])
              (calm 106))
    as (now' & w' & Hrun & Hf & Hr & _ & Hs & _).
  - discriminate.
  - repeat constructor; eexists; reflexivity.
  - cbn. repeat constructor; lia.
  - fits_all.
  - constructor.
  - exists now', w'. split; [exact Hrun|]. split; [exact Hf|].
    split; [exact Hr | exact Hs].
Defined.




Section DidReuse.
Context {Allocator : Type}.
Variable pf : Platform.
Variable calm : bool.
Implicit Type a : deferred_reclamation_allocator Allocator.
Implicit Type s : Obj Allocator.

Lemma leb_ripe now timeout b :
  (now <=? deadline (timestamp b) timeout) = negb (ripe now timeout b).
Proof.
  unfold ripe. destruct (Z.leb_spec now (deadline (timestamp b) timeout));
    destruct (Z.gtb_spec now (deadline (timestamp b) timeout)); try reflexivity; lia.
Qed.

Lemma did_reuse_loop l : forall reuse s,
  delay_list_ (fst s) = l ->
  Forall (full (buffer_capacity_ (fst s))) l ->
  (calm = true -> quiet (snd s)) ->
  wp (reuse_loop pf l reuse)
    (fun r s' =>
       let taken := ripe_prefix (now_ (fst s)) (timeout_ (fst s)) l in
       fst s' = with_delay_list_
                  (unripe_suffix (now_ (fst s)) (timeout_ (fst s)) l) (fst s) /\
       steady_clock (snd s') = steady_clock (snd s) /\
       r = match reuse with Some b => Some b | None => head taken end /\
       did (mkSummary
              (map address
                 (match reuse with Some _ => taken | None => tail taken end))
              [] (ranges_of taken) (objects_of taken) []) s s')
    (may_fail calm) s.
Proof.
  induction l as [|oldest rest IH]; intros reuse [a w] Hl Hfull Hq;
    cbn [reuse_loop fst snd] in *.
  - wp_simpl. cbn. split; [destruct a; cbn in *; subst; reflexivity|].
    split; [reflexivity|]. split; [destruct reuse; reflexivity|].
    destruct reuse; apply did_refl.
  - inversion Hfull as [|? ? Hold Hrest]; subst.
    wp_simpl. cbn [ripe_prefix unripe_suffix]. rewrite leb_ripe.
    destruct (ripe (now_ a) (timeout_ a) oldest) eqn:Hripe; cbn [negb].
    + destruct Hold as [Hlen Hsome].
      wp_simpl. rewrite Hlen, Nat.leb_refl, (take_full _ _ Hlen).
      eapply wp_mono; [apply (did_reclaim calm) | | auto].
      { intros Hc. split; [apply Hq, Hc | exact Hsome]. }
      cbn. intros _ [a1 w1] [[Ha Hc] Hdid]. cbn in Ha, Hc. subst a1.
      assert (Hq1 : calm = true -> quiet w1).
      { intros Hcalm. destruct Hdid as [(_ & Hk & _) _]. apply Hk, Hq, Hcalm. }
      wp_simpl. destruct reuse as [kept|].
      * wp_simpl. eapply wp_mono; [apply (did_buffer_delete pf calm oldest) | | auto].
        cbn. intros _ [a2 w2] [[Ha2 Hc2] Hdid2]. cbn in Ha2, Hc2. subst a2.
        eapply wp_mono; [apply IH; [reflexivity | exact Hrest |] | | auto].
        -- intros Hcalm. destruct Hdid2 as [(_ & Hk & _) _]. apply Hk, Hq1, Hcalm.
        -- cbn. intros r s3 (Ha3 & Hc3 & Hr & Hdid3).
           split; [exact Ha3|]. split; [lia|]. split; [exact Hr|].
           eapply did_eq.
           ++ eapply did_trans; [exact Hdid|].
              eapply did_trans; [apply (did_object a (with_delay_list_ rest a) w1)|].
              eapply did_trans; [exact Hdid2 | exact Hdid3].
           ++ unfold and_then, ranges_of, objects_of. cbn. rewrite ?app_nil_r.
              reflexivity.
      * eapply wp_mono; [apply IH; [reflexivity | exact Hrest | exact Hq1] | | auto].
        cbn. intros r s3 (Ha3 & Hc3 & Hr & Hdid3).
        split; [exact Ha3|]. split; [lia|]. split; [exact Hr|].
        eapply did_eq.
        -- eapply did_trans; [exact Hdid|].
           eapply did_trans; [apply (did_object a (with_delay_list_ rest a) w1)|].
           exact Hdid3.
        -- unfold and_then, ranges_of, objects_of. cbn. rewrite ?app_nil_r.
           reflexivity.
    + wp_simpl. split; [destruct a; cbn in *; subst; reflexivity|].
      split; [reflexivity|]. split; [destruct reuse; reflexivity|].
      destruct reuse; apply did_refl.
Qed.

Lemma did_purge_reuse s :
  Forall (full (buffer_capacity_ (fst s))) (delay_list_ (fst s)) ->
  (calm = true -> quiet (snd s)) ->
  wp (purge_delay_list_and_reuse_existing_buffer pf)
    (fun r s' =>
       let taken := ripe_prefix (now_ (fst s)) (timeout_ (fst s))
                      (delay_list_ (fst s)) in
       fst s' = with_delay_list_
                  (unripe_suffix (now_ (fst s)) (timeout_ (fst s))
                     (delay_list_ (fst s))) (fst s) /\
       steady_clock (snd s') = steady_clock (snd s) /\
       r = head taken /\
       did (mkSummary (map address (tail taken)) [] (ranges_of taken)
              (objects_of taken) []) s s')
    (may_fail calm) s.
Proof.
  intros Hfull Hq. unfold purge_delay_list_and_reuse_existing_buffer.
  wp_simpl. apply (did_reuse_loop _ None); [reflexivity | exact Hfull | exact Hq].
Qed.
End DidReuse.

(** * Well-formed pipelines are kept *)

Lemma take_snoc_insert {A} (l : list A) k x :
  (k < length l)%nat -> take (S k) (<[k := x]> l) = take k l ++ [x].
Proof.
  intros Hk. rewrite (take_S_r _ _ x).
  - rewrite take_insert_ge by lia. reflexivity.
  - apply list_lookup_insert_eq. exact Hk.
Qed.

Lemma ranges_app l1 l2 : ranges (l1 ++ l2) = ranges l1 ++ ranges l2.
Proof. unfold ranges. apply omap_app. Qed.

Lemma ranges_of_app l1 l2 : ranges_of (l1 ++ l2) = ranges_of l1 ++ ranges_of l2.
Proof. unfold ranges_of. apply flat_map_app. Qed.

Lemma Forall_ripe_parts {P : DelayBuffer -> Prop} now timeout l :
  Forall P l ->
  Forall P (ripe_prefix now timeout l) /\ Forall P (unripe_suffix now timeout l).
Proof.
  intros H. rewrite <- (ripe_split now timeout l) in H.
  apply Forall_app in H. exact H.
Qed.

Lemma sorted_unripe_suffix now timeout l :
  StronglySorted Z.le (map timestamp l) ->
  StronglySorted Z.le (map timestamp (unripe_suffix now timeout l)).
Proof.
  intros H. rewrite <- (ripe_split now timeout l), map_app in H.
  apply StronglySorted_app in H. apply H.
Qed.

Lemma sorted_snoc l b :
  StronglySorted Z.le (map timestamp l) ->
  Forall (fun b' => timestamp b' <= timestamp b) l ->
  StronglySorted Z.le (map timestamp (l ++ [b])).
Proof.
  intros Hs Hle. rewrite map_app. apply StronglySorted_app.
  split; [|split; [exact Hs | cbn; repeat constructor]].
  intros x1 x2 H1 H2. cbn in H2. apply list_elem_of_singleton in H2. subst x2.
  apply list_elem_of_fmap in H1. destruct H1 as (b' & -> & Hb').
  rewrite Forall_forall in Hle. apply Hle, Hb'.
Qed.

Lemma full_replicate_take k b :
  length (elements b) = k -> Forall is_Some (take k (elements b)) -> full k b.
Proof.
  intros Hlen Hs. split; [exact Hlen|]. rewrite (take_full _ _ Hlen) in Hs.
  exact Hs.
Qed.

Lemma env_ok_onward {Allocator} calm pf (s s' : Obj Allocator) :
  env_ok calm pf s -> onward (snd s) (snd s') -> env_ok calm pf s'.
Proof.
  unfold env_ok. destruct calm; [|auto].
  intros [Hq Hp] (_ & H1 & H2). split; auto.
Qed.

Lemma env_ok_quiet {Allocator} calm pf (s : Obj Allocator) :
  env_ok calm pf s -> calm = true -> quiet (snd s).
Proof. intros H ->. apply H. Qed.

Lemma env_ok_did {Allocator} calm pf sigma (s s' : Obj Allocator) :
  env_ok calm pf s -> did sigma s s' -> env_ok calm pf s'.
Proof. intros H [Hon _]. eapply env_ok_onward; eassumption. Qed.

Lemma did_any {Allocator} (a a' : deferred_reclamation_allocator Allocator)
    w w' new :
  onward w w' -> trace w' = new ++ trace w ->
  did (summarize new) (a, w) (a', w').
Proof. intros H Ht. split; [exact H|]. exists new. split; [exact Ht|reflexivity]. Qed.

Lemma did_objects {Allocator} sigma
    (a a' b b' : deferred_reclamation_allocator Allocator) w w' :
  did sigma (a, w) (a', w') -> did sigma (b, w) (b', w').
Proof. intros H. exact H. Qed.

Section Recycling.
Context {Allocator : Type}.
Implicit Type a x : deferred_reclamation_allocator Allocator.

(** The buffer withheld by the purge becomes the empty current buffer. *)
Lemma recycled_ok x w w' b tk :
  Forall (full (buffer_capacity_ x)) (delay_list_ x) ->
  StronglySorted Z.le (map timestamp (delay_list_ x)) ->
  Forall (fun b' => timestamp b' <= steady_clock w) (delay_list_ x) ->
  steady_clock w <= steady_clock w' ->
  (1 <= buffer_capacity_ x)%nat ->
  ripe_prefix (now_ x) (timeout_ x) (delay_list_ x) = b :: tk ->
  let x' := with_current_buffer_size_ 0
              (with_current_buffer_ (Some b)
                 (with_delay_list_
                    (unripe_suffix (now_ x) (timeout_ x) (delay_list_ x)) x)) in
  well_formed (x', w') /\
  ranges_of (b :: tk) ++ pending x' = ranges_of (delay_list_ x) /\
  Permutation (map address (delay_list_ x))
    (map address tk ++ map address (owned_buffers x')).
Proof.
  intros Hfull Hsorted Hts Hclock Hcap Hripe x'.
  destruct (Forall_ripe_parts (now_ x) (timeout_ x) _ Hfull) as [Hf1 Hf2].
  destruct (Forall_ripe_parts (now_ x) (timeout_ x) _ Hts) as [_ Ht2].
  rewrite Hripe in Hf1. inversion Hf1 as [|? ? [Hlen Hsome] _]; subst.
  pose proof (ripe_split (now_ x) (timeout_ x) (delay_list_ x)) as Hsplit.
  rewrite Hripe in Hsplit.
  split; [|split].
  - unfold well_formed. subst x'. cbn [fst snd]. fields.
    split; [exists b; split; [reflexivity|]; split; [exact Hlen | constructor]|].
    split; [lia|]. split; [exact Hf2|].
    split; [apply sorted_unripe_suffix, Hsorted|].
    eapply Forall_impl; [exact Ht2|]. cbn. intros; lia.
  - unfold pending. subst x'. fields. cbn [take ranges omap].
    rewrite app_nil_r, <- ranges_of_app. f_equal. exact Hsplit.
  - unfold owned_buffers. subst x'. fields.
    transitivity (map address ((b :: tk) ++
                    unripe_suffix (now_ x) (timeout_ x) (delay_list_ x)));
      [rewrite Hsplit; reflexivity|].
    cbn [app map]. rewrite map_app.
    apply Permutation_cons_app. reflexivity.
Qed.

(** The current buffer, filled by one more element, is sealed at [t]. *)
Lemma sealed_ok a w cb e t :
  well_formed (a, w) ->
  current_buffer_ a = Some cb ->
  S (current_buffer_size_ a) = buffer_capacity_ a ->
  steady_clock w <= t ->
  let sealed :=
    set_timestamp t
      (set_elements (<[current_buffer_size_ a := Some e]> (elements cb)) cb) in
  let L := delay_list_ a ++ [sealed] in
  Forall (full (buffer_capacity_ a)) L /\
  StronglySorted Z.le (map timestamp L) /\
  Forall (fun b' => timestamp b' <= t) L /\
  ranges_of L = pending a ++ [(elem_p e, elem_n e)] /\
  Permutation (map address L) (map address (owned_buffers a)).
Proof.
  intros ((cb' & Hcb' & Hlen & Hsome) & Hsize & Hfull & Hsorted & Hts) Hcb Hcap Ht
    sealed L.
  cbn [fst snd] in *. rewrite Hcb in Hcb'. injection Hcb' as <-.
  assert (Hk : (current_buffer_size_ a < length (elements cb))%nat) by lia.
  assert (Hel : elements sealed
                = take (current_buffer_size_ a) (elements cb) ++ [Some e]).
  { subst sealed. cbn. rewrite <- (take_snoc_insert _ _ _ Hk).
    symmetry. apply take_full. rewrite length_insert. lia. }
  assert (Hts' : Forall (fun b' => timestamp b' <= t) (delay_list_ a)).
  { eapply Forall_impl; [exact Hts|]. cbn. intros; lia. }
  split; [|split; [|split; [|split]]].
  - apply Forall_app. split; [exact Hfull|]. constructor; [|constructor].
    split.
    + subst sealed. cbn. rewrite length_insert. exact Hlen.
    + rewrite Hel. apply Forall_app. split; [exact Hsome|].
      constructor; [eexists; reflexivity | constructor].
  - apply sorted_snoc; [exact Hsorted | exact Hts'].
  - apply Forall_app. split; [exact Hts'|]. constructor; [cbn; lia | constructor].
  - subst L. rewrite ranges_of_app. unfold pending. rewrite Hcb.
    unfold ranges_of at 2. cbn [flat_map]. rewrite app_nil_r, Hel, ranges_app.
    cbn. rewrite app_assoc. reflexivity.
  - subst L. unfold owned_buffers. rewrite Hcb, map_app. cbn.
    symmetry. apply Permutation_cons_append.
Qed.
End Recycling.

Section AssertTrue.
Context {Allocator : Type}.
Variable pf : Platform.

Lemma wp_assert_true (Q : unit -> Obj Allocator -> Prop) E s :
  wp (assert pf true) Q E s = Q tt s.
Proof. rewrite wp_assert. destruct (NDEBUG pf); reflexivity. Qed.
End AssertTrue.

Create Rewrite HintDb wq.
#[local] Hint Rewrite @wp_bind @wp_ret @wp_fail @wp_noexcept
  @wp_this @wp_assign @wp_in_world @wp_instant @wp_sleep_until @wp_now
  @wp_assert_true @wp_current_buffer_full @wp_current_buffer_empty
  @wp_was_moved_from @wp_deref_current_buffer @wp_elements_upto : wq.

Ltac wq_simpl := repeat (autorewrite with wq; fields).

Section KeptUp.
Context {Allocator : Type}.
Variable pf : Platform.
Variable calm : bool.
Implicit Type a : deferred_reclamation_allocator Allocator.
Implicit Type s : Obj Allocator.

Lemma wp_allocate_cases (Q : nat -> Obj Allocator -> Prop) E a w :
  (hd alloc_succeeds (alloc_script w) = alloc_succeeds ->
   Q (next_address w)
     (a, mkWorld (steady_clock w) (clock_script w) (tl (alloc_script w))
           (dtor_script w) (S (next_address w)) (trace w))) ->
  (~ plentiful w ->
   E (a, mkWorld (steady_clock w) (clock_script w) (tl (alloc_script w))
           (dtor_script w) (next_address w) (trace w))) ->
  wp (from_world resource_allocate) Q E (a, w).
Proof.
  intros HQ HE. unfold wp, from_world, resource_allocate. cbn [fst snd].
  destruct (hd alloc_succeeds (alloc_script w)) eqn:Hhd;
    [apply HQ; reflexivity | apply HE | apply HE].
  all: intros Hp; destruct (plentiful_tail w Hp) as [Hh _]; congruence.
Qed.

Lemma wp_construct_cases p (Q : unit -> Obj Allocator -> Prop) E a w :
  (hd alloc_succeeds (alloc_script w) = alloc_succeeds ->
   Q tt
     (a, mkWorld (steady_clock w) (clock_script w) (tl (alloc_script w))
           (dtor_script w) (next_address w) (Constructed p :: trace w))) ->
  (~ plentiful w ->
   E (a, mkWorld (steady_clock w) (clock_script w) (tl (alloc_script w))
           (dtor_script w) (next_address w) (trace w))) ->
  wp (from_world (resource_construct p)) Q E (a, w).
Proof.
  intros HQ HE. unfold wp, from_world, resource_construct. cbn [fst snd].
  destruct (hd alloc_succeeds (alloc_script w)) eqn:Hhd;
    [apply HQ; reflexivity | apply HE | apply HE].
  all: intros Hp; destruct (plentiful_tail w Hp) as [Hh _]; congruence.
Qed.

Lemma onward_allocated w k :
  onward w (mkWorld (steady_clock w) (clock_script w) (tl (alloc_script w))
              (dtor_script w) k (trace w)).
Proof.
  unfold onward, quiet, plentiful. cbn. split; [lia|]. split; [tauto|].
  intros H. apply (plentiful_tail w H).
Qed.

(** [deallocate] when the element does not fill the current buffer. *)
Lemma pushed_ok a w cb e :
  well_formed (a, w) ->
  current_buffer_ a = Some cb ->
  S (current_buffer_size_ a) <> buffer_capacity_ a ->
  let a' := with_current_buffer_size_ (S (current_buffer_size_ a))
              (with_current_buffer_
                 (Some (set_elements
                          (<[current_buffer_size_ a := Some e]> (elements cb))
                          cb)) a) in
  well_formed (a', w) /\
  pending a' = pending a ++ [(elem_p e, elem_n e)] /\
  map address (owned_buffers a') = map address (owned_buffers a).
Proof.
  intros ((cb' & Hcb' & Hlen & Hsome) & Hsize & Hfull & Hsorted & Hts) Hcb Hne a'.
  cbn [fst snd] in *. rewrite Hcb in Hcb'. injection Hcb' as <-.
  assert (Hk : (current_buffer_size_ a < length (elements cb))%nat) by lia.
  split; [|split].
  - unfold well_formed. subst a'. cbn [fst snd]. fields.
    split; [eexists; split; [reflexivity|]; split|].
    + cbn. rewrite length_insert. exact Hlen.
    + cbn. rewrite (take_snoc_insert _ _ _ Hk). apply Forall_app.
      split; [exact Hsome | constructor; [eexists; reflexivity | constructor]].
    + split; [lia|]. split; [exact Hfull|]. split; assumption.
  - unfold pending. subst a'. fields. rewrite Hcb.
    rewrite (take_snoc_insert _ _ _ Hk), ranges_app. cbn.
    rewrite app_assoc. reflexivity.
  - unfold owned_buffers. subst a'. fields. rewrite Hcb. reflexivity.
Qed.

Lemma kept_up_deallocate p n s :
  well_formed s ->
  env_ok calm pf s ->
  wp (deallocate pf p n)
    (fun _ s' =>
       kept_up calm pf [(p, n)]
         (fun sigma => (plentiful (snd s) -> naps sigma = []) /\
                       (length (grabbed sigma) <= 1)%nat) s s')
    (may_fail calm) s.
Proof.
  intros Hwf Henv. destruct s as [a w].
  pose proof Hwf as ((cb & Hcb & Hlen & Hsome) & Hsize & Hfull & Hsorted & Hts).
  cbn [fst snd] in *.
  assert (Hnotfull : (current_buffer_size_ a =? buffer_capacity_ a)%nat = false)
    by (apply Nat.eqb_neq; lia).
  assert (Hroom : (current_buffer_size_ a <? length (elements cb))%nat = true)
    by (apply Nat.ltb_lt; lia).
  unfold deallocate, current_buffer_push_back. rewrite wp_noexcept.
  do 6 (wq_simpl; rewrite ?Hcb, ?Hnotfull, ?Hroom; cbn [negb]).
  set (e := mkElement p n (steady_clock w)).
  destruct (Nat.eqb_spec (S (current_buffer_size_ a)) (buffer_capacity_ a))
    as [Hcap|Hne].
  2: { wq_simpl.
       destruct (pushed_ok a w cb e Hwf Hcb Hne) as (Hwf' & Hpend & Hown).
       split; [exact Hwf'|]. split; [exact Henv|]. split; [split; reflexivity|].
       exists nothing. split; [apply did_object|]. split; [|split; [reflexivity|cbn; lia]].
       split; [cbn [gone nothing app fst]; exact Hpend|].
       cbn [grabbed freed nothing app fst]. rewrite Hown. reflexivity. }
  wq_simpl.
  set (t := steady_clock w + Z.of_nat (hd 0%nat (clock_script w))).
  set (sealed := set_timestamp t
                   (set_elements (<[current_buffer_size_ a := Some e]> (elements cb))
                      cb)).
  set (w2 := mkWorld t _ _ _ _ _).
  match goal with |- wp _ _ _ (?x, _) => set (a2 := x) end.
  destruct (sealed_ok a w cb e t Hwf Hcb Hcap ltac:(subst t; lia))
    as (HfullL & HsortedL & HtsL & HrangesL & HpermL).
  fold sealed in HfullL, HsortedL, HtsL, HrangesL, HpermL.
  assert (HLne : delay_list_ a ++ [sealed] <> [])
    by (intros H; apply app_eq_nil in H; destruct H; discriminate).
  set (L := delay_list_ a ++ [sealed]) in *.
  assert (Hobs : did nothing (a, w) (a2, w2)).
  { apply (did_any a a2 w w2 []); [apply (onward_observe w) | reflexivity]. }
  assert (Henv2 : env_ok calm pf (a2, w2)) by (eapply env_ok_did; eassumption).
  eapply wp_mono;
    [apply (did_purge_reuse pf calm (a2, w2));
       [exact HfullL | apply (env_ok_quiet _ _ _ Henv2)] | | auto].
  cbn [fst snd]. intros r [a3 w3] (Ha3 & Hc3 & Hr & Hdid3). cbn [fst snd] in *.
  change (now_ a2) with t in *. change (timeout_ a2) with (timeout_ a) in *.
  change (delay_list_ a2) with L in *.
  destruct (ripe_prefix t (timeout_ a) L) as [|b tk] eqn:Hripe;
    cbn [head tail] in Hr, Hdid3; subst r a3.
  2: { wq_simpl.
       assert (Hle23 : steady_clock w2 <= steady_clock w3) by (rewrite Hc3; lia).
       assert (Hcap2 : (1 <= buffer_capacity_ a2)%nat)
         by (change (buffer_capacity_ a2) with (buffer_capacity_ a); lia).
       destruct (recycled_ok a2 w2 w3 b tk HfullL HsortedL HtsL Hle23 Hcap2 Hripe)
         as (Hwf' & Hpend & Hperm).
       split; [exact Hwf'|].
       split; [eapply env_ok_did; [exact Henv2 | exact Hdid3]|].
       split; [split; reflexivity|].
       eexists. split; [eapply did_trans; [exact Hobs | exact Hdid3]|].
       split; [|split; [reflexivity | cbn; lia]].
       split.
       - exact (eq_trans Hpend HrangesL).
       - exact (Permutation_trans (Permutation_sym HpermL) Hperm). }
  wq_simpl.
  assert (Hkept : unripe_suffix t (timeout_ a) L = L).
  { pose proof (ripe_split t (timeout_ a) L) as H. rewrite Hripe in H. exact H. }
  rewrite Hkept in *. cbn [map ranges_of objects_of flat_map] in Hdid3.
  fold nothing in Hdid3.
  assert (Henv3 : env_ok calm pf (a2, w3)) by (eapply env_ok_did; eassumption).
  set (x4 := with_current_buffer_ None (with_delay_list_ L a2)).
  apply wp_try_catch. unfold buffer_new. wq_simpl.
  apply wp_allocate_cases.
  - intros Halloc. wq_simpl.
    set (fresh := mkBuffer (next_address w3) 0 (replicate (buffer_capacity_ a) None)).
    match goal with |- kept_up _ _ _ _ _ (_, ?x) => set (w5 := x) end.
    assert (Hdid5 : did (mkSummary [] [] [] [] [next_address w3])
                      (a2, w3) (a2, w5)).
    { apply (did_any a2 a2 w3 w5
               [BytesAllocated (next_address w3)
                  (buffer_bytes pf (buffer_capacity_ a))]); [|reflexivity].
      eapply onward_trans; [apply (onward_allocated w3 (S (next_address w3)))|].
      apply onward_emit. }
    split; [|split; [|split]].
    + unfold well_formed. cbn [fst snd]. fields.
      split; [exists fresh; split; [reflexivity|]; split;
                [apply length_replicate | constructor]|].
      change (buffer_capacity_ x4) with (buffer_capacity_ a).
      change (delay_list_ x4) with L.
      change (steady_clock w5) with (steady_clock w3).
      split; [lia|]. split; [exact HfullL|]. split; [exact HsortedL|].
      eapply Forall_impl; [exact HtsL|]. cbn beta. intros ? ?. rewrite Hc3.
      change (steady_clock w2) with t. lia.
    + eapply env_ok_did; [exact Henv3 | exact Hdid5].
    + split; reflexivity.
    + eexists. split;
        [eapply did_trans; [exact Hobs|]; eapply did_trans; [exact Hdid3|];
         exact Hdid5|].
      split; [|split; [reflexivity | cbn; lia]].
      split.
      * unfold pending. fields. cbn [take ranges omap gone and_then nothing app].
        rewrite app_nil_r. exact HrangesL.
      * cbn [grabbed freed and_then nothing app]. unfold owned_buffers at 2.
        fields. cbn [map]. apply Permutation_cons; [reflexivity|].
        symmetry. exact HpermL.
  - intros Hscarce.
    assert (Hcalm : calm = false).
    { destruct calm; [|reflexivity]. exfalso. apply Hscarce, Henv3. }
    split; [exact Hcalm|]. subst calm.
    assert (Hnd : NDEBUG pf = false) by exact Henv.
    set (w4 := mkWorld (steady_clock w3) (clock_script w3) (tl (alloc_script w3))
                  (dtor_script w3) (next_address w3) (trace w3)).
    assert (Hdid4 : did nothing (a2, w3) (a2, w4)).
    { apply (did_any a2 a2 w3 w4 []); [|reflexivity].
      apply (onward_allocated w3 (next_address w3)). }
    unfold deallocate_recover. wp_simpl.
    clearbody L. destruct L as [|oldest rest]; [congruence|].
    change (delay_list_ x4) with (oldest :: rest).
    change (timeout_ x4) with (timeout_ a). cbn iota. wp_simpl.
    set (ready := deadline (timestamp oldest) (timeout_ a)).
    set (t2 := steady_clock w3 `max` ready + Z.of_nat (hd 0%nat (clock_script w3))
               + Z.of_nat (hd 0%nat (tl (clock_script w3)))).
    match goal with |- wp _ _ _ (?x, ?y) => set (x6 := x); set (w6 := y) end.
    assert (Hdid6 : did (mkSummary [] [ready] [] [] []) (a2, w4) (x6, w6)).
    { apply (did_any a2 x6 w4 w6 [SleptUntil ready]); [|reflexivity].
      eapply onward_trans; [apply (onward_sleep ready w4)|].
      apply (onward_observe (sleep_world ready w4)). }
    eapply wp_mono;
      [apply (did_purge_reuse pf false (x6, w6)); [exact HfullL | discriminate]
      | | auto].
    cbn [fst snd]. intros r [a7 w7] (Ha7 & Hc7 & Hr & Hdid7). cbn [fst snd] in *.
    change (now_ x6) with t2 in *. change (timeout_ x6) with (timeout_ a) in *.
    change (delay_list_ x6) with (oldest :: rest) in *.
    wp_simpl.
    destruct (ripe_prefix t2 (timeout_ a) (oldest :: rest)) as [|b tk] eqn:Hripe2;
      cbn [head tail] in Hr, Hdid7; subst r a7; cbn [negb];
      [reflexivity|].
    wp_simpl.
    assert (Hle27 : steady_clock w2 <= steady_clock w7).
    { rewrite Hc7. destruct Hdid6 as [(H6 & _) _]. destruct Hdid4 as [(H4 & _) _].
      cbn [fst snd] in *. lia. }
    assert (Hcap6 : (1 <= buffer_capacity_ x6)%nat)
      by (change (buffer_capacity_ x6) with (buffer_capacity_ a); lia).
    destruct (recycled_ok x6 w2 w7 b tk HfullL HsortedL HtsL Hle27 Hcap6 Hripe2)
      as (Hwf' & Hpend & Hperm).
    split; [exact Hwf'|]. split; [exact Hnd|]. split; [split; reflexivity|].
    eexists. split;
      [eapply did_trans; [exact Hobs|]; eapply did_trans; [exact Hdid3|];
       eapply did_trans; [exact Hdid4|]; eapply did_trans; [exact Hdid6|];
       exact Hdid7|].
    split; [|split; [|cbn; lia]].
    + split.
      * exact (eq_trans Hpend HrangesL).
      * exact (Permutation_trans (Permutation_sym HpermL) Hperm).
    + intros Hp. exfalso. apply Hscarce.
      destruct Hobs as [(_ & _ & H1) _]. destruct Hdid3 as [(_ & _ & H3) _].
      apply H3, H1, Hp.
Qed.
End KeptUp.

Section KeptUpCalls.
Context {Allocator : Type}.
Variable pf : Platform.
Variable calm : bool.
Implicit Type a : deferred_reclamation_allocator Allocator.
Implicit Type s : Obj Allocator.

(** A step that leaves the buffers alone and makes no accounted call. *)
Lemma kept_up_same a a' w w' new :
  well_formed (a, w) ->
  env_ok calm pf (a, w) ->
  onward w w' ->
  trace w' = new ++ trace w ->
  summarize new = nothing ->
  current_buffer_ a' = current_buffer_ a ->
  current_buffer_size_ a' = current_buffer_size_ a ->
  delay_list_ a' = delay_list_ a ->
  timeout_ a' = timeout_ a ->
  buffer_capacity_ a' = buffer_capacity_ a ->
  kept_up calm pf [] (fun sigma => sigma = nothing) (a, w) (a', w').
Proof.
  intros ((cb & Hcb & Hlen & Hsome) & Hsize & Hfull & Hsorted & Hts) Henv Hon Htr
    Hsum H1 H2 H3 H4 H5.
  cbn [fst snd] in *.
  split; [|split; [|split]].
  - unfold well_formed. cbn [fst snd]. rewrite H1, H2, H3, H5.
    split; [exists cb; auto|]. split; [exact Hsize|]. split; [exact Hfull|].
    split; [exact Hsorted|].
    eapply Forall_impl; [exact Hts|]. cbn. destruct Hon as [Hc _]. intros; lia.
  - eapply env_ok_onward; [exact Henv | exact Hon].
  - split; assumption.
  - exists nothing. split; [|split; [|reflexivity]].
    + rewrite <- Hsum. apply did_any; assumption.
    + split.
      * cbn [gone nothing app fst]. unfold pending. rewrite H1, H2, H3, app_nil_r.
        reflexivity.
      * cbn [grabbed freed nothing app fst]. unfold owned_buffers.
        rewrite H1, H3. reflexivity.
Qed.

Lemma kept_up_weaken extra (P P' : summary -> Prop) s s' :
  kept_up calm pf extra P s s' ->
  (forall sigma, P sigma -> P' sigma) ->
  kept_up calm pf extra P' s s'.
Proof.
  intros (H1 & H2 & H3 & sigma & H4 & H5 & H6) HP.
  split; [exact H1|]. split; [exact H2|]. split; [exact H3|].
  exists sigma. auto.
Qed.

Lemma kept_up_allocate n s :
  well_formed s ->
  env_ok calm pf s ->
  wp (allocate pf n)
    (fun _ s' => kept_up calm pf [] (fun sigma => sigma = nothing) s s')
    (may_fail calm) s.
Proof.
  intros Hwf Henv. destruct s as [a w].
  pose proof Hwf as ((cb & Hcb & _) & _). cbn [fst snd] in Hcb.
  unfold allocate. wq_simpl. rewrite Hcb. cbn [negb]. wq_simpl.
  apply wp_allocate_cases.
  - intros _. wq_simpl.
    apply (kept_up_same a a w _ [Allocated (next_address w) n]);
      try reflexivity; try assumption.
    eapply onward_trans; [apply (onward_allocated w (S (next_address w)))|].
    apply onward_emit.
  - intros Hscarce. unfold may_fail. destruct calm; [|reflexivity].
    exfalso. apply Hscarce, Henv.
Qed.

Lemma kept_up_construct p s :
  well_formed s ->
  env_ok calm pf s ->
  wp (construct pf p)
    (fun _ s' => kept_up calm pf [] (fun sigma => sigma = nothing) s s')
    (may_fail calm) s.
Proof.
  intros Hwf Henv. destruct s as [a w].
  pose proof Hwf as ((cb & Hcb & _) & _). cbn [fst snd] in Hcb.
  unfold construct. wq_simpl. rewrite Hcb. cbn [negb]. wq_simpl.
  apply wp_construct_cases.
  - intros _.
    apply (kept_up_same a a w _ [Constructed p]);
      try reflexivity; try assumption.
    eapply onward_trans; [apply (onward_allocated w (next_address w))|].
    apply (onward_emit (Constructed p)).
  - intros Hscarce. unfold may_fail. destruct calm; [|reflexivity].
    exfalso. apply Hscarce, Henv.
Qed.

Lemma kept_up_destroy p s :
  well_formed s ->
  env_ok calm pf s ->
  wp (destroy pf p)
    (fun _ s' => kept_up calm pf [] (fun sigma => sigma = nothing) s s')
    (may_fail calm) s.
Proof.
  intros Hwf Henv. destruct s as [a w].
  pose proof Hwf as ((cb & Hcb & _) & _). cbn [fst snd] in Hcb.
  unfold destroy. wq_simpl. rewrite Hcb. cbn [negb]. wq_simpl.
  apply (kept_up_same a a w w []); try reflexivity; try assumption.
  apply onward_refl.
Qed.

Lemma kept_up_purge flavor s :
  well_formed s ->
  env_ok calm pf s ->
  wp (purge pf flavor)
    (fun _ s' =>
       kept_up calm pf []
         (fun sigma => grabbed sigma = [] /\
                       (flavor = opportunistic -> naps sigma = [])) s s')
    (may_fail calm) s.
Proof.
  intros Hwf Henv. destruct s as [a w].
  pose proof Hwf as ((cb & Hcb & Hlen & Hsome) & Hsize & Hfull & Hsorted & Hts).
  cbn [fst snd] in *.
  assert (Hlive : current_buffer_ a <> None) by congruence.
  pose proof (env_ok_quiet _ _ _ Henv) as Hq. cbn [snd] in Hq.
  pose proof (ripe_split (fst (observe_clock w)) (timeout_ a) (delay_list_ a))
    as Hsplit.
  destruct (Forall_ripe_parts (fst (observe_clock w)) (timeout_ a) _ Hfull)
    as [_ Hfk].
  destruct (Forall_ripe_parts (fst (observe_clock w)) (timeout_ a) _ Hts)
    as [_ Htk].
  destruct flavor.
  - eapply wp_mono;
      [apply (did_purge_opportunistic pf calm a w Hlive Hfull Hq) | | auto].
    cbn [fst snd]. intros _ [a' w'] (Ha & Hc & Hdid). cbn [fst snd] in *.
    subst a'.
    split; [|split; [|split]].
    + unfold well_formed. cbn [fst snd]. fields.
      split; [exists cb; auto|]. split; [exact Hsize|]. split; [exact Hfk|].
      split; [apply sorted_unripe_suffix, Hsorted|].
      eapply Forall_impl; [exact Htk|]. cbn beta.
      destruct Hdid as [(Hle & _) _]. cbn [fst snd] in Hle. intros; lia.
    + eapply env_ok_did; [exact Henv | exact Hdid].
    + split; reflexivity.
    + eexists. split; [exact Hdid|]. split; [|split; reflexivity].
      split.
      * cbn [gone fst]. unfold pending. fields. rewrite Hcb, app_nil_r, app_assoc.
        rewrite <- ranges_of_app. cbn [observe_clock fst] in Hsplit.
        rewrite Hsplit. reflexivity.
      * cbn [grabbed freed app fst]. unfold owned_buffers. fields. rewrite Hcb.
        cbn [map]. cbn [observe_clock fst] in Hsplit.
        rewrite <- Hsplit at 1. rewrite map_app.
        apply Permutation_middle.
  - eapply wp_mono;
      [apply (did_purge_exhaustive pf calm a w Hlive Hfull Hq) | | auto].
    cbn [fst snd]. intros _ [a' w'] (Ha & Hdid). cbn [fst snd] in *.
    subst a'.
    split; [|split; [|split]].
    + unfold well_formed. cbn [fst snd]. fields.
      split; [exists cb; auto|]. split; [exact Hsize|].
      split; [constructor|]. split; constructor.
    + eapply env_ok_did; [exact Henv | exact Hdid].
    + split; reflexivity.
    + eexists. split; [exact Hdid|]. split; [|split; [reflexivity|discriminate]].
      split.
      * cbn [gone fst]. unfold pending. fields. rewrite Hcb, app_nil_r.
        reflexivity.
      * cbn [grabbed freed app fst]. unfold owned_buffers. fields. rewrite Hcb.
        cbn [map]. apply Permutation_cons_append.
Qed.

Lemma kept_up_perform c s :
  well_formed s ->
  env_ok calm pf s ->
  wp (perform pf c)
    (fun _ s' =>
       kept_up calm pf (deallocations [c])
         (fun sigma => (length (grabbed sigma) <= 1)%nat /\
                       (plentiful (snd s) -> never_waits c -> naps sigma = []))
         s s')
    (may_fail calm) s.
Proof.
  intros Hwf Henv. destruct c as [n|p|p|p n|flavor| |d]; cbn [perform deallocations].
  - rewrite wp_bind. eapply wp_mono; [apply kept_up_allocate; assumption | | auto].
    cbn. intros _ s' H. eapply kept_up_weaken; [exact H|].
    intros sigma ->. cbn. split; [lia | reflexivity].
  - eapply wp_mono; [apply kept_up_construct; assumption | | auto].
    cbn. intros _ s' H. eapply kept_up_weaken; [exact H|].
    intros sigma ->. cbn. split; [lia | reflexivity].
  - eapply wp_mono; [apply kept_up_destroy; assumption | | auto].
    cbn. intros _ s' H. eapply kept_up_weaken; [exact H|].
    intros sigma ->. cbn. split; [lia | reflexivity].
  - eapply wp_mono; [apply (kept_up_deallocate pf calm); assumption | | auto].
    cbn. intros _ s' H. eapply kept_up_weaken; [exact H|].
    intros sigma [H1 H2]. split; [exact H2 | auto].
  - eapply wp_mono; [apply kept_up_purge; assumption | | auto].
    cbn. intros _ s' H. eapply kept_up_weaken; [exact H|].
    intros sigma [-> H2]. cbn. split; [lia|].
    intros _ Hnw. apply H2. unfold never_waits in Hnw.
    destruct flavor; [reflexivity | congruence].
  - destruct s as [a w]. unfold wp, move_constructor. cbn [fst snd].
    eapply kept_up_weaken.
    + apply (kept_up_same a _ w (snd (observe_clock w)) []);
        try reflexivity; try assumption.
      apply onward_observe.
    + intros sigma ->. cbn. split; [lia | reflexivity].
  - destruct s as [a w]. wq_simpl. eapply kept_up_weaken.
    + apply (kept_up_same a a w (elapse d w) []); try reflexivity; try assumption.
      apply onward_elapse.
    + intros sigma ->. cbn. split; [lia | reflexivity].
Qed.
End KeptUpCalls.

Lemma deallocations_cons c cs :
  deallocations (c :: cs) = deallocations [c] ++ deallocations cs.
Proof. destruct c; reflexivity. Qed.

Section WholeLife.
Context {Allocator : Type}.
Variable pf : Platform.
Variable calm : bool.
Implicit Type a : deferred_reclamation_allocator Allocator.
Implicit Type s : Obj Allocator.

Lemma kept_up_trans e1 e2 P1 P2 s s1 s2 :
  kept_up calm pf e1 P1 s s1 ->
  kept_up calm pf e2 P2 s1 s2 ->
  kept_up calm pf (e1 ++ e2) (fun _ => True) s s2.
Proof.
  intros (_ & _ & [Ht1 Hk1] & x & Hd1 & [Hg1 Hp1] & _)
         (Hwf & Henv & [Ht2 Hk2] & y & Hd2 & [Hg2 Hp2] & _).
  split; [exact Hwf|]. split; [exact Henv|].
  split; [split; congruence|].
  exists (and_then x y). split; [eapply did_trans; eassumption|].
  split; [|exact I]. split.
  - cbn [gone and_then]. rewrite <- app_assoc, Hg2, app_assoc, Hg1.
    symmetry. apply app_assoc.
  - cbn [grabbed freed and_then].
    transitivity (grabbed y ++ (grabbed x ++ map address (owned_buffers (fst s)))).
    { rewrite !app_assoc. apply Permutation_app_tail, Permutation_app_comm. }
    transitivity (grabbed y ++ (freed x ++ map address (owned_buffers (fst s1)))).
    { apply Permutation_app_head. exact Hp1. }
    transitivity (freed x ++ (grabbed y ++ map address (owned_buffers (fst s1)))).
    { rewrite !app_assoc. apply Permutation_app_tail, Permutation_app_comm. }
    rewrite <- app_assoc. apply Permutation_app_head. exact Hp2.
Qed.

Lemma kept_up_perform_all cs : forall s,
  well_formed s ->
  env_ok calm pf s ->
  wp (perform_all pf cs)
    (fun _ s' => kept_up calm pf (deallocations cs) (fun _ => True) s s')
    (may_fail calm) s.
Proof.
  induction cs as [|c cs IH]; intros [a w] Hwf Henv; cbn [perform_all].
  - wq_simpl. eapply kept_up_weaken.
    + apply (kept_up_same pf calm a a w w []); try reflexivity; try assumption.
      apply onward_refl.
    + auto.
  - rewrite wp_bind.
    eapply wp_mono; [apply (kept_up_perform pf calm); assumption | | auto].
    cbn beta. intros _ s1 H1.
    pose proof H1 as (Hwf1 & Henv1 & _).
    eapply wp_mono; [apply IH; assumption | | auto].
    cbn beta. intros _ s2 H2. rewrite deallocations_cons.
    eapply kept_up_trans; eassumption.
Qed.

(** The destructor returns every pending range and frees every buffer. *)
Lemma destructor_drains s :
  well_formed s ->
  env_ok calm pf s ->
  wp (destructor pf)
    (fun _ s' =>
       exists sigma, did sigma s s' /\
         gone sigma = pending (fst s) /\
         Permutation (freed sigma) (map address (owned_buffers (fst s))) /\
         grabbed sigma = [])
    (may_fail calm) s.
Proof.
  intros Hwf Henv. destruct s as [a w].
  pose proof Hwf as ((cb & Hcb & Hlen & Hsome) & Hsize & Hfull & Hsorted & Hts).
  cbn [fst snd] in *.
  unfold destructor. rewrite wp_noexcept. wq_simpl. rewrite Hcb. wq_simpl.
  rewrite Hcb. wq_simpl.
  set (now := steady_clock w + Z.of_nat (hd 0%nat (clock_script w))).
  set (stamped := set_timestamp now cb).
  match goal with |- wp _ _ _ (?x, ?y) => set (a1 := x); set (w1 := y) end.
  assert (Hobs : did nothing (a, w) (a1, w1)).
  { apply (did_any a a1 w w1 []); [apply (onward_observe w) | reflexivity]. }
  assert (Henv1 : env_ok calm pf (a1, w1)) by (eapply env_ok_did; eassumption).
  eapply wp_mono;
    [apply (did_purge_exhaustive pf calm a1 w1);
       [discriminate | exact Hfull | apply (env_ok_quiet _ _ _ Henv1)]
    | | auto].
  cbn [fst snd]. intros _ [a2 w2] (Ha2 & Hdid2). cbn [fst snd] in *. subst a2.
  change (delay_list_ a1) with (delay_list_ a) in *.
  change (timeout_ a1) with (timeout_ a) in *.
  assert (Henv2 : env_ok calm pf (a1, w2)) by (eapply env_ok_did; eassumption).
  assert (Hcb1 : current_buffer_ a1 = Some stamped) by reflexivity.
  assert (Hsz1 : current_buffer_size_ a1 = current_buffer_size_ a) by reflexivity.
  assert (Htm1 : timeout_ a1 = timeout_ a) by reflexivity.
  wq_simpl. rewrite ?Hsz1.
  destruct (Nat.eqb_spec (current_buffer_size_ a) 0) as [Hzero|Hsome_left];
    cbn [negb]; wq_simpl; rewrite ?Hcb1; wq_simpl; rewrite ?Hsz1, ?Htm1.
  - eapply wp_mono; [apply (did_buffer_delete pf calm stamped) | | auto].
    cbn beta. intros _ s3 [_ Hdid3].
    eexists. split;
      [eapply did_trans; [exact Hobs|]; eapply did_trans; [exact Hdid2|];
       exact Hdid3|].
    split; [|split; [|reflexivity]].
    + cbn [gone and_then nothing app]. unfold pending.
      rewrite Hcb, Hzero. cbn. rewrite ?app_nil_r. reflexivity.
    + cbn [freed and_then nothing app]. unfold owned_buffers. rewrite Hcb.
      cbn [map]. symmetry. apply Permutation_cons_append.
  - assert (Hle : (current_buffer_size_ a <=? length (elements cb))%nat = true)
      by (apply Nat.leb_le; lia).
    assert (Hreclaim : forall x v,
      (calm = true -> quiet v) ->
      wp (let* range := elements_upto stamped (current_buffer_size_ a)
          in reclaim_buffer_elements range)
        (fun _ s' =>
           fst s' = x /\
           did (mkSummary [] []
                  (ranges (take (current_buffer_size_ a) (elements cb)))
                  (objects (take (current_buffer_size_ a) (elements cb))) [])
             (x, v) s')
        (may_fail calm) (x, v)).
    { intros x v Hq. wq_simpl. change (elements stamped) with (elements cb).
      rewrite Hle.
      eapply wp_mono; [apply (did_reclaim calm) | | auto].
      - intros Hc. split; [apply Hq, Hc | exact Hsome].
      - cbn beta. intros _ s' [[Hx _] Hd]. split; [exact Hx | exact Hd]. }
    assert (Hfinish : forall nw v sigma,
      did sigma (a, w) (a, v) ->
      gone sigma = ranges_of (delay_list_ a) ->
      freed sigma = map address (delay_list_ a) ->
      grabbed sigma = [] ->
      (calm = true -> quiet v) ->
      wp (let* range := elements_upto stamped (current_buffer_size_ a)
          in reclaim_buffer_elements range)
        (fun _ s' =>
           wp (let* a0 := this in buffer_delete pf (current_buffer_ a0))
             (fun _ s'0 =>
                exists sigma0, did sigma0 (a, w) s'0 /\
                  gone sigma0 = pending a /\
                  Permutation (freed sigma0) (map address (owned_buffers a)) /\
                  grabbed sigma0 = [])
             (may_fail calm) s')
        (may_fail calm)
        (with_now_ nw (with_delay_list_ [] a1), v)).
    { intros nw v sigma Hd Hg Hf Hgr Hq.
      eapply wp_mono; [apply Hreclaim, Hq | | auto].
      cbn beta. intros _ [a3 w3] [Ha3 Hdid3]. cbn [fst] in Ha3. subst a3.
      wq_simpl.
      eapply wp_mono; [apply (did_buffer_delete pf calm stamped) | | auto].
      cbn beta. intros _ s4 [_ Hdid4].
      eexists. split;
        [eapply did_trans; [eapply did_objects; exact Hd|];
         eapply did_trans; [exact Hdid3|]; exact Hdid4|].
      split; [|split].
      - cbn [gone and_then app]. unfold pending. rewrite Hcb, Hg, ?app_nil_r.
        reflexivity.
      - cbn [freed and_then app]. rewrite Hf. unfold owned_buffers. rewrite Hcb.
        cbn [map]. rewrite ?app_nil_r. symmetry. apply Permutation_cons_append.
      - cbn [grabbed and_then app]. rewrite Hgr. reflexivity. }
    change (timestamp stamped) with now.
    destruct (now <=? deadline now (timeout_ a));
      rewrite ?wp_sleep_until, ?wp_ret; cbn beta; cbn [fst snd].
    + eapply (Hfinish _ _ _
                (did_objects _ _ _ a a _ _
                   (did_trans _ _ _ _ _ Hobs
                      (did_trans _ _ _ _ _ Hdid2
                         (did_any _ a w2 (sleep_world (deadline now (timeout_ a)) w2)
                            [SleptUntil (deadline now (timeout_ a))]
                            (onward_sleep _ _) eq_refl))))).
      * cbn. rewrite ?app_nil_r. reflexivity.
      * cbn. rewrite ?app_nil_r. reflexivity.
      * reflexivity.
      * intros Hc. apply onward_sleep. apply (env_ok_quiet _ _ _ Henv2 Hc).
    + eapply (Hfinish _ _ _ (did_objects _ _ _ a a _ _
                             (did_trans _ _ _ _ _ Hobs Hdid2))).
      * reflexivity.
      * reflexivity.
      * reflexivity.
      * apply (env_ok_quiet _ _ _ Henv2).
Qed.
End WholeLife.

Lemma well_formed_pipeline_invariant {Allocator} (s : Obj Allocator) :
  well_formed s -> pipeline_invariant (fst s).
Proof.
  intros ((cb & Hcb & _) & Hsize & Hfull & Hsorted & _).
  split; [congruence|]. split; [exact Hsize|]. split; assumption.
Qed.

Section Construction.
Context {Allocator : Type}.
Variable pf : Platform.
Variable calm : bool.

Lemma constructor_builds (allocator : Allocator) d k w :
  (if calm then quiet w /\ plentiful w /\ (1 <= k)%nat else NDEBUG pf = false) ->
  match constructor pf allocator d k w with
  | (Ret a, w1) =>
      well_formed (a, w1) /\ env_ok calm pf (a, w1) /\
      timeout_ a = duration_cast d /\ buffer_capacity_ a = k /\
      pending a = [] /\
      exists sigma, did sigma (a, w) (a, w1) /\
        gone sigma = [] /\ freed sigma = [] /\
        grabbed sigma = map address (owned_buffers a)
  | (Fail _, _) => calm = false
  end.
Proof.
  intros Hpre. unfold constructor, construct_object.
  set (t := fst (observe_clock w)). set (w0 := snd (observe_clock w)).
  set (init := mkAllocator allocator (duration_cast d) t allocator k 0%nat None []).
  change (observe_clock w) with (t, w0). cbn iota.
  assert (Hwp : wp (assert pf (1 <=? k)%nat >> constructor_body pf)
            (fun _ s' =>
               well_formed s' /\ env_ok calm pf s' /\
               timeout_ (fst s') = duration_cast d /\
               buffer_capacity_ (fst s') = k /\
               pending (fst s') = [] /\
               exists sigma, did sigma (init, w) s' /\
                 gone sigma = [] /\ freed sigma = [] /\
                 grabbed sigma = map address (owned_buffers (fst s')))
            (may_fail calm) (init, w0)).
  { assert (Hbody : (1 <= k)%nat ->
              wp (constructor_body pf)
                (fun _ s' =>
                   well_formed s' /\ env_ok calm pf s' /\
                   timeout_ (fst s') = duration_cast d /\
                   buffer_capacity_ (fst s') = k /\
                   pending (fst s') = [] /\
                   exists sigma, did sigma (init, w) s' /\
                     gone sigma = [] /\ freed sigma = [] /\
                     grabbed sigma = map address (owned_buffers (fst s')))
                (may_fail calm) (init, w0)).
    { intros Hk. unfold constructor_body, buffer_new. wq_simpl.
      apply wp_allocate_cases.
      - intros _. wq_simpl.
        match goal with |- context [(_, ?x)] => set (w1 := x) end.
        assert (Hdid : did (mkSummary [] [] [] [] [next_address w0])
                         (init, w) (init, w1)).
        { apply (did_any init init w w1
                   [BytesAllocated (next_address w0) (buffer_bytes pf k)]);
            [|reflexivity].
          eapply onward_trans; [apply (onward_observe w)|].
          eapply onward_trans; [apply (onward_allocated w0 (S (next_address w0)))|].
          apply onward_emit. }
        split; [|split; [|split; [|split; [|split]]]].
        + unfold well_formed. subst init. cbn [fst snd]. fields.
          split; [eexists; split; [reflexivity|]; split;
                    [apply length_replicate | constructor]|].
          split; [lia|]. split; [constructor|]. split; constructor.
        + destruct Hdid as [(_ & Hq & Hp) _]. unfold env_ok. cbn [snd] in *.
          destruct calm; [|exact Hpre]. destruct Hpre as (H1 & H2 & _). auto.
        + reflexivity.
        + reflexivity.
        + reflexivity.
        + eexists. split; [exact Hdid|]. repeat split.
      - intros Hscarce. unfold may_fail. destruct calm; [|reflexivity].
        exfalso. apply Hscarce. destruct Hpre as (_ & Hp & _).
        apply (onward_observe w), Hp. }
    rewrite wp_bind, wp_assert.
    destruct calm.
    - destruct Hpre as (_ & _ & Hk).
      assert ((1 <=? k)%nat = true) as -> by (apply Nat.leb_le; exact Hk).
      destruct (NDEBUG pf); apply Hbody, Hk.
    - rewrite Hpre. destruct (Nat.leb_spec 1 k); [apply Hbody; assumption|].
      reflexivity. }
  unfold wp in Hwp. subst init.
  destruct (bind _ _ _) as [[[]|f] [a w1]]; cbn iota; [|exact Hwp].
  cbn [fst snd] in Hwp.
  destruct Hwp as (H1 & H2 & H3 & H4 & H5 & sigma & Hd & H6 & H7 & H8).
  repeat (split; [assumption|]).
  exists sigma. split; [exact (did_objects _ _ _ _ _ _ _ Hd)|].
  repeat split; assumption.
Qed.
End Construction.

Section LifeAccounted.
Context {Allocator : Type}.
Variable pf : Platform.
Variable calm : bool.

Lemma lifetime_accounted (allocator : Allocator) d k cs w :
  (if calm then quiet w /\ plentiful w /\ (1 <= k)%nat else NDEBUG pf = false) ->
  match lifetime pf allocator d k cs true w with
  | (Ret _, w') =>
      exists new, trace w' = new ++ trace w /\
        calls returned new = deallocations cs /\
        Permutation (calls grabbed_buffer new) (calls freed_buffer new)
  | (Fail _, _) => calm = false
  end.
Proof.
  intros Hpre. unfold lifetime.
  pose proof (constructor_builds pf calm allocator d k w Hpre) as Hc.
  destruct (constructor pf allocator d k w) as [[a|f] w1]; [|exact Hc].
  destruct Hc as (Hwf & Henv & _ & _ & Hpend & x & Hdx & Hgx & Hfx & Hrx).
  assert (Hwp : wp (perform_all pf cs >> destructor pf)
            (fun _ s' =>
               exists new, trace (snd s') = new ++ trace w /\
                 calls returned new = deallocations cs /\
                 Permutation (calls grabbed_buffer new) (calls freed_buffer new))
            (may_fail calm) (a, w1)).
  { rewrite wp_bind.
    eapply wp_mono; [apply (kept_up_perform_all pf calm); assumption | | auto].
    cbn beta. intros _ s1 (Hwf1 & Henv1 & _ & y & Hdy & [Hgy Hpy] & _).
    eapply wp_mono; [apply (destructor_drains pf calm); assumption | | auto].
    cbn beta. intros _ s2 (z & Hdz & Hgz & Hfz & Hrz).
    pose proof (did_trans _ _ _ _ _ Hdx (did_trans _ _ _ _ _ Hdy Hdz)) as Hall.
    destruct Hall as [_ (new & Hnew & Hsum)]. cbn [fst snd] in *.
    exists new. split; [exact Hnew|].
    assert (Hg : calls returned new = gone (and_then x (and_then y z)))
      by (rewrite <- Hsum; reflexivity).
    assert (Ha : calls grabbed_buffer new = grabbed (and_then x (and_then y z)))
      by (rewrite <- Hsum; reflexivity).
    assert (Hf : calls freed_buffer new = freed (and_then x (and_then y z)))
      by (rewrite <- Hsum; reflexivity).
    rewrite Hg, Ha, Hf. cbn [gone grabbed freed and_then].
    rewrite Hgx, Hfx, Hrz, Hgz, Hrx. cbn [app]. rewrite app_nil_r.
    split.
    - rewrite Hgy, Hpend. reflexivity.
    - rewrite Hfz.
      transitivity (grabbed y ++ map address (owned_buffers a));
        [apply Permutation_app_comm | exact Hpy]. }
  unfold wp in Hwp.
  destruct (bind _ _ _) as [[[]|f] [a' w']]; exact Hwp.
Qed.
End LifeAccounted.

(** X3.  In a build with assertions, whatever the environment does
    (failing allocations, throwing destructors, any clock): if a whole
    life of an allocator (construction, any calls, destruction) returns
    normally, then the ranges returned to the underlying allocator during
    that life are exactly the ranges handed to [deallocate], each once
    and in the order of the [deallocate] calls; and the buffers handed
    back to the byte allocator are, up to order, the buffers obtained
    from it. *)
Theorem a_finished_life_returns_everything_in_order {Allocator}
    (pf : Platform) (allocator : Allocator) (d : user_duration) (k : nat)
    (cs : list call) (w w' : World) :
  NDEBUG pf = false ->
  lifetime pf allocator d k cs true w = (Ret tt, w') ->
  exists new, trace w' = new ++ trace w /\
    calls returned new = deallocations cs /\
    Permutation (calls grabbed_buffer new) (calls freed_buffer new).
Proof.
  intros Hnd Hrun.
  pose proof (lifetime_accounted pf false allocator d k cs w Hnd) as H.
  rewrite Hrun in H. exact H.
Qed.

Lemma a_finished_life_returns_everything_in_order_witness :
  exists new,
    trace (snd (lifetime debug_build 7%nat (ticks 5) 1%nat
                  [call_deallocate 40%nat 1%nat; call_elapse 6;
                   call_deallocate 41%nat 2%nat; call_purge opportunistic]
                  true (calm 100)))
    = new ++ trace (calm 100) /\
    calls returned new = [(40%nat, 1%nat); (41%nat, 2%nat)] /\
    Permutation (calls grabbed_buffer new) (calls freed_buffer new).
Proof.
  apply (a_finished_life_returns_everything_in_order debug_build 7%nat
           (ticks 5) 1%nat
           [call_deallocate 40%nat 1%nat; call_elapse 6;
            call_deallocate 41%nat 2%nat; call_purge opportunistic]
           (calm 100)).
  - reflexivity.
  - vm_compute. reflexivity.
Defined.

(** X4.  In either build, when no call into the underlying allocator
    ([allocate], [construct]) throws and no value destructor throws, a
    whole life of an allocator of capacity at least 1 does return,
    whatever the calls and the clock; it returns every
    deallocated range exactly once, in the order of the [deallocate]
    calls, and frees exactly the buffers it obtained. *)
Theorem a_calm_life_finishes {Allocator}
    (pf : Platform) (allocator : Allocator) (d : user_duration) (k : nat)
    (cs : list call) (w : World) :
  quiet w -> plentiful w -> (1 <= k)%nat ->
  exists w' new,
    lifetime pf allocator d k cs true w = (Ret tt, w') /\
    trace w' = new ++ trace w /\
    calls returned new = deallocations cs /\
    Permutation (calls grabbed_buffer new) (calls freed_buffer new).
Proof.
  intros Hq Hp Hk.
  pose proof (lifetime_accounted pf true allocator d k cs w
                (conj Hq (conj Hp Hk))) as H.
  destruct (lifetime pf allocator d k cs true w) as [[[]|f] w'];
    [|discriminate].
  destruct H as (new & H1 & H2 & H3). exists w', new. auto.
Qed.

Lemma a_calm_life_finishes_witness :
  exists w' new,
    lifetime release_build 7%nat (ticks 5) 2%nat
      [call_deallocate 40%nat 1%nat; call_deallocate 41%nat 1%nat;
       call_deallocate 42%nat 3%nat; call_purge exhaustive]
      true (mkWorld 100 [1; 0; 2]%nat [] [] 1%nat [])
    = (Ret tt, w') /\
    trace w' = new ++ [] /\
    calls returned new = [(40%nat, 1%nat); (41%nat, 1%nat); (42%nat, 3%nat)] /\
    Permutation (calls grabbed_buffer new) (calls freed_buffer new).
Proof.
  apply (a_calm_life_finishes release_build 7%nat (ticks 5) 2%nat
           [call_deallocate 40%nat 1%nat; call_deallocate 41%nat 1%nat;
            call_deallocate 42%nat 3%nat; call_purge exhaustive]
           (mkWorld 100 [1; 0; 2]%nat [] [] 1%nat [])).
  - constructor.
  - constructor.
  - lia.
Defined.

Lemma kept_up_ledger {Allocator} calm pf extra P (s s' : Obj Allocator) :
  kept_up calm pf extra P s s' -> ledger s' = ledger s ++ extra.
Proof.
  intros (_ & _ & _ & sigma & Hd & [Hg _] & _). unfold ledger.
  destruct (did_calls _ _ _ Hd) as (_ & _ & -> & _).
  rewrite <- !app_assoc. f_equal. exact Hg.
Qed.

(** X5.  In a build with assertions, whatever the environment does: a
    public call (allocate, construct, destroy, deallocate, purge of
    either flavor, handing the pipeline to a move-constructed object, or
    time passing) that returns normally from a well-formed allocator
    leaves it well-formed, so with a non-null current buffer that has
    room, full sealed buffers and non-decreasing timestamps; it keeps
    the timeout and the capacity; and the ledger (ranges returned so far,
    then ranges pending, oldest first) grows by exactly the range
    handed to [deallocate], if any. *)
Theorem a_returning_call_keeps_the_pipeline {Allocator} (pf : Platform)
    (c : call) (s s' : Obj Allocator) :
  NDEBUG pf = false ->
  well_formed s ->
  perform pf c s = (Ret tt, s') ->
  well_formed s' /\ pipeline_invariant (fst s') /\
  timeout_ (fst s') = timeout_ (fst s) /\
  buffer_capacity_ (fst s') = buffer_capacity_ (fst s) /\
  ledger s' = ledger s ++ deallocations [c].
Proof.
  intros Hnd Hwf Hrun.
  pose proof (kept_up_perform pf false c s Hwf Hnd) as H.
  unfold wp in H. rewrite Hrun in H.
  pose proof (kept_up_ledger _ _ _ _ _ _ H) as Hl.
  destruct H as (Hwf' & _ & [Ht Hk] & _).
  split; [exact Hwf'|]. split; [apply well_formed_pipeline_invariant, Hwf'|].
  auto.
Qed.

Lemma example_allocator_well_formed w :
  100 <= steady_clock w -> well_formed (example_allocator, w).
Proof.
  intros Hw.
  split; [eexists; split; [reflexivity|]; split; [reflexivity|constructor]|].
  split; [cbn; lia|]. split; [repeat constructor; eexists; reflexivity|].
  split; [repeat constructor|]. repeat constructor. cbn. lia.
Qed.

Lemma a_returning_call_keeps_the_pipeline_witness :
  well_formed
    (snd (perform debug_build (call_deallocate 41%nat 2%nat) example_pipeline)) /\
  pipeline_invariant
    (fst (snd (perform debug_build (call_deallocate 41%nat 2%nat)
                 example_pipeline))) /\
  timeout_ (fst (snd (perform debug_build (call_deallocate 41%nat 2%nat)
                        example_pipeline))) = 5 /\
  buffer_capacity_ (fst (snd (perform debug_build (call_deallocate 41%nat 2%nat)
                                example_pipeline))) = 1%nat /\
  ledger (snd (perform debug_build (call_deallocate 41%nat 2%nat)
                 example_pipeline))
  = [(40%nat, 1%nat)] ++ [(41%nat, 2%nat)].
Proof.
  apply (a_returning_call_keeps_the_pipeline debug_build
           (call_deallocate 41%nat 2%nat) example_pipeline
           (snd (perform debug_build (call_deallocate 41%nat 2%nat)
                   example_pipeline))).
  - reflexivity.
  - apply (example_allocator_well_formed
             (example_world [0; 0; 1]%nat [alloc_throws_bad_alloc])).
    cbn. lia.
  - vm_compute. reflexivity.
Defined.

(** C5 fails on the code.  The invariant holds after construction and
    after a first [deallocate]; a second [deallocate], whose recovery
    from [std::bad_alloc] wakes up exactly at the deadline and so finds
    nothing to recycle (the defect of C3), returns normally in a build
    without assertions and leaves the allocator with a null current
    buffer. *)
Theorem a_returning_deallocate_can_break_the_invariant :
  exists a w1 s1 s2,
    constructor release_build 7%nat (ticks 5) 1%nat third_allocation_fails
    = (Ret a, w1) /\
    pipeline_invariant a /\
    perform release_build (call_deallocate 40%nat 1%nat) (a, w1)
    = (Ret tt, s1) /\
    pipeline_invariant (fst s1) /\
    perform release_build (call_deallocate 41%nat 2%nat) s1 = (Ret tt, s2) /\
    current_buffer_ (fst s1) <> None /\
    current_buffer_ (fst s2) = None /\
    ~ pipeline_invariant (fst s2).
Proof.
  eexists. eexists. eexists. eexists.
  split; [vm_compute; reflexivity|].
  split.
  { split; [discriminate|]. split; [cbn; lia|]. split; constructor. }
  split; [vm_compute; reflexivity|].
  split.
  { split; [discriminate|]. split; [cbn; lia|].
    split; [repeat constructor; eexists; reflexivity | repeat constructor]. }
  split; [vm_compute; reflexivity|].
  split; [discriminate|]. split; [reflexivity|].
  intros [H _]. apply H. reflexivity.
Qed.

(** X6.  In either build, when no call into the underlying allocator
    ([allocate], [construct]) throws and no value destructor throws,
    every public call on a well-formed allocator returns and leaves it
    well-formed, in an environment that is still calm; it obtains at
    most one buffer from the byte allocator, and it sleeps only if it is
    an exhaustive purge. *)
Theorem a_call_in_a_calm_environment_returns {Allocator} (pf : Platform)
    (c : call) (s : Obj Allocator) :
  well_formed s -> quiet (snd s) -> plentiful (snd s) ->
  exists s' new,
    perform pf c s = (Ret tt, s') /\ well_formed s' /\
    quiet (snd s') /\ plentiful (snd s') /\
    trace (snd s') = new ++ trace (snd s) /\
    (length (calls grabbed_buffer new) <= 1)%nat /\
    (never_waits c -> calls slept new = []).
Proof.
  intros Hwf Hq Hp.
  pose proof (kept_up_perform pf true c s Hwf (conj Hq Hp)) as H.
  unfold wp in H. destruct (perform pf c s) as [[[]|f] s']; [|discriminate].
  destruct H as (Hwf' & [Hq' Hp'] & _ & sigma & [_ (new & Hnew & Hsum)] & _
                 & Hg & Hn).
  exists s', new. subst sigma. cbn [summarize grabbed naps] in Hg, Hn.
  split; [reflexivity|]. do 5 (split; [assumption|]). intros Hnw. apply Hn; assumption.
Qed.

Lemma a_call_in_a_calm_environment_returns_witness :
  exists s' new,
    perform release_build (call_deallocate 41%nat 2%nat)
      (example_allocator, calm 103) = (Ret tt, s') /\
    well_formed s' /\ quiet (snd s') /\ plentiful (snd s') /\
    trace (snd s') = new ++ [] /\
    (length (calls grabbed_buffer new) <= 1)%nat /\
    (never_waits (call_deallocate 41%nat 2%nat) -> calls slept new = []).
Proof.
  apply (a_call_in_a_calm_environment_returns release_build
           (call_deallocate 41%nat 2%nat) (example_allocator, calm 103)).
  - apply example_allocator_well_formed. cbn. lia.
  - constructor.
  - constructor.
Defined.

Section WpfRules.
Context {St : Type}.
Implicit Type s : St.
Implicit Type E : failure -> St -> Prop.

Lemma wpf_bind {R R'} (m : M St R) (k : R -> M St R') Q E s :
  wpf (bind m k) Q E s = wpf m (fun r s' => wpf (k r) Q E s') E s.
Proof. unfold wpf, bind. destruct (m s) as [[r|f] s']; reflexivity. Qed.

Lemma wpf_ret {R} (r : R) Q E s : wpf (ret r) Q E s = Q r s.
Proof. reflexivity. Qed.

Lemma wpf_fail {R} f (Q : R -> St -> Prop) E s : wpf (fail f) Q E s = E f s.
Proof. reflexivity. Qed.

Lemma wpf_noexcept {R} c (m : M St R) Q E s :
  wpf (noexcept c m) Q E s = wpf m Q (fun f s' => E (escaped c f) s') s.
Proof.
  unfold wpf, noexcept, escaped.
  destruct (m s) as [[r|[e| | |]] s']; destruct c; reflexivity.
Qed.

Lemma wpf_try_catch {R} (body handler : M St R) Q E s :
  wpf (try_catch_bad_alloc body handler) Q E s
  = wpf body Q
      (fun f s' => match f with
                   | Throw std_bad_alloc => wpf handler Q E s'
                   | _ => E f s'
                   end) s.
Proof.
  unfold wpf, try_catch_bad_alloc.
  destruct (body s) as [[r|[[]| | |]] s']; reflexivity.
Qed.

(** A function known to return may be run under any failure condition. *)
Lemma wpf_wp {R} (m : M St R) (Q' : R -> St -> Prop) (E' : St -> Prop)
    Q E s :
  wp m Q' E' s ->
  (forall s', ~ E' s') ->
  (forall r s', Q' r s' -> Q r s') ->
  wpf m Q E s.
Proof.
  unfold wp, wpf. intros H HE HQ.
  destruct (m s) as [[r|f] s']; [auto | destruct (HE _ H)].
Qed.

(** What is known of a run whatever its failure carries over. *)
Lemma wpf_of_wp {R} (m : M St R) (Q' : R -> St -> Prop) (E' : St -> Prop)
    Q E s :
  wp m Q' E' s ->
  (forall r s', Q' r s' -> Q r s') ->
  (forall f s', E' s' -> E f s') ->
  wpf m Q E s.
Proof.
  unfold wp, wpf. destruct (m s) as [[r|f] s']; auto.
Qed.

Lemma wpf_outcome {R} (m : M St R) (K : outcome R -> St -> Prop) s :
  wpf m (fun r s' => K (Ret r) s') (fun f s' => K (Fail f) s') s ->
  exists o s', m s = (o, s') /\ K o s'.
Proof.
  unfold wpf. destruct (m s) as [[r|f] s']; eauto.
Qed.

Lemma wpf_exact {R} (m : M St R) o s :
  wpf m (fun r s' => (Ret r, s') = o) (fun f s' => (Fail f, s') = o) s ->
  m s = o.
Proof.
  unfold wpf. destruct (m s) as [[r|f] s']; auto.
Qed.
End WpfRules.

Section WpfMembers.
Context {Allocator : Type}.
Variable pf : Platform.
Implicit Type s : Obj Allocator.
Implicit Type E : failure -> Obj Allocator -> Prop.

Lemma wpf_this Q E s : wpf this Q E s = Q (fst s) s.
Proof. reflexivity. Qed.

Lemma wpf_assign f (Q : unit -> Obj Allocator -> Prop) E s :
  wpf (assign f) Q E s = Q tt (f (fst s), snd s).
Proof. reflexivity. Qed.

Lemma wpf_in_world f (Q : unit -> Obj Allocator -> Prop) E s :
  wpf (in_world f) Q E s = Q tt (fst s, f (snd s)).
Proof. reflexivity. Qed.

Lemma wpf_instant (Q : TimePoint -> Obj Allocator -> Prop) E s :
  wpf instant Q E s = Q (steady_clock (snd s)) s.
Proof. reflexivity. Qed.

Lemma wpf_sleep_until d (Q : unit -> Obj Allocator -> Prop) E s :
  wpf (sleep_until d) Q E s = Q tt (fst s, sleep_world d (snd s)).
Proof. reflexivity. Qed.

Lemma wpf_now (Q : TimePoint -> Obj Allocator -> Prop) E s :
  wpf TimeoutClock_now Q E s
  = Q (fst (observe_clock (snd s))) (fst s, snd (observe_clock (snd s))).
Proof. reflexivity. Qed.

Lemma wpf_assert c (Q : unit -> Obj Allocator -> Prop) E s :
  wpf (assert pf c) Q E s
  = if NDEBUG pf then Q tt s else if c then Q tt s else E AssertionFailed s.
Proof. unfold assert. destruct (NDEBUG pf), c; reflexivity. Qed.

Lemma wpf_assert_true (Q : unit -> Obj Allocator -> Prop) E s :
  wpf (assert pf true) Q E s = Q tt s.
Proof. rewrite wpf_assert. destruct (NDEBUG pf); reflexivity. Qed.

Lemma wpf_current_buffer_full (Q : bool -> Obj Allocator -> Prop) E s :
  wpf current_buffer_full Q E s
  = Q (current_buffer_size_ (fst s) =? buffer_capacity_ (fst s))%nat s.
Proof. reflexivity. Qed.

Lemma wpf_current_buffer_empty (Q : bool -> Obj Allocator -> Prop) E s :
  wpf current_buffer_empty Q E s = Q (current_buffer_size_ (fst s) =? 0)%nat s.
Proof. reflexivity. Qed.

Lemma wpf_was_moved_from (Q : bool -> Obj Allocator -> Prop) E s :
  wpf was_moved_from Q E s
  = Q (match current_buffer_ (fst s) with None => true | Some _ => false end) s.
Proof. reflexivity. Qed.

Lemma wpf_deref_current_buffer (Q : DelayBuffer -> Obj Allocator -> Prop) E s :
  wpf deref_current_buffer Q E s
  = match current_buffer_ (fst s) with
    | Some b => Q b s
    | None => E UndefinedBehaviour s
    end.
Proof.
  unfold deref_current_buffer. rewrite wpf_bind, wpf_this.
  destruct (current_buffer_ (fst s)); reflexivity.
Qed.

Lemma wpf_resource_allocate (Q : nat -> Obj Allocator -> Prop) E s :
  wpf (from_world resource_allocate) Q E s
  = let w := snd s in
    let w' := mkWorld (steady_clock w) (clock_script w) (tl (alloc_script w))
                (dtor_script w) in
    match hd alloc_succeeds (alloc_script w) with
    | alloc_succeeds =>
        Q (next_address w) (fst s, w' (S (next_address w)) (trace w))
    | alloc_throws_bad_alloc =>
        E (Throw std_bad_alloc) (fst s, w' (next_address w) (trace w))
    | alloc_throws_other =>
        E (Throw allocator_error) (fst s, w' (next_address w) (trace w))
    end.
Proof.
  unfold wpf, from_world, resource_allocate.
  destruct (hd alloc_succeeds (alloc_script (snd s))); reflexivity.
Qed.

(** The withholding purge when the head of the delay list is not ripe. *)
Lemma wpf_purge_reuse_unripe (Q : option DelayBuffer -> Obj Allocator -> Prop)
    E s :
  ripe_prefix (now_ (fst s)) (timeout_ (fst s)) (delay_list_ (fst s)) = [] ->
  wpf (purge_delay_list_and_reuse_existing_buffer pf) Q E s = Q None s.
Proof.
  intros H. unfold purge_delay_list_and_reuse_existing_buffer.
  rewrite wpf_bind, wpf_this.
  destruct (delay_list_ (fst s)) as [|oldest rest]; [reflexivity|].
  cbn [reuse_loop]. rewrite wpf_bind, wpf_this, leb_ripe.
  cbn [ripe_prefix] in H.
  destruct (ripe (now_ (fst s)) (timeout_ (fst s)) oldest); [discriminate|].
  reflexivity.
Qed.
End WpfMembers.

Create Rewrite HintDb wpf.
#[local] Hint Rewrite @wpf_bind @wpf_ret @wpf_fail @wpf_noexcept @wpf_try_catch
  @wpf_this @wpf_assign @wpf_in_world @wpf_instant @wpf_sleep_until @wpf_now
  @wpf_assert_true @wpf_current_buffer_full @wpf_current_buffer_empty
  @wpf_was_moved_from @wpf_deref_current_buffer @wpf_resource_allocate : wpf.

Ltac wpf_simpl := repeat (autorewrite with wpf; fields).

Section Sealing.
Context {Allocator : Type}.
Variable pf : Platform.
Implicit Type a : deferred_reclamation_allocator Allocator.
Implicit Type s : Obj Allocator.

(** Sealed at [t], the list has a head, whose deadline is
    [first_deadline]. *)
Lemma sealed_head a t b :
  exists oldest rest,
    delay_list_ a ++ [b] = oldest :: rest /\
    (timestamp b = t ->
     timestamp oldest + timeout_ a = first_deadline a t).
Proof.
  unfold first_deadline. destruct (delay_list_ a) as [|oldest rest]; cbn.
  - exists b, []. split; [reflexivity|]. intros ->. reflexivity.
  - exists oldest, (rest ++ [b]). split; reflexivity.
Qed.

Lemma unripe_at_the_deadline now timeout oldest rest :
  fits (timestamp oldest + timeout) ->
  now <= timestamp oldest + timeout ->
  ripe_prefix now timeout (oldest :: rest) = [].
Proof.
  intros Hfit H. cbn [ripe_prefix]. unfold ripe.
  rewrite (deadline_fits _ _ Hfit).
  destruct (Z.gtb_spec now (timestamp oldest + timeout)); [lia | reflexivity].
Qed.

Lemma ripe_past_the_deadline now timeout oldest rest :
  fits (timestamp oldest + timeout) ->
  timestamp oldest + timeout < now ->
  ripe_prefix now timeout (oldest :: rest)
  = oldest :: ripe_prefix now timeout rest.
Proof.
  intros Hfit H. cbn [ripe_prefix]. unfold ripe.
  rewrite (deadline_fits _ _ Hfit).
  destruct (Z.gtb_spec now (timestamp oldest + timeout)); [reflexivity | lia].
Qed.

(** The destructor of an object without a current buffer does nothing. *)
Lemma destructor_without_a_buffer s :
  current_buffer_ (fst s) = None -> destructor pf s = (Ret tt, s).
Proof.
  intros H. apply wpf_exact. unfold destructor. rewrite wpf_noexcept.
  wpf_simpl. rewrite H. wpf_simpl. reflexivity.
Qed.

(** [deallocate] on an object without a current buffer. *)
Lemma deallocate_without_a_buffer p n s :
  current_buffer_ (fst s) = None ->
  fst (deallocate pf p n s)
  = Fail (if NDEBUG pf then UndefinedBehaviour else AssertionFailed).
Proof.
  intros H.
  assert (Hwp : wpf (deallocate pf p n)
            (fun _ _ => False)
            (fun f _ => f = if NDEBUG pf then UndefinedBehaviour
                            else AssertionFailed) s).
  { unfold deallocate, current_buffer_push_back. rewrite wpf_noexcept.
    wpf_simpl. rewrite H. cbn [negb]. rewrite wpf_assert.
    destruct (NDEBUG pf) eqn:Hnd; [|reflexivity].
    wpf_simpl. rewrite !wpf_assert, !Hnd. wpf_simpl.
    rewrite !wpf_assert, !Hnd. wpf_simpl. rewrite H. reflexivity. }
  unfold wpf in Hwp. destruct (deallocate pf p n s) as [[r|f] s'];
    [tauto | cbn; congruence].
Qed.
End Sealing.

(** The steps of [deallocate] up to the sealing of the current buffer,
    for an element that fills it. *)
Ltac seal Hcb Hnotfull Hroom Hcap :=
  unfold deallocate, current_buffer_push_back; rewrite wpf_noexcept;
  do 6 (wpf_simpl; rewrite ?Hcb, ?Hnotfull, ?Hroom; cbn [negb]);
  rewrite ?(proj2 (Nat.eqb_eq _ _) Hcap); wpf_simpl.

(** X7.  A [deallocate] that does not fill the current buffer only
    records the range: in either build it returns, it reads no clock,
    allocates nothing and makes no call at all (the world is as it was),
    and the range is the newest pending one. *)
Theorem a_deallocate_that_does_not_fill_touches_nothing {Allocator}
    (pf : Platform) (p : pointer) (n : nat) (s : Obj Allocator) :
  well_formed s ->
  S (current_buffer_size_ (fst s)) <> buffer_capacity_ (fst s) ->
  exists a',
    deallocate pf p n s = (Ret tt, (a', snd s)) /\
    well_formed (a', snd s) /\
    pending a' = pending (fst s) ++ [(p, n)] /\
    delay_list_ a' = delay_list_ (fst s) /\
    current_buffer_size_ a' = S (current_buffer_size_ (fst s)).
Proof.
  intros Hwf Hne. destruct s as [a w].
  pose proof Hwf as ((cb & Hcb & Hlen & Hsome) & Hsize & _).
  cbn [fst snd] in *.
  assert (Hnotfull : (current_buffer_size_ a =? buffer_capacity_ a)%nat = false)
    by (apply Nat.eqb_neq; lia).
  assert (Hroom : (current_buffer_size_ a <? length (elements cb))%nat = true)
    by (apply Nat.ltb_lt; lia).
  destruct (pushed_ok a w cb (mkElement p n (steady_clock w)) Hwf Hcb Hne)
    as (Hwf' & Hpend & _).
  exists (with_current_buffer_size_ (S (current_buffer_size_ a))
            (with_current_buffer_
               (Some (set_elements
                        (<[current_buffer_size_ a
                           := Some (mkElement p n (steady_clock w))]>
                           (elements cb)) cb)) a)).
  split; [|split; [exact Hwf'|split; [exact Hpend|split; reflexivity]]].
  apply wpf_exact.
  unfold deallocate, current_buffer_push_back. rewrite wpf_noexcept.
  do 6 (wpf_simpl; rewrite ?Hcb, ?Hnotfull, ?Hroom; cbn [negb]).
  rewrite (proj2 (Nat.eqb_neq _ _) Hne). wpf_simpl. reflexivity.
Qed.

Lemma a_deallocate_that_does_not_fill_touches_nothing_witness :
  exists a',
    deallocate release_build 41%nat 2%nat
      (with_delay_list_ [] (mkAllocator 7%nat 5 100 7%nat 2%nat 0%nat
                              (Some (mkBuffer 2 0 [None; None])) []),
       example_world [1]%nat [alloc_throws_bad_alloc])
    = (Ret tt, (a', example_world [1]%nat [alloc_throws_bad_alloc])) /\
    pending a' = [] ++ [(41%nat, 2%nat)].
Proof.
  destruct (a_deallocate_that_does_not_fill_touches_nothing release_build
              41%nat 2%nat
              (with_delay_list_ [] (mkAllocator 7%nat 5 100 7%nat 2%nat 0%nat
                                      (Some (mkBuffer 2 0 [None; None])) []),
               example_world [1]%nat [alloc_throws_bad_alloc]))
    as (a' & H1 & _ & H2 & _).
  - split; [eexists; split; [reflexivity|]; split; [reflexivity|constructor]|].
    split; [cbn; lia|]. split; [constructor|]. split; constructor.
  - cbn. lia.
  - exists a'. split; [exact H1 | exact H2].
Defined.

Lemma sealed_unripe {Allocator} (a : deferred_reclamation_allocator Allocator)
    t b :
  timestamp b = t ->
  fits (first_deadline a t) ->
  t <= first_deadline a t ->
  ripe_prefix t (timeout_ a) (delay_list_ a ++ [b]) = [].
Proof.
  intros Hb Hfit Ht. destruct (sealed_head a t b) as (oldest & rest & -> & Hd).
  apply unripe_at_the_deadline; rewrite (Hd Hb); assumption.
Qed.

(** X8.  The recovery of [deallocate] is for [std::bad_alloc] alone.
    When the element fills the current buffer, the deadline of the
    oldest sealed buffer fits the 64-bit count of the clock and has not
    passed, and the byte allocator throws anything else, the error leaves
    [deallocate] (as [std::terminate] where [deallocate] is [noexcept]):
    nothing has slept, the clock was read once, for the sealing, and no
    call was made.  The range is kept, pending, but the object is left
    without a current buffer, and its destructor, taking it for
    moved-from, returns at once and reclaims nothing. *)
Theorem an_allocation_error_other_than_bad_alloc_escapes {Allocator}
    (pf : Platform) (p : pointer) (n : nat) (s : Obj Allocator) :
  well_formed s ->
  S (current_buffer_size_ (fst s)) = buffer_capacity_ (fst s) ->
  fits (first_deadline (fst s) (next_reading (snd s))) ->
  next_reading (snd s) <= first_deadline (fst s) (next_reading (snd s)) ->
  hd alloc_succeeds (alloc_script (snd s)) = alloc_throws_other ->
  exists s',
    deallocate pf p n s
    = (Fail (if nothrow_destructible pf then Terminated
             else Throw allocator_error), s') /\
    trace (snd s') = trace (snd s) /\
    steady_clock (snd s') = next_reading (snd s) /\
    clock_script (snd s') = tl (clock_script (snd s)) /\
    current_buffer_ (fst s') = None /\
    pending (fst s') = pending (fst s) ++ [(p, n)] /\
    destructor pf s' = (Ret tt, s').
Proof.
  intros Hwf Hcap Hfit Hunripe Halloc. destruct s as [a w].
  pose proof Hwf as ((cb & Hcb & Hlen & Hsome) & Hsize & _).
  unfold next_reading in *. cbn [fst snd observe_clock] in *.
  assert (Hnotfull : (current_buffer_size_ a =? buffer_capacity_ a)%nat = false)
    by (apply Nat.eqb_neq; lia).
  assert (Hroom : (current_buffer_size_ a <? length (elements cb))%nat = true)
    by (apply Nat.ltb_lt; lia).
  set (t := steady_clock w + Z.of_nat (hd 0%nat (clock_script w))) in *.
  destruct (sealed_ok a w cb (mkElement p n (steady_clock w)) t Hwf Hcb Hcap
              ltac:(subst t; lia)) as (_ & _ & _ & Hranges & _).
  pose (K := fun (o : outcome unit) (s' : Obj Allocator) =>
                 o = Fail (if nothrow_destructible pf then Terminated
                           else Throw allocator_error) /\
                 trace (snd s') = trace w /\
                 steady_clock (snd s') = t /\
                 clock_script (snd s') = tl (clock_script w) /\
                 current_buffer_ (fst s') = None /\
                 pending (fst s') = pending a ++ [(p, n)] /\
                 destructor pf s' = (Ret tt, s')).
  destruct (wpf_outcome (deallocate pf p n) K (a, w))
    as (o & s' & Hrun & -> & H);
    [|exists s'; split; [exact Hrun | exact H]].
  seal Hcb Hnotfull Hroom Hcap.
  rewrite wpf_purge_reuse_unripe
    by (fields; apply sealed_unripe;
        [reflexivity | exact Hfit | exact Hunripe]).
  unfold buffer_new. wpf_simpl. rewrite Halloc. unfold K. cbn [escaped fst snd].
  split; [reflexivity|]. split; [reflexivity|]. split; [reflexivity|].
  split; [reflexivity|]. split; [reflexivity|].
  split; [|apply destructor_without_a_buffer; reflexivity].
  unfold pending. fields. rewrite app_nil_r. exact Hranges.
Qed.

Lemma an_allocation_error_other_than_bad_alloc_escapes_witness :
  exists s',
    deallocate debug_build 41%nat 2%nat
      (example_allocator, example_world [0]%nat [alloc_throws_other])
    = (Fail Terminated, s') /\
    calls slept (trace (snd s')) = [] /\
    destructor debug_build s' = (Ret tt, s').
Proof.
  destruct (an_allocation_error_other_than_bad_alloc_escapes debug_build
              41%nat 2%nat
              (example_allocator, example_world [0]%nat [alloc_throws_other]))
    as (s' & H1 & H2 & _ & _ & _ & _ & H3).
  - apply example_allocator_well_formed. cbn. lia.
  - reflexivity.
  - fits_now.
  - cbn. lia.
  - reflexivity.
  - exists s'. split; [exact H1|]. split; [rewrite H2; reflexivity | exact H3].
Defined.

(** ** What the first purge of a [deallocate] leaves to the allocation *)

Section Unasked.
Context {Allocator : Type}.
Variable pf : Platform.
Implicit Type s : Obj Allocator.

(** Reclaiming elements and freeing a buffer ask nothing of [allocate]. *)
Lemma unasked_destroy_n n : forall first since s,
  wp (destroy_n first n since)
    (fun _ s' => alloc_script (snd s') = alloc_script (snd s))
    (fun s' => alloc_script (snd s') = alloc_script (snd s)) s.
Proof.
  induction n as [|n IH]; intros first since [a w]; cbn [destroy_n].
  - reflexivity.
  - rewrite wp_bind. unfold wp at 1, from_world, run_value_dtor.
    cbn [fst snd]. destruct (hd false (dtor_script w)); [reflexivity|].
    eapply wp_mono; [apply IH | |]; cbn; auto.
Qed.

Lemma unasked_reclaim range : forall s,
  wp (reclaim_buffer_elements range)
    (fun _ s' => alloc_script (snd s') = alloc_script (snd s))
    (fun s' => alloc_script (snd s') = alloc_script (snd s)) s.
Proof.
  induction range as [|[elem|] range IH]; intros [a w];
    cbn [reclaim_buffer_elements]; [reflexivity | | reflexivity].
  rewrite wp_bind.
  eapply wp_mono; [apply unasked_destroy_n | | auto].
  cbn beta. intros _ [a1 w1] Hw. cbn [snd] in Hw.
  wp_simpl.
  eapply wp_mono; [apply IH | |]; cbn; intros; congruence.
Qed.

Lemma unasked_buffer_delete b s :
  wp (buffer_delete pf b)
    (fun _ s' => alloc_script (snd s') = alloc_script (snd s))
    (fun s' => alloc_script (snd s') = alloc_script (snd s)) s.
Proof.
  unfold buffer_delete. destruct (NDEBUG pf) eqn:Hnd; destruct b; wp_simpl;
    reflexivity.
Qed.

(** The withholding purge asks nothing of [allocate], and when it has
    no buffer to hand back it has done nothing at all. *)
Lemma unasked_reuse_loop l : forall reuse s,
  wp (reuse_loop pf l reuse)
    (fun r s' => alloc_script (snd s') = alloc_script (snd s) /\
                 (r = None -> reuse = None /\ s' = s))
    (fun s' => alloc_script (snd s') = alloc_script (snd s)) s.
Proof.
  induction l as [|oldest rest IH]; intros reuse [a w]; cbn [reuse_loop].
  - wp_simpl. auto.
  - wp_simpl. destruct (now_ a <=? deadline (timestamp oldest) (timeout_ a));
      [wp_simpl; auto|].
    wp_simpl. destruct (_ <=? _)%nat; [|reflexivity].
    eapply wp_mono; [apply unasked_reclaim | | auto].
    cbn beta. intros _ [a1 w1] Hw. cbn [snd] in Hw.
    wp_simpl. destruct reuse as [kept|].
    + wp_simpl.
      eapply wp_mono; [apply unasked_buffer_delete | |].
      * cbn beta. intros _ [a2 w2] Hw2. cbn [snd] in Hw2.
        eapply wp_mono; [apply IH | |]; cbn [fst snd].
        -- intros r s' [H1 H2]. split; [congruence|].
           intros ->. destruct (H2 eq_refl) as [H _]. discriminate H.
        -- intros; congruence.
      * cbn [snd]. intros; congruence.
    + eapply wp_mono; [apply IH | |]; cbn [fst snd].
      * intros r s' [H1 H2]. split; [congruence|].
        intros ->. destruct (H2 eq_refl) as [H _]. discriminate H.
      * intros; congruence.
Qed.

Lemma unasked_purge_reuse s :
  wp (purge_delay_list_and_reuse_existing_buffer pf)
    (fun r s' => alloc_script (snd s') = alloc_script (snd s) /\
                 (r = None -> s' = s))
    (fun s' => alloc_script (snd s') = alloc_script (snd s)) s.
Proof.
  unfold purge_delay_list_and_reuse_existing_buffer. wp_simpl.
  eapply wp_mono; [apply unasked_reuse_loop | |]; cbn; auto.
  intros r s' [H1 H2]. split; [exact H1|]. intros Hr. apply H2, Hr.
Qed.
End Unasked.

(** C10.  The recovery inside [deallocate] is for [std::bad_alloc]
    alone.  On a well-formed allocator whose current buffer the element
    fills, when the next call of the byte allocator's [allocate] throws
    anything else and [deallocate] does make that call (no sealed buffer
    could be reused), the error leaves [deallocate], as [std::terminate]
    where [deallocate] is [noexcept], and the recovery has not run:
    nothing has slept and nothing has been reclaimed (the trace is
    unchanged), the clock has been read once only, for the sealing, and
    the cached time is that reading. *)
Theorem only_bad_alloc_is_recovered {Allocator} (pf : Platform)
    (p : pointer) (n : nat) (s s' : Obj Allocator) (o : outcome unit) :
  well_formed s ->
  S (current_buffer_size_ (fst s)) = buffer_capacity_ (fst s) ->
  hd alloc_succeeds (alloc_script (snd s)) = alloc_throws_other ->
  deallocate pf p n s = (o, s') ->
  alloc_script (snd s') <> alloc_script (snd s) ->
  o = Fail (if nothrow_destructible pf then Terminated
            else Throw allocator_error) /\
  alloc_script (snd s') = tl (alloc_script (snd s)) /\
  trace (snd s') = trace (snd s) /\
  steady_clock (snd s') = next_reading (snd s) /\
  clock_script (snd s') = tl (clock_script (snd s)) /\
  now_ (fst s') = next_reading (snd s).
Proof.
  intros Hwf Hcap Halloc Hrun Hasked. destruct s as [a w].
  pose proof Hwf as ((cb & Hcb & Hlen & Hsome) & Hsize & _).
  unfold next_reading in *. cbn [fst snd observe_clock] in *.
  assert (Hnotfull : (current_buffer_size_ a =? buffer_capacity_ a)%nat = false)
    by (apply Nat.eqb_neq; lia).
  assert (Hroom : (current_buffer_size_ a <? length (elements cb))%nat = true)
    by (apply Nat.ltb_lt; lia).
  set (t := steady_clock w + Z.of_nat (hd 0%nat (clock_script w))) in *.
  pose (K := fun (o : outcome unit) (s' : Obj Allocator) =>
               alloc_script (snd s') = alloc_script w \/
               (o = Fail (if nothrow_destructible pf then Terminated
                          else Throw allocator_error) /\
                alloc_script (snd s') = tl (alloc_script w) /\
                trace (snd s') = trace w /\
                steady_clock (snd s') = t /\
                clock_script (snd s') = tl (clock_script w) /\
                now_ (fst s') = t)).
  destruct (wpf_outcome (deallocate pf p n) K (a, w))
    as (o' & s'' & Hrun' & HK).
  2: { rewrite Hrun in Hrun'. injection Hrun' as <- <-.
       destruct HK as [Hsame | HK]; [contradiction | exact HK]. }
  seal Hcb Hnotfull Hroom Hcap.
  eapply wpf_of_wp; [apply unasked_purge_reuse | |].
  - cbn [fst snd]. intros [kept|] s2 [Hs2 Hnone].
    + wpf_simpl. cbn [negb]. wpf_simpl. left. exact Hs2.
    + rewrite (Hnone eq_refl). wpf_simpl. unfold buffer_new. wpf_simpl.
      rewrite Halloc. cbn iota. right. cbn.
      repeat split; reflexivity.
  - cbn [fst snd]. intros f s2 Hs2. left. exact Hs2.
Qed.

Lemma only_bad_alloc_is_recovered_witness :
  fst (deallocate (mkPlatform 16 16 true false) 41%nat 2%nat
         (example_allocator, example_world [2]%nat [alloc_throws_other]))
  = Fail (Throw allocator_error) /\
  trace (snd (snd (deallocate (mkPlatform 16 16 true false) 41%nat 2%nat
                     (example_allocator,
                      example_world [2]%nat [alloc_throws_other]))))
  = [].
Proof.
  destruct (only_bad_alloc_is_recovered (mkPlatform 16 16 true false)
              41%nat 2%nat
              (example_allocator, example_world [2]%nat [alloc_throws_other])
              (snd (deallocate (mkPlatform 16 16 true false) 41%nat 2%nat
                      (example_allocator,
                       example_world [2]%nat [alloc_throws_other])))
              (fst (deallocate (mkPlatform 16 16 true false) 41%nat 2%nat
                      (example_allocator,
                       example_world [2]%nat [alloc_throws_other]))))
    as (H1 & _ & H2 & _).
  - apply example_allocator_well_formed. cbn. lia.
  - reflexivity.
  - reflexivity.
  - apply surjective_pairing.
  - vm_compute. discriminate.
  - split; [exact H1 | exact H2].
Defined.

(** X9.  The recovery of [deallocate] from [std::bad_alloc] relies on
    the clock having passed the deadline it slept until.  When the
    element fills the current buffer, the deadline of the oldest sealed
    buffer fits the 64-bit count of the clock and has not passed, the
    byte allocator throws [std::bad_alloc], and after [sleep_until] the
    clock reads exactly that deadline, the second purge
    withholds nothing ([now_ <= timestamp + timeout_]): a build with
    assertions stops at [assert(current_buffer_ != nullptr)], and a build
    without them returns normally with a null current buffer.  From then
    on every [deallocate] dereferences that null pointer, and the
    destructor, taking the object for moved-from, reclaims nothing. *)
Theorem recovery_at_the_deadline_leaves_no_current_buffer {Allocator}
    (pf : Platform) (p : pointer) (n : nat) (s : Obj Allocator)
    (d1 : nat) (script : list nat) :
  well_formed s ->
  S (current_buffer_size_ (fst s)) = buffer_capacity_ (fst s) ->
  clock_script (snd s) = d1 :: 0%nat :: 0%nat :: script ->
  fits (first_deadline (fst s) (next_reading (snd s))) ->
  next_reading (snd s) <= first_deadline (fst s) (next_reading (snd s)) ->
  hd alloc_succeeds (alloc_script (snd s)) = alloc_throws_bad_alloc ->
  exists s',
    deallocate pf p n s
    = (if NDEBUG pf then Ret tt else Fail AssertionFailed, s') /\
    current_buffer_ (fst s') = None /\
    trace (snd s')
    = SleptUntil (first_deadline (fst s) (next_reading (snd s)))
        :: trace (snd s) /\
    steady_clock (snd s') = first_deadline (fst s) (next_reading (snd s)) /\
    pending (fst s') = pending (fst s) ++ [(p, n)] /\
    (forall p' n',
       fst (deallocate pf p' n' s')
       = Fail (if NDEBUG pf then UndefinedBehaviour else AssertionFailed)) /\
    destructor pf s' = (Ret tt, s').
Proof.
  intros Hwf Hcap Hscript Hfit Hunripe Halloc. destruct s as [a w].
  pose proof Hwf as ((cb & Hcb & Hlen & Hsome) & Hsize & _).
  unfold next_reading in *. cbn [fst snd observe_clock] in *.
  assert (Hnotfull : (current_buffer_size_ a =? buffer_capacity_ a)%nat = false)
    by (apply Nat.eqb_neq; lia).
  assert (Hroom : (current_buffer_size_ a <? length (elements cb))%nat = true)
    by (apply Nat.ltb_lt; lia).
  set (t := steady_clock w + Z.of_nat (hd 0%nat (clock_script w))) in *.
  set (sealed := set_timestamp t
                   (set_elements
                      (<[current_buffer_size_ a
                         := Some (mkElement p n (steady_clock w))]>
                         (elements cb)) cb)).
  destruct (sealed_ok a w cb (mkElement p n (steady_clock w)) t Hwf Hcb Hcap
              ltac:(subst t; lia)) as (_ & _ & _ & Hranges & _).
  fold sealed in Hranges.
  destruct (sealed_head a t sealed) as (oldest & rest & HL & Hd).
  specialize (Hd eq_refl).
  assert (Hdl : deadline (timestamp oldest) (timeout_ a) = first_deadline a t)
    by (rewrite deadline_fits; rewrite Hd; auto).
  set (ready := first_deadline a t) in *.
  pose (K := fun (o : outcome unit) (s' : Obj Allocator) =>
                 o = (if NDEBUG pf then Ret tt else Fail AssertionFailed) /\
                 current_buffer_ (fst s') = None /\
                 trace (snd s') = SleptUntil ready :: trace w /\
                 steady_clock (snd s') = ready /\
                 pending (fst s') = pending a ++ [(p, n)] /\
                 (forall p' n',
                    fst (deallocate pf p' n' s')
                    = Fail (if NDEBUG pf then UndefinedBehaviour
                            else AssertionFailed)) /\
                 destructor pf s' = (Ret tt, s')).
  destruct (wpf_outcome (deallocate pf p n) K (a, w))
    as (o & s' & Hrun & -> & H);
    [|exists s'; split; [exact Hrun | exact H]].
  seal Hcb Hnotfull Hroom Hcap.
  rewrite wpf_purge_reuse_unripe
    by (fields; apply sealed_unripe;
        [reflexivity | exact Hfit | exact Hunripe]).
  unfold buffer_new. wpf_simpl. rewrite Halloc. cbn iota.
  unfold deallocate_recover.
  wpf_simpl. fold t. fold sealed. rewrite HL. cbn iota. wpf_simpl.
  rewrite Hdl. rewrite Hscript. cbn [tl hd Z.of_nat].
  assert (Hclock : Z.max t ready + Z.of_nat 0 + Z.of_nat 0 = ready) by lia.
  rewrite wpf_purge_reuse_unripe
    by (fields; rewrite Hclock; apply unripe_at_the_deadline;
        rewrite Hd; [exact Hfit | lia]).
  wpf_simpl. cbn [negb]. rewrite wpf_assert.
  assert (Hpend : ranges_of (oldest :: rest) ++ [] = pending a ++ [(p, n)])
    by (rewrite app_nil_r, <- HL; exact Hranges).
  unfold K. destruct (NDEBUG pf) eqn:Hnd; wpf_simpl; cbn [escaped fst snd].
  - split; [reflexivity|]. split; [reflexivity|]. split; [reflexivity|].
    split; [exact Hclock|]. split; [exact Hpend|].
    split; [intros; rewrite deallocate_without_a_buffer by reflexivity;
            rewrite Hnd; reflexivity|].
    apply destructor_without_a_buffer. reflexivity.
  - split; [reflexivity|]. split; [reflexivity|]. split; [reflexivity|].
    split; [exact Hclock|]. split; [exact Hpend|].
    split; [intros; rewrite deallocate_without_a_buffer by reflexivity;
            rewrite Hnd; reflexivity|].
    apply destructor_without_a_buffer. reflexivity.
Qed.

Lemma recovery_at_the_deadline_leaves_no_current_buffer_witness :
  exists s',
    deallocate release_build 41%nat 2%nat
      (example_allocator,
       example_world [0; 0; 0]%nat [alloc_throws_bad_alloc])
    = (Ret tt, s') /\
    current_buffer_ (fst s') = None /\
    steady_clock (snd s') = 105 /\
    fst (deallocate release_build 42%nat 1%nat s') = Fail UndefinedBehaviour.
Proof.
  destruct (recovery_at_the_deadline_leaves_no_current_buffer release_build
              41%nat 2%nat
              (example_allocator,
               example_world [0; 0; 0]%nat [alloc_throws_bad_alloc])
              0%nat [])
    as (s' & H1 & H2 & _ & H3 & _ & H4 & _).
  - apply example_allocator_well_formed. cbn. lia.
  - reflexivity.
  - reflexivity.
  - fits_now.
  - cbn. lia.
  - reflexivity.
  - exists s'. split; [exact H1|]. split; [exact H2|].
    split; [exact H3 | apply H4].
Defined.

(** C3 fails on the code.  An allocator of capacity 1 and timeout 5 is
    constructed at time 100 and two ranges are deallocated.  The second
    [deallocate] seals its buffer, finds nothing to reuse and gets
    [std::bad_alloc] from [buffer_new]; it sleeps until the deadline 105
    of the oldest buffer, reads the clock, which says exactly 105, and
    purges again: the test [now_ <= timestamp + timeout_] withholds
    everything, so no buffer is recycled.  Without assertions
    [deallocate] returns normally with a null current buffer and both
    buffers still on the delay list, and the next [deallocate]
    dereferences the null pointer; with assertions it stops at
    [assert(current_buffer_ != nullptr)]. *)
Theorem the_recovery_can_come_back_empty_handed :
  exists a w1 s1 s2,
    constructor release_build 7%nat (ticks 5) 1%nat third_allocation_fails
    = (Ret a, w1) /\
    deallocate release_build 40%nat 1%nat (a, w1) = (Ret tt, s1) /\
    map timestamp (delay_list_ (fst s1)) = [100] /\
    deallocate release_build 41%nat 2%nat s1 = (Ret tt, s2) /\
    calls slept (trace (snd s2)) = [105] /\
    steady_clock (snd s2) = 105 /\
    now_ (fst s2) = 105 /\
    map timestamp (delay_list_ (fst s2)) = [100; 100] /\
    calls returned (trace (snd s2)) = [] /\
    current_buffer_ (fst s2) = None /\
    fst (deallocate debug_build 41%nat 2%nat s1) = Fail AssertionFailed /\
    fst (deallocate release_build 42%nat 1%nat s2) = Fail UndefinedBehaviour.
Proof.
  eexists. eexists. eexists. eexists.
  split; [vm_compute; reflexivity|].
  split; [vm_compute; reflexivity|].
  split; [reflexivity|].
  split; [vm_compute; reflexivity|].
  repeat split; reflexivity.
Qed.

Lemma ledger_grows {Allocator} sigma extra (s s' : Obj Allocator) :
  did sigma s s' ->
  gone sigma ++ pending (fst s') = pending (fst s) ++ extra ->
  ledger s' = ledger s ++ extra.
Proof.
  intros Hd Hg. unfold ledger.
  destruct (did_calls _ _ _ Hd) as (_ & _ & -> & _).
  rewrite <- !app_assoc. f_equal. exact Hg.
Qed.

Lemma did_new {Allocator} sigma (s s' : Obj Allocator) :
  did sigma s s' ->
  exists new, trace (snd s') = new ++ trace (snd s) /\
    calls slept new = naps sigma /\
    calls grabbed_buffer new = grabbed sigma /\
    calls returned new = gone sigma.
Proof.
  intros [_ (new & Hnew & <-)]. exists new. cbn. auto.
Qed.

(** X10.  When the element fills the current buffer, the deadline of
    the oldest sealed buffer fits the 64-bit count of the clock and has
    passed at the sealing time, and no value destructor throws,
    [deallocate] recycles that buffer as the new current buffer, in
    either build and whatever the byte allocator would have done: it
    returns, without sleeping and without obtaining a buffer, after
    returning the ranges of that buffer (and of any other ripe one) to
    the underlying allocator. *)
Theorem a_ripe_buffer_is_recycled_without_allocating {Allocator}
    (pf : Platform) (p : pointer) (n : nat) (s : Obj Allocator)
    (oldest : DelayBuffer) (rest : list DelayBuffer) :
  well_formed s ->
  S (current_buffer_size_ (fst s)) = buffer_capacity_ (fst s) ->
  quiet (snd s) ->
  delay_list_ (fst s) = oldest :: rest ->
  fits (timestamp oldest + timeout_ (fst s)) ->
  timestamp oldest + timeout_ (fst s) < next_reading (snd s) ->
  exists s' new more,
    deallocate pf p n s = (Ret tt, s') /\ well_formed s' /\
    current_buffer_ (fst s') = Some oldest /\
    current_buffer_size_ (fst s') = 0%nat /\
    trace (snd s') = new ++ trace (snd s) /\
    calls slept new = [] /\ calls grabbed_buffer new = [] /\
    calls returned new = ranges (elements oldest) ++ more /\
    ledger s' = ledger s ++ [(p, n)].
Proof.
  intros Hwf Hcap Hq Hl Hfit Hripe. destruct s as [a w].
  pose proof Hwf as ((cb & Hcb & Hlen & Hsome) & Hsize & _).
  unfold next_reading in *. cbn [fst snd observe_clock] in *.
  assert (Hnotfull : (current_buffer_size_ a =? buffer_capacity_ a)%nat = false)
    by (apply Nat.eqb_neq; lia).
  assert (Hroom : (current_buffer_size_ a <? length (elements cb))%nat = true)
    by (apply Nat.ltb_lt; lia).
  set (t := steady_clock w + Z.of_nat (hd 0%nat (clock_script w))) in *.
  set (sealed := set_timestamp t
                   (set_elements
                      (<[current_buffer_size_ a
                         := Some (mkElement p n (steady_clock w))]>
                         (elements cb)) cb)).
  destruct (sealed_ok a w cb (mkElement p n (steady_clock w)) t Hwf Hcb Hcap
              ltac:(subst t; lia)) as (HfullL & HsortedL & HtsL & HrangesL & _).
  fold sealed in HfullL, HsortedL, HtsL, HrangesL.
  assert (HL : delay_list_ a ++ [sealed] = oldest :: (rest ++ [sealed]))
    by (rewrite Hl; reflexivity).
  rewrite HL in HfullL, HsortedL, HtsL, HrangesL.
  pose (K := fun (o : outcome unit) (s' : Obj Allocator) =>
               o = Ret tt /\ well_formed s' /\
               current_buffer_ (fst s') = Some oldest /\
               current_buffer_size_ (fst s') = 0%nat /\
               (exists sigma, did sigma (a, w) s' /\ naps sigma = [] /\
                  grabbed sigma = [] /\
                  (exists more, gone sigma = ranges (elements oldest) ++ more) /\
                  gone sigma ++ pending (fst s') = pending a ++ [(p, n)])).
  destruct (wpf_outcome (deallocate pf p n) K (a, w))
    as (o & s' & Hrun & -> & Hwf' & Hcur & Hsz & sigma & Hdid & Hn & Hg & Hm & Hb).
  2: { destruct (did_new _ _ _ Hdid) as (new & Hnew & H1 & H2 & H3).
       destruct Hm as [more Hm].
       exists s', new, more. split; [exact Hrun|]. split; [exact Hwf'|].
       split; [exact Hcur|]. split; [exact Hsz|]. split; [exact Hnew|].
       split; [congruence|]. split; [congruence|]. split; [congruence|].
       eapply ledger_grows; eassumption. }
  seal Hcb Hnotfull Hroom Hcap. fold t. fold sealed. rewrite HL.
  match goal with |- wpf _ _ _ (?x, ?y) => set (a2 := x); set (w2 := y) end.
  assert (Hobs : did nothing (a, w) (a2, w2)).
  { apply (did_any a a2 w w2 []); [apply (onward_observe w) | reflexivity]. }
  assert (Hq2 : quiet w2) by (destruct Hobs as [(_ & H & _) _]; apply H, Hq).
  eapply wpf_wp;
    [apply (did_purge_reuse pf true (a2, w2)); [exact HfullL | intros _; exact Hq2]
    | intros ? H; discriminate H |].
  cbn [fst snd]. intros r [a3 w3] (Ha3 & Hc3 & Hr & Hdid3). cbn [fst snd] in *.
  change (now_ a2) with t in *. change (timeout_ a2) with (timeout_ a) in *.
  change (delay_list_ a2) with (oldest :: rest ++ [sealed]) in *.
  rewrite (ripe_past_the_deadline t (timeout_ a) oldest _ Hfit Hripe) in Hr, Hdid3.
  cbn [head tail] in Hr, Hdid3. subst r a3. wpf_simpl.
  assert (Hle23 : steady_clock w2 <= steady_clock w3) by (rewrite Hc3; lia).
  assert (Hcap2 : (1 <= buffer_capacity_ a2)%nat)
    by (change (buffer_capacity_ a2) with (buffer_capacity_ a); lia).
  destruct (recycled_ok a2 w2 w3 oldest _ HfullL HsortedL HtsL Hle23 Hcap2
              (ripe_past_the_deadline t (timeout_ a) oldest _ Hfit Hripe))
    as (Hwf' & Hpend & _).
  unfold K. split; [reflexivity|]. split; [exact Hwf'|].
  split; [reflexivity|]. split; [reflexivity|].
  eexists. split; [eapply did_trans; [exact Hobs | exact Hdid3]|].
  split; [reflexivity|]. split; [reflexivity|].
  split; [eexists; reflexivity|].
  exact (eq_trans Hpend HrangesL).
Qed.

Lemma a_ripe_buffer_is_recycled_without_allocating_witness :
  exists s' new more,
    deallocate release_build 41%nat 2%nat
      (example_allocator, example_world [3]%nat [alloc_throws_bad_alloc])
    = (Ret tt, s') /\
    current_buffer_ (fst s')
    = Some (mkBuffer 1 100 [Some (mkElement 40%nat 1%nat 100)]) /\
    trace (snd s') = new ++ [] /\
    calls slept new = [] /\ calls grabbed_buffer new = [] /\
    calls returned new = [(40%nat, 1%nat)] ++ more.
Proof.
  destruct (a_ripe_buffer_is_recycled_without_allocating release_build
              41%nat 2%nat
              (example_allocator, example_world [3]%nat [alloc_throws_bad_alloc])
              (mkBuffer 1 100 [Some (mkElement 40%nat 1%nat 100)]) [])
    as (s' & new & more & H1 & _ & H2 & _ & H3 & H4 & H5 & H6 & _).
  - apply example_allocator_well_formed. cbn. lia.
  - reflexivity.
  - constructor.
  - reflexivity.
  - fits_now.
  - cbn. lia.
  - exists s', new, more. repeat (split; [assumption|]). assumption.
Defined.

(** X11.  When the element fills the current buffer, the deadline of
    the oldest sealed buffer fits the 64-bit count of the clock and has
    not passed, the byte allocator throws [std::bad_alloc], no value
    destructor throws, and the clock has passed the deadline when
    [deallocate] wakes up, the failure is not surfaced: in either build
    [deallocate] returns, having slept exactly once, until that
    deadline; it obtained no buffer, and the current buffer is one the
    allocator owned before. *)
Theorem recovery_past_the_deadline_recycles_a_buffer {Allocator}
    (pf : Platform) (p : pointer) (n : nat) (s : Obj Allocator)
    (d1 d2 d3 : nat) (script : list nat) :
  well_formed s ->
  S (current_buffer_size_ (fst s)) = buffer_capacity_ (fst s) ->
  quiet (snd s) ->
  clock_script (snd s) = d1 :: d2 :: d3 :: script ->
  (0 < d2 + d3)%nat ->
  fits (first_deadline (fst s) (next_reading (snd s))) ->
  next_reading (snd s) <= first_deadline (fst s) (next_reading (snd s)) ->
  hd alloc_succeeds (alloc_script (snd s)) = alloc_throws_bad_alloc ->
  exists s' new b,
    deallocate pf p n s = (Ret tt, s') /\ well_formed s' /\
    current_buffer_ (fst s') = Some b /\
    In (address b) (map address (owned_buffers (fst s))) /\
    trace (snd s') = new ++ trace (snd s) /\
    calls slept new = [first_deadline (fst s) (next_reading (snd s))] /\
    calls grabbed_buffer new = [] /\
    ledger s' = ledger s ++ [(p, n)].
Proof.
  intros Hwf Hcap Hq Hscript Hpast Hfit Hunripe Halloc. destruct s as [a w].
  pose proof Hwf as ((cb & Hcb & Hlen & Hsome) & Hsize & _).
  unfold next_reading in *. cbn [fst snd observe_clock] in *.
  assert (Hnotfull : (current_buffer_size_ a =? buffer_capacity_ a)%nat = false)
    by (apply Nat.eqb_neq; lia).
  assert (Hroom : (current_buffer_size_ a <? length (elements cb))%nat = true)
    by (apply Nat.ltb_lt; lia).
  set (t := steady_clock w + Z.of_nat (hd 0%nat (clock_script w))) in *.
  set (sealed := set_timestamp t
                   (set_elements
                      (<[current_buffer_size_ a
                         := Some (mkElement p n (steady_clock w))]>
                         (elements cb)) cb)).
  destruct (sealed_ok a w cb (mkElement p n (steady_clock w)) t Hwf Hcb Hcap
              ltac:(subst t; lia))
    as (HfullL & HsortedL & HtsL & HrangesL & HpermL).
  fold sealed in HfullL, HsortedL, HtsL, HrangesL, HpermL.
  destruct (sealed_head a t sealed) as (oldest & rest & HL & Hd).
  specialize (Hd eq_refl).
  rewrite HL in HfullL, HsortedL, HtsL, HrangesL, HpermL.
  assert (Hdl : deadline (timestamp oldest) (timeout_ a) = first_deadline a t)
    by (rewrite deadline_fits; rewrite Hd; auto).
  assert (Hfit' : fits (timestamp oldest + timeout_ a))
    by (rewrite Hd; exact Hfit).
  set (ready := first_deadline a t) in *.
  pose (K := fun (o : outcome unit) (s' : Obj Allocator) =>
               o = Ret tt /\ well_formed s' /\
               (exists b, current_buffer_ (fst s') = Some b /\
                  In (address b) (map address (owned_buffers a))) /\
               (exists sigma, did sigma (a, w) s' /\ naps sigma = [ready] /\
                  grabbed sigma = [] /\
                  gone sigma ++ pending (fst s') = pending a ++ [(p, n)])).
  destruct (wpf_outcome (deallocate pf p n) K (a, w))
    as (o & s' & Hrun & -> & Hwf' & (b & Hcur & Hin) & sigma & Hdid & Hn & Hg & Hb).
  2: { destruct (did_new _ _ _ Hdid) as (new & Hnew & H1 & H2 & _).
       exists s', new, b. split; [exact Hrun|]. split; [exact Hwf'|].
       split; [exact Hcur|]. split; [exact Hin|]. split; [exact Hnew|].
       split; [congruence|]. split; [congruence|].
       eapply ledger_grows; eassumption. }
  seal Hcb Hnotfull Hroom Hcap.
  rewrite wpf_purge_reuse_unripe
    by (fields; apply sealed_unripe;
        [reflexivity | exact Hfit | exact Hunripe]).
  unfold buffer_new. wpf_simpl. rewrite Halloc. cbn iota.
  unfold deallocate_recover.
  wpf_simpl. fold t. fold sealed. rewrite HL. cbn iota. wpf_simpl.
  rewrite Hdl. rewrite Hscript. cbn [tl hd].
  set (t2 := Z.max t ready + Z.of_nat d2 + Z.of_nat d3).
  match goal with |- wpf _ _ _ (?x, ?y) => set (x6 := x); set (w6 := y) end.
  assert (Hon : onward w w6).
  { unfold onward, quiet, plentiful. subst w6. cbn.
    split; [subst t2 t; lia|]. split; [tauto|].
    intros H. apply (plentiful_tail w H). }
  assert (Hdid6 : did (mkSummary [] [ready] [] [] []) (a, w) (x6, w6)).
  { apply (did_any a x6 w w6 [SleptUntil ready]); [exact Hon | reflexivity]. }
  assert (Hq6 : quiet w6) by (destruct Hon as (_ & H & _); apply H, Hq).
  assert (Hripe : timestamp oldest + timeout_ a < t2) by (subst t2; lia).
  eapply wpf_wp;
    [apply (did_purge_reuse pf true (x6, w6)); [exact HfullL | intros _; exact Hq6]
    | intros ? H; discriminate H |].
  cbn [fst snd]. intros r [a7 w7] (Ha7 & Hc7 & Hr & Hdid7). cbn [fst snd] in *.
  change (now_ x6) with t2 in *. change (timeout_ x6) with (timeout_ a) in *.
  change (delay_list_ x6) with (oldest :: rest) in *.
  rewrite (ripe_past_the_deadline t2 (timeout_ a) oldest _ Hfit' Hripe) in Hr, Hdid7.
  cbn [head tail] in Hr, Hdid7. subst r a7. wpf_simpl.
  assert (Hle : t <= steady_clock w7)
    by (rewrite Hc7; subst w6 t2; cbn; lia).
  assert (Hcap6 : (1 <= buffer_capacity_ x6)%nat)
    by (change (buffer_capacity_ x6) with (buffer_capacity_ a); lia).
  destruct (recycled_ok x6 (snd (observe_clock w)) w7 oldest _ HfullL HsortedL
              HtsL Hle Hcap6
              (ripe_past_the_deadline t2 (timeout_ a) oldest _ Hfit' Hripe))
    as (Hwf' & Hpend & Hperm).
  unfold K. split; [reflexivity|]. split; [exact Hwf'|].
  split.
  - exists oldest. split; [reflexivity|].
    eapply Permutation_in; [exact HpermL|]. left. reflexivity.
  - eexists. split; [eapply did_trans; [exact Hdid6 | exact Hdid7]|].
    split; [reflexivity|]. split; [reflexivity|].
    exact (eq_trans Hpend HrangesL).
Qed.

Lemma recovery_past_the_deadline_recycles_a_buffer_witness :
  exists s' new b,
    deallocate release_build 41%nat 2%nat
      (example_allocator,
       example_world [0; 0; 1]%nat [alloc_throws_bad_alloc])
    = (Ret tt, s') /\
    current_buffer_ (fst s') = Some b /\
    trace (snd s') = new ++ [] /\
    calls slept new = [105] /\
    calls grabbed_buffer new = [].
Proof.
  destruct (recovery_past_the_deadline_recycles_a_buffer release_build
              41%nat 2%nat
              (example_allocator,
               example_world [0; 0; 1]%nat [alloc_throws_bad_alloc])
              0%nat 0%nat 1%nat [])
    as (s' & new & b & H1 & _ & H2 & _ & H3 & H4 & H5 & _).
  - apply example_allocator_well_formed. cbn. lia.
  - reflexivity.
  - constructor.
  - reflexivity.
  - lia.
  - fits_now.
  - cbn. lia.
  - reflexivity.
  - exists s', new, b. repeat (split; [assumption|]). assumption.
Defined.

Section ConstructorRuns.
Context {Allocator : Type}.
Variable pf : Platform.

(** The body of the constructor when the allocation succeeds. *)
Lemma constructor_body_runs (init : deferred_reclamation_allocator Allocator) w :
  hd alloc_succeeds (alloc_script w) = alloc_succeeds ->
  constructor_body pf (init, w)
  = (Ret tt,
     (with_current_buffer_
        (Some (mkBuffer (next_address w) 0
                 (replicate (buffer_capacity_ init) None))) init,
      emit (BytesAllocated (next_address w)
              (buffer_bytes pf (buffer_capacity_ init)))
        (mkWorld (steady_clock w) (clock_script w) (tl (alloc_script w))
           (dtor_script w) (S (next_address w)) (trace w)))).
Proof.
  intros Halloc. apply wpf_exact. unfold constructor_body, buffer_new.
  wpf_simpl. rewrite Halloc. reflexivity.
Qed.
End ConstructorRuns.

(** X12.  Construction with a capacity of at least 1, when the byte
    allocator provides the buffer, the product formed by the cast of the
    timeout fits 64 bits and the size of a buffer fits [std::size_t]:
    in either build the constructor returns a well-formed allocator with
    the given capacity and the timeout cast to the clock's duration,
    [count * num / den] truncated, holding nothing; it read the clock
    once and made one call, the allocation of a buffer of
    [sizeof(DelayBuffer) + capacity * sizeof(DelayBufferElement)]
    bytes. *)
Theorem the_constructor_builds_an_empty_pipeline {Allocator}
    (pf : Platform) (allocator : Allocator) (d : user_duration) (k : nat)
    (w : World) :
  (1 <= k)%nat ->
  fits (count d * period_num d) ->
  0 <= sizeof_DelayBuffer pf ->
  0 <= sizeof_DelayBufferElement pf ->
  sizeof_DelayBuffer pf + Z.of_nat k * sizeof_DelayBufferElement pf
  < size_t_max ->
  hd alloc_succeeds (alloc_script w) = alloc_succeeds ->
  exists a w1,
    constructor pf allocator d k w = (Ret a, w1) /\
    well_formed (a, w1) /\
    timeout_ a = Z.quot (count d * period_num d) (period_den d) /\
    buffer_capacity_ a = k /\
    pending a = [] /\ delay_list_ a = [] /\
    steady_clock w1 = next_reading w /\
    trace w1
    = BytesAllocated (next_address w)
        (sizeof_DelayBuffer pf + Z.of_nat k * sizeof_DelayBufferElement pf)
      :: trace w.
Proof.
  intros Hk Hfit Hhead Helem Hsize Halloc. unfold constructor, construct_object.
  destruct (observe_clock w) as [t w0] eqn:Hobs.
  assert (Hbody : (assert pf (1 <=? k)%nat >> constructor_body pf)
                    (mkAllocator allocator (duration_cast d) t allocator k
                       0%nat None [], w0)
                  = constructor_body pf
                      (mkAllocator allocator (duration_cast d) t allocator k
                         0%nat None [], w0)).
  { unfold bind, assert. rewrite (proj2 (Nat.leb_le 1 k) Hk).
    destruct (NDEBUG pf); reflexivity. }
  rewrite Hbody, constructor_body_runs
    by (injection Hobs as <- <-; exact Halloc).
  assert (Hbytes : buffer_bytes pf k
                   = sizeof_DelayBuffer pf
                     + Z.of_nat k * sizeof_DelayBufferElement pf).
  { unfold buffer_bytes, size_t_wrap.
    rewrite (Z.mod_small (Z.of_nat k * _)) by nia.
    apply Z.mod_small. nia. }
  eexists. eexists. split; [reflexivity|].
  injection Hobs as <- <-. cbn.
  split; [|split; [|split; [|split; [|split; [|split]]]]].
  - split; [eexists; split; [reflexivity|]; split;
              [apply length_replicate | constructor]|].
    cbn. split; [lia|]. split; [constructor|]. split; constructor.
  - unfold duration_cast. rewrite (int64_wrap_fits _ Hfit). reflexivity.
  - reflexivity.
  - reflexivity.
  - reflexivity.
  - reflexivity.
  - rewrite Hbytes. reflexivity.
Qed.

Lemma the_constructor_builds_an_empty_pipeline_witness :
  exists a w1,
    constructor release_build 7%nat (mkDuration 11 1 2) 4%nat
      (example_world [2]%nat [alloc_succeeds; alloc_throws_bad_alloc])
    = (Ret a, w1) /\
    well_formed (a, w1) /\
    timeout_ a = 5 /\
    buffer_capacity_ a = 4%nat /\
    pending a = [] /\ delay_list_ a = [] /\
    steady_clock w1 = 105 /\
    trace w1 = BytesAllocated 3 80 :: [].
Proof.
  apply (the_constructor_builds_an_empty_pipeline release_build 7%nat
           (mkDuration 11 1 2) 4%nat
           (example_world [2]%nat [alloc_succeeds; alloc_throws_bad_alloc])).
  - lia.
  - fits_now.
  - cbn. lia.
  - cbn. lia.
  - reflexivity.
  - reflexivity.
Defined.

(** X13.  The requirement that the capacity be at least 1 is only an
    [assert].  With a capacity of 0, a build with assertions stops in
    the constructor, before anything is allocated; a build without them
    constructs an allocator whose buffer has no slot, on which every
    [deallocate] writes past the end of the buffer. *)
Theorem a_capacity_of_zero_is_caught_only_by_the_assertion {Allocator}
    (pf : Platform) (allocator : Allocator) (d : user_duration) (w : World) :
  hd alloc_succeeds (alloc_script w) = alloc_succeeds ->
  if NDEBUG pf then
    exists a w1,
      constructor pf allocator d 0%nat w = (Ret a, w1) /\
      forall p n w',
        fst (deallocate pf p n (a, w')) = Fail UndefinedBehaviour
  else
    exists w1,
      constructor pf allocator d 0%nat w = (Fail AssertionFailed, w1) /\
      trace w1 = trace w /\ alloc_script w1 = alloc_script w.
Proof.
  intros Halloc. unfold constructor, construct_object.
  destruct (observe_clock w) as [t w0] eqn:Hobs.
  destruct (NDEBUG pf) eqn:Hnd.
  - assert (Hbody : (assert pf (1 <=? 0)%nat >> constructor_body pf)
                      (mkAllocator allocator (duration_cast d) t allocator
                         0%nat 0%nat None [], w0)
                    = constructor_body pf
                        (mkAllocator allocator (duration_cast d) t allocator
                           0%nat 0%nat None [], w0)).
    { unfold bind, assert. rewrite Hnd. reflexivity. }
    rewrite Hbody, constructor_body_runs
      by (injection Hobs as <- <-; exact Halloc).
    eexists. eexists. split; [reflexivity|].
    intros p n w'.
    assert (Hwp : wpf (deallocate pf p n) (fun _ _ => False)
              (fun f _ => f = UndefinedBehaviour)
              (with_current_buffer_
                 (Some (mkBuffer (next_address w0) 0 (replicate 0 None)))
                 (mkAllocator allocator (duration_cast d) t allocator 0%nat
                    0%nat None []), w')).
    { unfold deallocate, current_buffer_push_back. rewrite wpf_noexcept.
      do 4 (wpf_simpl; rewrite ?wpf_assert, ?Hnd). reflexivity. }
    unfold wpf in Hwp.
    match type of Hwp with
    | match ?m with _ => _ end =>
        change (fst m = Fail UndefinedBehaviour);
        destruct m as [[r|f] s']; [tauto | cbn; congruence]
    end.
  - assert (Hbody : (assert pf (1 <=? 0)%nat >> constructor_body pf)
                      (mkAllocator allocator (duration_cast d) t allocator
                         0%nat 0%nat None [], w0)
                    = (Fail AssertionFailed,
                       (mkAllocator allocator (duration_cast d) t allocator
                          0%nat 0%nat None [], w0))).
    { unfold bind, assert. rewrite Hnd. reflexivity. }
    rewrite Hbody. eexists. split; [reflexivity|].
    injection Hobs as <- <-. split; reflexivity.
Qed.

Lemma a_capacity_of_zero_is_caught_only_by_the_assertion_witness :
  exists a w1,
    constructor release_build 7%nat (ticks 5) 0%nat (calm 100) = (Ret a, w1) /\
    forall p n w',
      fst (deallocate release_build p n (a, w')) = Fail UndefinedBehaviour.
Proof.
  apply (a_capacity_of_zero_is_caught_only_by_the_assertion release_build
           7%nat (ticks 5) (calm 100)).
  reflexivity.
Defined.

Lemma wpf_fails {St R} (m : M St R) f0 s :
  wpf m (fun _ _ => False) (fun f _ => f = f0) s -> fst (m s) = Fail f0.
Proof.
  unfold wpf. destruct (m s) as [[r|f] s']; [tauto | cbn; congruence].
Qed.

(** X14.  Move construction hands the whole pipeline over: the new
    object owns the buffers and holds the pending ranges of the source,
    with its settings, and is well-formed if the source was; no call is
    made.  The source is left owning nothing: its destructor returns at
    once without a call, so no buffer is freed twice, and in a build
    with assertions every other member function stops at its first
    assertion. *)
Theorem a_move_hands_over_the_pipeline {Allocator} (pf : Platform)
    (other : deferred_reclamation_allocator Allocator) (w : World) :
  exists moved_to moved_from w1,
    move_constructor other w = (Ret (moved_to, moved_from), w1) /\
    trace w1 = trace w /\
    owned_buffers moved_to = owned_buffers other /\
    pending moved_to = pending other /\
    timeout_ moved_to = timeout_ other /\
    buffer_capacity_ moved_to = buffer_capacity_ other /\
    (well_formed (other, w) -> well_formed (moved_to, w1)) /\
    owned_buffers moved_from = [] /\
    destructor pf (moved_from, w1) = (Ret tt, (moved_from, w1)) /\
    (NDEBUG pf = false ->
     forall c w', member_call c ->
       fst (perform pf c (moved_from, w')) = Fail AssertionFailed).
Proof.
  unfold move_constructor. cbn [observe_clock].
  eexists. eexists. eexists. split; [reflexivity|].
  split; [reflexivity|]. split; [reflexivity|]. split; [reflexivity|].
  split; [reflexivity|]. split; [reflexivity|].
  split; [|split; [reflexivity|split]].
  - intros (Hcur & Hsize & Hfull & Hsorted & Hts). cbn [fst snd] in *.
    split; [exact Hcur|]. split; [exact Hsize|]. split; [exact Hfull|].
    split; [exact Hsorted|].
    eapply Forall_impl; [exact Hts|]. cbn. intros; lia.
  - apply destructor_without_a_buffer. reflexivity.
  - intros Hnd c w' Hc.
    destruct c as [n|p|p|p n|flavor| |d]; try contradiction;
      cbn [perform].
    + apply wpf_fails. unfold allocate. wpf_simpl. cbn [negb].
      rewrite wpf_assert, Hnd. reflexivity.
    + apply wpf_fails. unfold construct. wpf_simpl. cbn [negb].
      rewrite wpf_assert, Hnd. reflexivity.
    + apply wpf_fails. unfold destroy. wpf_simpl. cbn [negb].
      rewrite wpf_assert, Hnd. reflexivity.
    + rewrite deallocate_without_a_buffer by reflexivity.
      rewrite Hnd. reflexivity.
    + apply wpf_fails. unfold purge. wpf_simpl. cbn [negb].
      rewrite wpf_assert, Hnd. reflexivity.
Qed.

Lemma a_move_hands_over_the_pipeline_witness :
  exists moved_to moved_from w1,
    move_constructor example_allocator (calm 103)
    = (Ret (moved_to, moved_from), w1) /\
    pending moved_to = [(40%nat, 1%nat)] /\
    destructor debug_build (moved_from, w1) = (Ret tt, (moved_from, w1)).
Proof.
  destruct (a_move_hands_over_the_pipeline debug_build example_allocator
              (calm 103))
    as (x & y & w1 & H1 & _ & _ & H2 & _ & _ & _ & _ & H3 & _).
  exists x, y, w1. split; [exact H1|]. split; [exact H2 | exact H3].
Defined.

(** X15.  A copy keeps the timeout and the capacity of its source, and
    whether it compares equal to its source is decided by the
    underlying allocators alone: it does exactly when the allocator
    built from the source's compares equal to the source's, which the
    adaptor leaves to the underlying allocator.  The capacity plays no
    part in the comparison. *)
Theorem a_copy_compares_as_its_allocator_does {Allocator}
    `{UnderlyingAllocator Allocator} (pf : Platform)
    (convert : Allocator -> Allocator)
    (other : deferred_reclamation_allocator Allocator) (w : World) :
  hd alloc_succeeds (alloc_script w) = alloc_succeeds ->
  exists a w1,
    copy_constructor pf convert other w = (Ret a, w1) /\
    timeout_ a = timeout_ other /\
    buffer_capacity_ a = buffer_capacity_ other /\
    op_eq a other = alloc_eqb (convert (allocator_ other)) (allocator_ other) /\
    op_ne a other
    = negb (alloc_eqb (convert (allocator_ other)) (allocator_ other)).
Proof.
  intros Halloc.
  unfold copy_constructor, construct_object. cbn [observe_clock].
  rewrite constructor_body_runs by exact Halloc.
  eexists. eexists. split; [reflexivity|].
  unfold op_ne, op_eq. cbn. rewrite Z.eqb_refl. auto.
Qed.

Lemma a_copy_compares_as_its_allocator_does_witness :
  exists a w1,
    copy_constructor release_build S example_allocator (calm 103)
    = (Ret a, w1) /\
    timeout_ a = 5 /\
    buffer_capacity_ a = 1%nat /\
    op_eq a example_allocator = false /\
    op_ne a example_allocator = true.
Proof.
  destruct (a_copy_compares_as_its_allocator_does release_build S
              example_allocator (calm 103) eq_refl)
    as (a & w1 & H1 & H2 & H3 & H4 & H5).
  exists a, w1. split; [exact H1|]. split; [exact H2|]. split; [exact H3|].
  split; [exact H4 | exact H5].
Defined.

(** X16.  [destroy_n(first, n)] runs the destructors of the [n] objects
    from [first] on in increasing order.  When the destructor of the
    object at offset [j] is the first to throw, the exception leaves
    [destroy_n] if [j < n], after the [j] objects before it have been
    destroyed and none after it. *)
Theorem destroy_n_stops_at_the_first_throw {Allocator} (n : nat) :
  forall (first : pointer) (since : TimePoint) (s : Obj Allocator)
         (j : nat) (rest : list bool),
  dtor_script (snd s) = replicate j false ++ true :: rest ->
  fst (destroy_n first n since s)
  = (if (j <? n)%nat then Fail (Throw destructor_error) else Ret tt) /\
  fst (snd (destroy_n first n since s)) = fst s /\
  trace (snd (snd (destroy_n first n since s)))
  = rev (map (fun obj => Destroyed obj since (steady_clock (snd s)))
           (seq first (Nat.min j n)))
    ++ trace (snd s).
Proof.
  induction n as [|n IH]; intros first since [a w] j rest Hscript;
    cbn [fst snd] in *.
  - rewrite Nat.min_0_r. cbn. auto.
  - assert (Hstep : destroy_n first (S n) since (a, w)
                    = if hd false (dtor_script w)
                      then (Fail (Throw destructor_error),
                            (a, mkWorld (steady_clock w) (clock_script w)
                                  (alloc_script w) (tl (dtor_script w))
                                  (next_address w) (trace w)))
                      else destroy_n (S first) n since
                             (a, mkWorld (steady_clock w) (clock_script w)
                                   (alloc_script w) (tl (dtor_script w))
                                   (next_address w)
                                   (Destroyed first since (steady_clock w)
                                      :: trace w))).
    { cbn [destroy_n]. unfold bind, from_world, run_value_dtor. cbn [fst snd].
      destruct (hd false (dtor_script w)); reflexivity. }
    rewrite Hstep, Hscript. clear Hstep.
    destruct j as [|j]; cbn [replicate app hd tl].
    + cbn. auto.
    + specialize (IH (S first) since
                    (a, mkWorld (steady_clock w) (clock_script w) (alloc_script w)
                          (replicate j false ++ true :: rest) (next_address w)
                          (Destroyed first since (steady_clock w) :: trace w))
                    j rest eq_refl).
      cbn [fst snd steady_clock trace] in IH.
      destruct IH as (H1 & H2 & H3).
      change (S j <? S n)%nat with (j <? n)%nat.
      split; [exact H1|]. split; [exact H2|].
      rewrite H3. cbn [Nat.min seq map rev]. rewrite <- app_assoc. reflexivity.
Qed.

Lemma destroy_n_stops_at_the_first_throw_witness :
  fst (destroy_n 40%nat 3%nat 100
         (example_allocator, mkWorld 103 [] [] [false; true] 3%nat []))
  = Fail (Throw destructor_error) /\
  fst (snd (destroy_n 40%nat 3%nat 100
              (example_allocator, mkWorld 103 [] [] [false; true] 3%nat [])))
  = example_allocator /\
  trace (snd (snd (destroy_n 40%nat 3%nat 100
                     (example_allocator,
                      mkWorld 103 [] [] [false; true] 3%nat []))))
  = [Destroyed 40%nat 100 103].
Proof.
  apply (destroy_n_stops_at_the_first_throw 3%nat 40%nat 100
           (example_allocator, mkWorld 103 [] [] [false; true] 3%nat [])
           1%nat []).
  reflexivity.
Defined.

Section ObjectFrame.
Context {Allocator : Type}.
Variable pf : Platform.
Implicit Type s : Obj Allocator.







End ObjectFrame.






Lemma in_step_refl w : in_step w w.
Proof. exists []. cbn. rewrite !app_nil_r. auto. Qed.

Lemma in_step_trans w1 w2 w3 : in_step w1 w2 -> in_step w2 w3 -> in_step w1 w3.
Proof.
  intros (r1 & H1 & H2) (r2 & H3 & H4). exists (r1 ++ r2).
  rewrite H3, H1, H4, H2, flat_map_app, <- !app_assoc. auto.
Qed.

(** A step that runs no destructor and returns no range. *)
Lemma in_step_other w w' new :
  trace w' = new ++ trace w ->
  calls destroyed new = [] -> calls returned new = [] ->
  in_step w w'.
Proof.
  intros Ht Hd Hr. exists []. rewrite Ht, !calls_app, Hd, Hr. auto.
Qed.

(** Decides the tests left in a goal, and the failing cases. *)
Ltac settle :=
  repeat match goal with |- (if ?c then _ else _) => destruct c end;
  try exact I.

Section Pairs.
Context {Allocator : Type}.
Variable pf : Platform.
Implicit Type s : Obj Allocator.

Lemma wp_assert_any c (Q : unit -> Obj Allocator -> Prop) s :
  Q tt s -> wp (assert pf c) Q (fun _ => True) s.
Proof. intros H. rewrite wp_assert. destruct (NDEBUG pf), c; auto. Qed.

Lemma pairs_destroy_n n : forall first since s,
  wp (destroy_n first n since)
    (fun _ s' =>
       calls destroyed (trace (snd s'))
       = calls destroyed (trace (snd s)) ++ seq first n /\
       calls returned (trace (snd s')) = calls returned (trace (snd s)))
    (fun _ => True) s.
Proof.
  induction n as [|n IH]; intros first since [a w]; cbn [destroy_n].
  - cbn. rewrite app_nil_r. auto.
  - rewrite wp_bind. unfold wp at 1, from_world, run_value_dtor.
    cbn [fst snd]. destruct (hd false (dtor_script w)); [exact I|].
    eapply wp_mono; [apply IH | | auto].
    cbn [fst snd trace]. intros _ s' [H1 H2].
    rewrite H1, H2, !calls_cons. cbn. rewrite <- app_assoc, app_nil_r. auto.
Qed.

Lemma pairs_reclaim range : forall s,
  wp (reclaim_buffer_elements range)
    (fun _ s' => in_step (snd s) (snd s')) (fun _ => True) s.
Proof.
  induction range as [|[elem|] range IH]; intros [a w];
    cbn [reclaim_buffer_elements]; [apply in_step_refl | | exact I].
  rewrite wp_bind. eapply wp_mono; [apply pairs_destroy_n | | auto].
  cbn [fst snd]. intros _ [a1 w1] [H1 H2]. cbn [fst snd] in *. wp_simpl.
  eapply wp_mono; [apply IH | | auto].
  cbn [fst snd]. intros _ s' H. eapply in_step_trans; [|exact H].
  exists [(elem_p elem, elem_n elem)]. cbn [trace emit].
  rewrite !calls_cons, H1, H2. cbn. rewrite !app_nil_r. auto.
Qed.

Lemma pairs_buffer_delete b s :
  wp (buffer_delete pf b)
    (fun _ s' => in_step (snd s) (snd s')) (fun _ => True) s.
Proof.
  unfold buffer_delete. rewrite wp_bind. apply wp_assert_any.
  destruct b as [b|]; [|exact I]. wp_simpl.
  eapply (in_step_other _ _ [_; _]); reflexivity.
Qed.

Lemma pairs_elements_upto b k (Q : _ -> Obj Allocator -> Prop) s :
  Q (take k (elements b)) s ->
  wp (elements_upto b k) Q (fun _ => True) s.
Proof. intros H. rewrite wp_elements_upto. destruct (_ <=? _)%nat; auto. Qed.

Lemma pairs_reuse_loop l : forall reuse s,
  wp (reuse_loop pf l reuse)
    (fun _ s' => in_step (snd s) (snd s')) (fun _ => True) s.
Proof.
  induction l as [|oldest rest IH]; intros reuse [a w]; cbn [reuse_loop].
  - apply in_step_refl.
  - wp_simpl. destruct (now_ a <=? deadline (timestamp oldest) (timeout_ a));
      [apply in_step_refl|].
    rewrite wp_bind. apply pairs_elements_upto. rewrite wp_bind.
    eapply wp_mono; [apply pairs_reclaim | | auto].
    cbn [fst snd]. intros _ [a1 w1] H1. wp_simpl.
    destruct reuse as [kept|].
    + rewrite wp_bind.
      eapply wp_mono; [apply pairs_buffer_delete | | auto].
      cbn [fst snd]. intros _ [a2 w2] H2.
      eapply wp_mono; [apply IH | | auto].
      cbn [fst snd]. intros _ s' H3.
      eapply in_step_trans; [exact H1|].
      eapply in_step_trans; [exact H2 | exact H3].
    + eapply wp_mono; [apply IH | | auto].
      cbn [fst snd]. intros _ s' H3.
      eapply in_step_trans; [exact H1 | exact H3].
Qed.

Lemma pairs_purge_reuse s :
  wp (purge_delay_list_and_reuse_existing_buffer pf)
    (fun _ s' => in_step (snd s) (snd s')) (fun _ => True) s.
Proof.
  unfold purge_delay_list_and_reuse_existing_buffer. wp_simpl.
  apply pairs_reuse_loop.
Qed.

Lemma pairs_reclaim_full_buffer b s :
  wp (reclaim_full_buffer pf b)
    (fun _ s' => in_step (snd s) (snd s')) (fun _ => True) s.
Proof.
  unfold reclaim_full_buffer. wp_simpl. destruct (_ <=? _)%nat; [|exact I].
  eapply wp_mono; [apply pairs_reclaim | | auto].
  cbn [fst snd]. intros _ s1 H1.
  eapply wp_mono; [apply pairs_buffer_delete | | auto].
  cbn [fst snd]. intros _ s2 H2. eapply in_step_trans; eassumption.
Qed.

Lemma pairs_purge_loop flavor l : forall s,
  wp (purge_loop pf flavor l)
    (fun _ s' => in_step (snd s) (snd s')) (fun _ => True) s.
Proof.
  induction l as [|oldest rest IH]; intros [a w]; cbn [purge_loop].
  - apply in_step_refl.
  - wp_simpl. destruct (now_ a >? deadline (timestamp oldest) (timeout_ a)).
    + wp_simpl.
      eapply wp_mono; [apply pairs_reclaim_full_buffer | | auto].
      cbn [fst snd]. intros _ s1 H1.
      eapply wp_mono; [apply IH | | auto].
      cbn [fst snd]. intros _ s2 H2. eapply in_step_trans; eassumption.
    + destruct flavor; [apply in_step_refl|]. wp_simpl.
      eapply wp_mono; [apply pairs_reclaim_full_buffer | | auto].
      cbn [fst snd]. intros _ [a1 w1] H1. wp_simpl.
      eapply wp_mono; [apply IH | | auto].
      cbn [fst snd]. intros _ s2 H2.
      eapply in_step_trans; [|exact H2].
      eapply in_step_trans; [|exact H1].
      eapply (in_step_other _ _ [_]); reflexivity.
Qed.

Lemma pairs_purge flavor s :
  wp (purge pf flavor)
    (fun _ s' => in_step (snd s) (snd s')) (fun _ => True) s.
Proof.
  destruct s as [a w]. unfold purge. rewrite wp_noexcept, wp_bind.
  rewrite wp_was_moved_from, wp_bind. apply wp_assert_any. wp_simpl.
  eapply wp_mono; [apply pairs_purge_loop | | auto].
  cbn [fst snd]. intros _ s' H. exact H.
Qed.

Lemma pairs_deallocate p n s :
  wp (deallocate pf p n)
    (fun _ s' => in_step (snd s) (snd s')) (fun _ => True) s.
Proof.
  destruct s as [a w]. unfold deallocate, current_buffer_push_back.
  rewrite wp_noexcept, wp_bind, wp_was_moved_from, wp_bind.
  apply wp_assert_any. rewrite wp_bind, wp_current_buffer_full, wp_bind.
  apply wp_assert_any. rewrite wp_bind, wp_instant, wp_bind, wp_bind.
  rewrite wp_current_buffer_full, wp_bind. apply wp_assert_any.
  rewrite wp_bind, wp_deref_current_buffer. cbn [fst snd].
  destruct (current_buffer_ a) as [cb|]; [|exact I].
  wp_simpl. destruct (_ <? _)%nat; [|exact I]. wp_simpl.
  destruct (_ =? _)%nat; [|apply in_step_refl]. wp_simpl.
  eapply wp_mono; [apply pairs_purge_reuse | | auto].
  cbn [fst snd]. intros reuse [a3 w3] H3. wp_simpl.
  assert (H03 : in_step w w3).
  { eapply in_step_trans; [|exact H3].
    apply (in_step_other _ _ []); reflexivity. }
  destruct reuse as [kept|].
  { wp_simpl. settle; exact H03. }
  apply wp_try_catch. unfold buffer_new. wp_simpl.
  unfold wp at 1, from_world, resource_allocate. cbn [fst snd].
  assert (Hrecover : forall x w4,
            in_step w w4 ->
            wp (deallocate_recover pf)
              (fun _ s' =>
                 wp (let* moved := was_moved_from in
                     assert pf (negb moved) >>
                     assign (with_current_buffer_size_ 0))
                   (fun _ s'0 => in_step w (snd s'0)) (fun _ => True) s')
              (fun _ => True) (x, w4)).
  { intros x w4 H4. unfold deallocate_recover.
    rewrite wp_bind, wp_this, wp_bind. apply wp_assert_any.
    cbn [fst snd]. destruct (delay_list_ x) as [|oldest rest]; [exact I|].
    wp_simpl.
    eapply wp_mono; [apply pairs_purge_reuse | | auto].
    cbn [fst snd]. intros r [a5 w5] H5. wp_simpl.
    assert (H45 : in_step w w5).
    { eapply in_step_trans; [exact H4|]. eapply in_step_trans; [|exact H5].
      eapply (in_step_other _ _ [_]); reflexivity. }
    settle; exact H45. }
  destruct (hd alloc_succeeds (alloc_script w3)).
  - wp_simpl.
    assert (H04 : in_step w
                    (emit (BytesAllocated (next_address w3)
                             (buffer_bytes pf (buffer_capacity_ a3)))
                       (mkWorld (steady_clock w3) (clock_script w3)
                          (tl (alloc_script w3)) (dtor_script w3)
                          (S (next_address w3)) (trace w3)))).
    { eapply in_step_trans; [exact H03|].
      eapply (in_step_other _ _ [_]); reflexivity. }
    settle; exact H04.
  - split; [exact I|]. apply Hrecover.
    eapply in_step_trans; [exact H03|].
    apply (in_step_other _ _ []); reflexivity.
  - split; [exact I|]. apply Hrecover.
    eapply in_step_trans; [exact H03|].
    apply (in_step_other _ _ []); reflexivity.
Qed.

Lemma pairs_destructor s :
  wp (destructor pf)
    (fun _ s' => in_step (snd s) (snd s')) (fun _ => True) s.
Proof.
  destruct s as [a w]. unfold destructor.
  rewrite wp_noexcept, wp_bind, wp_was_moved_from. cbn [fst snd].
  destruct (current_buffer_ a) as [cb|] eqn:Hcb; [|apply in_step_refl].
  wp_simpl. rewrite Hcb. wp_simpl.
  eapply wp_mono; [apply pairs_purge | | auto].
  cbn [fst snd]. intros _ [a1 w1] H1. rewrite wp_bind, wp_this, wp_bind.
  apply wp_assert_any. rewrite wp_bind, wp_current_buffer_empty, wp_bind.
  assert (H01 : in_step w w1).
  { eapply in_step_trans; [|exact H1].
    apply (in_step_other _ _ []); reflexivity. }
  assert (Hdelete : forall s2 : Obj Allocator,
            in_step w (snd s2) ->
            wp (let* a0 := this in buffer_delete pf (current_buffer_ a0))
              (fun _ s' => in_step w (snd s')) (fun _ => True) s2).
  { intros s2 H2. wp_simpl.
    eapply wp_mono; [apply pairs_buffer_delete | | auto].
    cbn beta. intros _ s3 H3. eapply in_step_trans; eassumption. }
  cbn [fst snd]. destruct (negb _).
  - rewrite wp_bind, wp_deref_current_buffer. cbn [fst].
    destruct (current_buffer_ a1) as [b|]; [|exact I].
    rewrite wp_bind, wp_this, wp_bind. cbn [fst].
    assert (Hrest : forall w2,
              in_step w w2 ->
              wp (let* range := elements_upto b (current_buffer_size_ a1)
                  in reclaim_buffer_elements range)
                (fun _ s' =>
                   wp (let* a0 := this in buffer_delete pf (current_buffer_ a0))
                     (fun _ s'0 => in_step w (snd s'0)) (fun _ => True) s')
                (fun _ => True) (a1, w2)).
    { intros w2 H2. rewrite wp_bind. apply pairs_elements_upto.
      eapply wp_mono; [apply pairs_reclaim | | auto].
      cbn [fst snd]. intros _ s3 H3. apply Hdelete.
      eapply in_step_trans; eassumption. }
    destruct (_ <=? _); [rewrite wp_sleep_until | rewrite wp_ret];
      cbn [fst snd].
    + apply Hrest. eapply in_step_trans; [exact H01|].
      eapply (in_step_other _ _ [_]); reflexivity.
    + apply Hrest, H01.
  - wp_simpl. apply (Hdelete (a1, w1)), H01.
Qed.

Lemma pairs_perform c s :
  wp (perform pf c)
    (fun _ s' => in_step (snd s) (snd s')) (fun _ => True) s.
Proof.
  destruct s as [a w]. destruct c as [n|p|p|p n|flavor| |d]; cbn [perform].
  - unfold allocate. rewrite !wp_bind, wp_was_moved_from, wp_bind.
    apply wp_assert_any. rewrite wp_bind.
    unfold wp at 1, from_world, resource_allocate. cbn [fst snd].
    destruct (hd alloc_succeeds (alloc_script w)); try exact I. wp_simpl.
    eapply (in_step_other _ _ [_]); reflexivity.
  - unfold construct. rewrite !wp_bind, wp_was_moved_from, wp_bind.
    apply wp_assert_any.
    unfold wp, from_world, resource_construct. cbn [fst snd].
    destruct (hd alloc_succeeds (alloc_script w)); try exact I.
    eapply (in_step_other _ _ [_]); reflexivity.
  - unfold destroy. rewrite !wp_bind, wp_was_moved_from.
    apply wp_assert_any. apply in_step_refl.
  - apply pairs_deallocate.
  - apply pairs_purge.
  - unfold wp, move_constructor. cbn.
    apply (in_step_other _ _ []); reflexivity.
  - wp_simpl. apply (in_step_other _ _ []); reflexivity.
Qed.

Lemma pairs_perform_all cs : forall s,
  wp (perform_all pf cs)
    (fun _ s' => in_step (snd s) (snd s')) (fun _ => True) s.
Proof.
  induction cs as [|c cs IH]; intros s; cbn [perform_all].
  - apply in_step_refl.
  - rewrite wp_bind. eapply wp_mono; [apply pairs_perform | | auto].
    cbn beta. intros _ s1 H1. eapply wp_mono; [apply IH | | auto].
    cbn beta. intros _ s2 H2. eapply in_step_trans; eassumption.
Qed.

Lemma pairs_constructor (allocator : Allocator) d k w :
  match constructor pf allocator d k w with
  | (Ret _, w1) => in_step w w1
  | (Fail _, _) => True
  end.
Proof.
  unfold constructor, construct_object. cbn [observe_clock].
  match goal with
  | |- context [bind ?m ?k ?s] =>
      assert (Hwp : wp (bind m k) (fun _ s' => in_step w (snd s'))
                      (fun _ => True) s)
  end.
  { rewrite wp_bind. apply wp_assert_any.
    unfold constructor_body, buffer_new. wp_simpl.
    unfold wp at 1, from_world, resource_allocate. cbn [fst snd].
    destruct (hd alloc_succeeds _); try exact I. wp_simpl.
    eapply (in_step_other _ _ [_]); reflexivity. }
  unfold wp in Hwp. destruct (bind _ _ _) as [[r|f] [a' w']]; [exact Hwp | exact I].
Qed.

Lemma pairs_lifetime (allocator : Allocator) d k cs destroyed w :
  match lifetime pf allocator d k cs destroyed w with
  | (Ret _, w') => in_step w w'
  | (Fail _, _) => True
  end.
Proof.
  unfold lifetime.
  pose proof (pairs_constructor allocator d k w) as Hc.
  destruct (constructor pf allocator d k w) as [[a|f] w1]; [|exact I].
  assert (Hwp : wp (perform_all pf cs >>
                    if destroyed then destructor pf else ret tt)
                  (fun _ s' => in_step w (snd s')) (fun _ => True) (a, w1)).
  { rewrite wp_bind. eapply wp_mono; [apply pairs_perform_all | | auto].
    cbn [snd]. intros _ s1 H1. destruct destroyed.
    - eapply wp_mono; [apply pairs_destructor | | auto].
      cbn beta. intros _ s2 H2.
      eapply in_step_trans; [exact Hc|]. eapply in_step_trans; eassumption.
    - wp_simpl. eapply in_step_trans; eassumption. }
  unfold wp in Hwp. destruct (bind _ _ _) as [[r|f] s']; [exact Hwp | exact I].
Qed.
End Pairs.

(** X19.  In any build and any environment, over a life of an allocator
    that returns normally (construction, any calls, and the destructor
    or not), the value destructors that ran are exactly those of the
    objects of the ranges returned to the underlying allocator, range by
    range and in the same order, if that was so of the trace the life
    started with; in particular [destroy] never runs a destructor, and
    no object is destroyed without its range being returned. *)
Theorem destructors_run_for_returned_ranges_only {Allocator}
    (pf : Platform) (allocator : Allocator) (d : user_duration) (k : nat)
    (cs : list call) (destroyed_ : bool) (w w' : World) :
  lifetime pf allocator d k cs destroyed_ w = (Ret tt, w') ->
  calls destroyed (trace w)
  = flat_map range_objects (calls returned (trace w)) ->
  calls destroyed (trace w')
  = flat_map range_objects (calls returned (trace w')).
Proof.
  intros Hrun Hw.
  pose proof (pairs_lifetime pf allocator d k cs destroyed_ w) as H.
  rewrite Hrun in H. destruct H as (rs & H1 & H2).
  rewrite H1, H2, flat_map_app, Hw. reflexivity.
Qed.

Lemma destructors_run_for_returned_ranges_only_witness :
  calls destroyed
    (trace (snd (lifetime release_build 7%nat (ticks 5) 2%nat
                   [call_allocate 3; call_construct 40%nat;
                    call_destroy 40%nat; call_deallocate 40%nat 3%nat;
                    call_deallocate 50%nat 2%nat; call_purge exhaustive]
                   true (calm 100))))
  = flat_map range_objects
      (calls returned
         (trace (snd (lifetime release_build 7%nat (ticks 5) 2%nat
                        [call_allocate 3; call_construct 40%nat;
                         call_destroy 40%nat; call_deallocate 40%nat 3%nat;
                         call_deallocate 50%nat 2%nat; call_purge exhaustive]
                        true (calm 100))))).
Proof.
  apply (destructors_run_for_returned_ranges_only release_build 7%nat
           (ticks 5) 2%nat
           [call_allocate 3; call_construct 40%nat;
            call_destroy 40%nat; call_deallocate 40%nat 3%nat;
            call_deallocate 50%nat 2%nat; call_purge exhaustive]
           true (calm 100)).
  - vm_compute. reflexivity.
  - reflexivity.
Defined.
